(** * go-game: the simulation engine of an idle game, embedded from
      [src/game.go] and [src/config.go], and the terminal front end that
      drives it, from [src/unnamed/part_000].

    Data is modelled as the Go code has it: [int] is a 64-bit two's
    complement integer (a [Z] with its wrap-around written out), [float64]
    is the kernel's binary64 [float], [map[string]int] is a [gmap string Z],
    slices are lists updated by index, [time.Time] is an instant counted in
    nanoseconds and [time.Duration] a number of nanoseconds. Methods on
    [*GameState] become functions that take the state and return the new
    state next to their Go result. *)

From Stdlib Require Import ZArith Lia Bool List.
From Stdlib Require Import Floats.
From stdpp Require Import base option list gmap strings fin_maps.

Local Open Scope Z_scope.

(** ** Go's [int] on a 64-bit platform *)

Definition MinInt : Z := - 2 ^ 63.
Definition MaxInt : Z := 2 ^ 63 - 1.

(** The value an [int] holds after an arithmetic result [z] is stored. *)
Definition wrap (z : Z) : Z := (z + 2 ^ 63) mod 2 ^ 64 - 2 ^ 63.

Definition is_int (z : Z) : Prop := MinInt <= z <= MaxInt.

Definition minInt (a b : Z) : Z := if a <? b then a else b.
Definition maxInt (a b : Z) : Z := if a >? b then a else b.

(** ** Go's [float64]: conversions, [math.Ceil] and [math.Pow] *)

(** [float64(n)] for an [int] n: rounding to nearest, ties to even. *)
Definition float64_of_int (n : Z) : float :=
  SF2Prim (binary_normalize prec emax n 0 false).

(** The integer part of a finite float, rounded toward zero; [None] for
    NaN and the infinities. *)
Definition trunc_float (x : float) : option Z :=
  match Prim2SF x with
  | S754_zero _ => Some 0
  | S754_finite s m e =>
      let a := if 0 <=? e then Z.pos m * 2 ^ e else Z.pos m / 2 ^ (- e) in
      Some (cond_Zopp s a)
  | _ => None
  end.

(** [int(x)] for a [float64] x. When the truncated value does not fit an
    [int] the Go specification leaves the result to the implementation; the
    value taken here is the one amd64 produces (the "integer indefinite"
    2^63 bit pattern, that is [MinInt]). *)
Definition int_of_float64 (x : float) : Z :=
  match trunc_float x with
  | Some z => if (MinInt <=? z) && (z <=? MaxInt) then z else MinInt
  | None => MinInt
  end.

(** [math.Ceil]: the least integer value not below x; zeros, infinities and
    NaN are returned as they are. *)
Definition Ceil (x : float) : float :=
  match Prim2SF x with
  | S754_finite s m e =>
      if 0 <=? e then x
      else
        let c := - ((- cond_Zopp s (Z.pos m)) / 2 ^ (- e)) in
        if c =? 0 then (if s then neg_zero else zero)
        else float64_of_int c
  | _ => x
  end.

(** The loop of [math.Pow] that multiplies in x^yi by repeated squaring,
    the result kept as [a1 * 2^ae] and the running square as [x1 * 2^xe].
    The Go loop shifts [i] right until it is zero; here [i] is the
    [positive] whose bits are consumed from the low end. *)
Fixpoint pow_loop (i : positive) (a1 : float) (ae : Z) (x1 : float) (xe : Z)
  : float * Z :=
  if (xe <? - 4096) || (4096 <? xe) then (a1, ae + xe)
  else
    let '(a1, ae) :=
      match i with
      | xO _ => (a1, ae)
      | _ => ((a1 * x1)%float, ae + xe)
      end in
    let x1 := (x1 * x1)%float in
    let xe := 2 * xe in
    let '(x1, xe) :=
      if (x1 <? 0.5)%float then ((x1 + x1)%float, xe - 1) else (x1, xe) in
    match i with
    | xH => (a1, ae)
    | xO i' | xI i' => pow_loop i' a1 ae x1 xe
    end.

Definition isOddInt (y : float) : bool :=
  match trunc_float y with
  | Some z => (float64_of_int z =? y)%float && Z.odd z
  | None => false
  end.

(** [math.Pow(x, y)], following the Go library's algorithm: the special
    cases in the order the library tests them, then the integer part of the
    exponent by [pow_loop] and the final [Ldexp]. A fractional exponent
    other than one half would need [math.Exp] and [math.Log]; [scaledCost],
    the only caller, passes the [float64] of an [int], so that branch is
    never taken and yields NaN here. *)
Definition Pow (x y : float) : float :=
  if (y =? 0)%float || (x =? 1)%float then 1%float
  else if (y =? 1)%float then x
  else if is_nan x || is_nan y then nan
  else if (x =? 0)%float then
    if (y <? 0)%float then
      (if get_sign x && isOddInt y then neg_infinity else infinity)
    else (if get_sign x && isOddInt y then x else 0%float)
  else if is_infinity y then
    if (x =? -1)%float then 1%float
    else if Bool.eqb (abs x <? 1)%float (y =? infinity)%float then 0%float
    else infinity
  else if is_infinity x then
    if (x =? neg_infinity)%float then
      (* Pow(1/x, -y) with 1/x = -0 *)
      (if (0 <? y)%float then (if isOddInt y then neg_infinity else infinity)
       else (if isOddInt y then neg_zero else 0%float))
    else if (y <? 0)%float then 0%float else infinity
  else if (y =? 0.5)%float then sqrt x
  else if (y =? -0.5)%float then (1 / sqrt x)%float
  else
    match trunc_float (abs y) with
    | None => nan
    | Some yi =>
        if negb (float64_of_int yi =? abs y)%float then nan
        else if 2 ^ 63 <=? yi then
          (if (x =? -1)%float then 1%float
           else if Bool.eqb (abs x <? 1)%float (0 <? y)%float then 0%float
           else infinity)
        else
          let '(x1, xe) := Z.frexp x in
          let '(a1, ae) :=
            match yi with
            | Z.pos i => pow_loop i 1%float 0 x1 xe
            | _ => (1%float, 0)
            end in
          let '(a1, ae) :=
            if (y <? 0)%float then ((1 / a1)%float, - ae) else (a1, ae) in
          Z.ldexp a1 ae
    end.

(** ** The definition set ([src/config.go]) *)

(** [map[string]int]; a missing key reads as 0. *)
Abbreviation ledger := (gmap string Z).

Definition balance (m : ledger) (k : string) : Z := default 0 (m !! k).

Record WorkerConfig := {
  wc_Key : string;
  wc_WorkerName : string;
  wc_Produces : string;
  wc_ProdRate : Z;            (* time.Duration, nanoseconds *)
  wc_ProdQuant : Z;
  wc_UpgradeMult : float;
  wc_AutoTier : Z;
  wc_Level : Z;
  wc_Cost : option ledger     (* [None] is the nil map *)
}.

Record PassiveProductionSpec := {
  pp_Resource : string;
  pp_ProdRate : Z;
  pp_ProdQuant : Z
}.

Record IndustryConfig := {
  ic_Key : string;
  ic_Name : string;
  ic_Resource : string;
  ic_Workers : list WorkerConfig
}.

Record GameConfig := {
  cfg_StartingResources : option ledger;
  cfg_StartingProduction : list PassiveProductionSpec;
  cfg_Industries : list IndustryConfig
}.

(** Reading a nil map gives no entries. *)
Definition entries (m : option ledger) : ledger := default ∅ m.

(** ** The simulation state ([src/game.go]) *)

Record WorkerState := {
  ws_Definition : WorkerConfig;
  ws_Owned : Z;
  ws_Tier : Z;
  ws_Running : bool;
  ws_EndsAt : Z;              (* time.Time *)
  ws_Auto : bool
}.

Record IndustryState := {
  is_Key : string;
  is_Name : string;
  is_Resource : string;
  is_Workers : list WorkerState
}.

Record PassiveProductionState := {
  ps_Definition : PassiveProductionSpec;
  ps_NextAt : Z
}.

Record GameState := {
  Industries : list IndustryState;
  Resources : ledger;
  Production : list PassiveProductionState;
  BuyModeMax : bool;
  DevMode : bool
}.

(** The zero [time.Time]. Instants are counted from it. *)
Definition zeroTime : Z := 0.

(** Field updates, as the Go code writes through [*WorkerState] and
    [*GameState]. *)
Definition set_Owned (n : Z) (w : WorkerState) : WorkerState :=
  {| ws_Definition := ws_Definition w; ws_Owned := n; ws_Tier := ws_Tier w;
     ws_Running := ws_Running w; ws_EndsAt := ws_EndsAt w; ws_Auto := ws_Auto w |}.

Definition set_Tier (n : Z) (w : WorkerState) : WorkerState :=
  {| ws_Definition := ws_Definition w; ws_Owned := ws_Owned w; ws_Tier := n;
     ws_Running := ws_Running w; ws_EndsAt := ws_EndsAt w; ws_Auto := ws_Auto w |}.

Definition set_Running (b : bool) (w : WorkerState) : WorkerState :=
  {| ws_Definition := ws_Definition w; ws_Owned := ws_Owned w; ws_Tier := ws_Tier w;
     ws_Running := b; ws_EndsAt := ws_EndsAt w; ws_Auto := ws_Auto w |}.

Definition set_EndsAt (t : Z) (w : WorkerState) : WorkerState :=
  {| ws_Definition := ws_Definition w; ws_Owned := ws_Owned w; ws_Tier := ws_Tier w;
     ws_Running := ws_Running w; ws_EndsAt := t; ws_Auto := ws_Auto w |}.

Definition set_Auto (b : bool) (w : WorkerState) : WorkerState :=
  {| ws_Definition := ws_Definition w; ws_Owned := ws_Owned w; ws_Tier := ws_Tier w;
     ws_Running := ws_Running w; ws_EndsAt := ws_EndsAt w; ws_Auto := b |}.

Definition set_Workers (ws : list WorkerState) (i : IndustryState) : IndustryState :=
  {| is_Key := is_Key i; is_Name := is_Name i; is_Resource := is_Resource i;
     is_Workers := ws |}.

Definition set_NextAt (t : Z) (p : PassiveProductionState) : PassiveProductionState :=
  {| ps_Definition := ps_Definition p; ps_NextAt := t |}.

Definition set_Industries (l : list IndustryState) (g : GameState) : GameState :=
  {| Industries := l; Resources := Resources g; Production := Production g;
     BuyModeMax := BuyModeMax g; DevMode := DevMode g |}.

Definition set_Resources (r : ledger) (g : GameState) : GameState :=
  {| Industries := Industries g; Resources := r; Production := Production g;
     BuyModeMax := BuyModeMax g; DevMode := DevMode g |}.

Definition set_Production (l : list PassiveProductionState) (g : GameState) : GameState :=
  {| Industries := Industries g; Resources := Resources g; Production := l;
     BuyModeMax := BuyModeMax g; DevMode := DevMode g |}.

(** [&g.Industries[i].Workers[j]]: [None] is Go's index-out-of-range panic. *)
Definition worker_at (g : GameState) (i j : nat) : option WorkerState :=
  ind ← Industries g !! i; is_Workers ind !! j.

(** Writing through that pointer. *)
Definition write_worker (g : GameState) (i j : nat) (w : WorkerState) : GameState :=
  set_Industries
    (alter (fun ind => set_Workers (<[j := w]> (is_Workers ind)) ind) i (Industries g)) g.

(** ** Economy *)

Definition canAfford (cost resources : ledger) : bool :=
  map_fold (fun resource amount ok =>
              if balance resources resource <? amount then false else ok)
           true cost.

Definition maxAffordable (cost resources : ledger) : Z :=
  let limit :=
    map_fold (fun resource amount limit =>
                if amount <=? 0 then limit
                else minInt limit (Z.quot (balance resources resource) amount))
             MaxInt cost in
  if limit =? MaxInt then 0 else limit.

Definition scaledCost (base : ledger) (multiplier : float) (tier : Z) : ledger :=
  let factor := Pow multiplier (float64_of_int (maxInt (wrap (tier - 1)) 0)) in
  map_fold (fun resource amount cost =>
              <[resource := int_of_float64 (Ceil (float64_of_int amount * factor)%float)]> cost)
           ∅ base.

(** [for resource, amount := range cost { resources[resource] -= amount * count }] *)
Definition debit (cost : ledger) (count : Z) (resources : ledger) : ledger :=
  map_fold (fun resource amount res =>
              <[resource := wrap (balance res resource - wrap (amount * count))]> res)
           resources cost.

(** [for resource, amount := range cost { resources[resource] -= amount }] *)
Definition pay (cost resources : ledger) : ledger :=
  map_fold (fun resource amount res =>
              <[resource := wrap (balance res resource - amount)]> res)
           resources cost.

(** The status strings the operations return. *)
Inductive Status :=
  | CannotAfford                (* "cannot afford" *)
  | Bought (count : Z)          (* "bought %d" *)
  | CannotAffordUpgrade         (* "cannot afford upgrade" *)
  | Upgraded                    (* "upgraded" *)
  | NeedWorker                  (* "need at least 1 worker" *)
  | AlreadyRunning              (* "already running" *)
  | CycleStarted.               (* "cycle started" *)

(** The purchase count [BuyWorker] settles on before its [count <= 0] test;
    [None] is the early "cannot afford" return of the one-unit branch. *)
Definition buyCount (g : GameState) (cost : ledger) : option Z :=
  if DevMode g then
    if BuyModeMax g then
      let count := maxAffordable cost (Resources g) in
      Some (if count <? 1 then 1 else count)
    else Some 1
  else if BuyModeMax g then Some (maxAffordable cost (Resources g))
  else if negb (canAfford cost (Resources g)) then None
  else Some 1.

Definition BuyWorker (g : GameState) (industryIndex workerIndex : nat)
  : option (GameState * Status) :=
  worker ← worker_at g industryIndex workerIndex;
  let cost := entries (wc_Cost (ws_Definition worker)) in
  match buyCount g cost with
  | None => Some (g, CannotAfford)
  | Some count =>
      if count <=? 0 then Some (g, CannotAfford)
      else
        let g1 := if DevMode g then g
                  else set_Resources (debit cost count (Resources g)) g in
        Some (write_worker g1 industryIndex workerIndex
                (set_Owned (wrap (ws_Owned worker + count)) worker),
              Bought count)
  end.

Definition UpgradeWorker (g : GameState) (industryIndex workerIndex : nat)
  : option (GameState * Status) :=
  worker ← worker_at g industryIndex workerIndex;
  let def := ws_Definition worker in
  let cost := scaledCost (entries (wc_Cost def)) (wc_UpgradeMult def) (ws_Tier worker) in
  if negb (DevMode g) && negb (canAfford cost (Resources g))
  then Some (g, CannotAffordUpgrade)
  else
    let g1 := if DevMode g then g
              else set_Resources (pay cost (Resources g)) g in
    let w1 := set_Tier (wrap (ws_Tier worker + 1)) worker in
    let w2 := if (wc_AutoTier def >? 0) && (ws_Tier w1 >=? wc_AutoTier def)
              then set_Auto true w1 else w1 in
    Some (write_worker g1 industryIndex workerIndex w2, Upgraded).

Definition StartRun (g : GameState) (industryIndex workerIndex : nat) (now : Z)
  : option (GameState * Status) :=
  worker ← worker_at g industryIndex workerIndex;
  if ws_Owned worker =? 0 then Some (g, NeedWorker)
  else if ws_Running worker then Some (g, AlreadyRunning)
  else
    Some (write_worker g industryIndex workerIndex
            (set_EndsAt (now + wc_ProdRate (ws_Definition worker))
               (set_Running true worker)),
          CycleStarted).

(** ** Production and the simulation clock *)

Definition findWorkerIndex (workers : list WorkerState) (key : string) : option nat :=
  fst <$> list_find (fun w => wc_Key (ws_Definition w) = key) workers.

Definition credit (resources : ledger) (key : string) (amount : Z) : ledger :=
  <[key := wrap (balance resources key + amount)]> resources.

(** [g.applyProduction(industry, worker)], [worker] being
    [&industry.Workers[workerIndex]]. *)
Definition applyProduction (resources : ledger) (industry : IndustryState)
    (workerIndex : nat) : ledger * IndustryState :=
  match is_Workers industry !! workerIndex with
  | None => (resources, industry)
  | Some worker =>
      if ws_Owned worker =? 0 then (resources, industry)
      else
        let def := ws_Definition worker in
        let produced := wrap (wc_ProdQuant def * ws_Owned worker) in
        match findWorkerIndex (is_Workers industry) (wc_Produces def) with
        | Some targetIndex =>
            (resources,
             set_Workers
               (alter (fun t => set_Owned (wrap (ws_Owned t + produced)) t)
                      targetIndex (is_Workers industry))
               industry)
        | None =>
            if decide (wc_Produces def = is_Resource industry)
            then (credit resources (is_Resource industry) produced, industry)
            else (credit resources (wc_Produces def) produced, industry)
        end
  end.

(** The restart a worker makes at [now]. *)
Definition start_cycle (now : Z) (w : WorkerState) : WorkerState :=
  set_EndsAt (now + wc_ProdRate (ws_Definition w)) (set_Running true w).

(** One pass of the body of [Update]'s inner loop. *)
Definition updateWorker (now : Z) (st : ledger * IndustryState) (workerIndex : nat)
  : ledger * IndustryState :=
  let '(resources, industry) := st in
  match is_Workers industry !! workerIndex with
  | None => st
  | Some worker =>
      let worker1 :=
        if ws_Auto worker && negb (ws_Running worker) && (ws_Owned worker >? 0)
        then start_cycle now worker else worker in
      let industry1 := set_Workers (<[workerIndex := worker1]> (is_Workers industry)) industry in
      if negb (ws_Running worker1) then (resources, industry1)
      else if now <? ws_EndsAt worker1 then (resources, industry1)
      else
        let '(resources2, industry2) := applyProduction resources industry1 workerIndex in
        (resources2,
         set_Workers
           (alter (fun w => let w' := set_Running false w in
                            if ws_Auto w' then start_cycle now w' else w')
                  workerIndex (is_Workers industry2))
           industry2)
  end.

Definition updateIndustry (now : Z) (resources : ledger) (industry : IndustryState)
  : ledger * IndustryState :=
  foldl (updateWorker now) (resources, industry) (seq 0 (length (is_Workers industry))).

(** The catch-up loop of [PassiveProductionState.apply],
    [for !now.Before(p.NextAt) { ... }], run for at most [fuel] rounds;
    [None] when the fuel does not suffice. *)
Fixpoint catch_up (fuel : nat) (now : Z) (d : PassiveProductionSpec)
    (nextAt : Z) (resources : ledger) : option (Z * ledger) :=
  if now <? nextAt then Some (nextAt, resources)
  else
    match fuel with
    | O => None
    | S fuel' =>
        catch_up fuel' now d (nextAt + pp_ProdRate d)
                 (credit resources (pp_Resource d) (pp_ProdQuant d))
    end.

(** The loop as a big-step relation, with no bound on its rounds. *)
Inductive catch_up_runs (now : Z) (d : PassiveProductionSpec)
  : Z * ledger -> Z * ledger -> Prop :=
  | catch_up_exit nextAt resources :
      now < nextAt ->
      catch_up_runs now d (nextAt, resources) (nextAt, resources)
  | catch_up_round nextAt resources final :
      nextAt <= now ->
      catch_up_runs now d
        (nextAt + pp_ProdRate d, credit resources (pp_Resource d) (pp_ProdQuant d))
        final ->
      catch_up_runs now d (nextAt, resources) final.

(** Rounds the loop makes from [nextAt] when the interval is positive. *)
Definition rounds (now nextAt rate : Z) : nat :=
  Z.to_nat ((now - nextAt) / rate + 1).

(** [p.apply(now, resources)]. Past the two guards the interval is
    positive and [rounds] bounds the loop ([apply_runs_loop] below), so the
    last branch is never taken. *)
Definition apply (now : Z) (p : PassiveProductionState) (resources : ledger)
  : PassiveProductionState * ledger :=
  let d := ps_Definition p in
  if now <? ps_NextAt p then (p, resources)
  else if (pp_ProdRate d <=? 0) || (pp_ProdQuant d <=? 0) then (p, resources)
  else
    match catch_up (rounds now (ps_NextAt p) (pp_ProdRate d)) now d (ps_NextAt p) resources with
    | Some (nextAt, resources') => (set_NextAt nextAt p, resources')
    | None => (p, resources)
    end.

(** [for index := range g.Production { g.Production[index].apply(now, g.Resources) }]:
    every entry is advanced in place, the ledger is shared. *)
Fixpoint applyAll (now : Z) (production : list PassiveProductionState)
    (resources : ledger) : list PassiveProductionState * ledger :=
  match production with
  | [] => ([], resources)
  | p :: rest =>
      let '(p', resources1) := apply now p resources in
      let '(rest', resources2) := applyAll now rest resources1 in
      (p' :: rest', resources2)
  end.

(** The outer loop of [Update]: an industry's workers only write to their
    own industry and to the shared ledger. *)
Fixpoint updateIndustries (now : Z) (industries : list IndustryState)
    (resources : ledger) : list IndustryState * ledger :=
  match industries with
  | [] => ([], resources)
  | industry :: rest =>
      let '(resources1, industry') := updateIndustry now resources industry in
      let '(rest', resources2) := updateIndustries now rest resources1 in
      (industry' :: rest', resources2)
  end.

Definition Update (now : Z) (g : GameState) : GameState :=
  let '(production, resources1) := applyAll now (Production g) (Resources g) in
  let '(industries, resources2) := updateIndustries now (Industries g) resources1 in
  {| Industries := industries; Resources := resources2; Production := production;
     BuyModeMax := BuyModeMax g; DevMode := DevMode g |}.

(** ** Construction *)

(** [buildPassiveProduction]; [clock k] is the reading of [time.Now()] taken
    for the entry at index [k]. *)
Definition buildPassiveProduction (clock : nat -> Z)
    (definitions : list PassiveProductionSpec) : list PassiveProductionState :=
  imap (fun k definition =>
          {| ps_Definition := definition;
             ps_NextAt := clock k + pp_ProdRate definition |})
       definitions.

Inductive BuildError :=
  | TooManyIndustries (n : nat).      (* "too many industries: %d (max 5)" *)

Definition BuildGame (clock : nat -> Z) (cfg : GameConfig) : BuildError + GameState :=
  let resources := entries (cfg_StartingResources cfg) in
  let industries :=
    map (fun industry =>
           {| is_Key := ic_Key industry;
              is_Name := ic_Name industry;
              is_Resource := ic_Resource industry;
              is_Workers :=
                imap (fun index worker =>
                        {| ws_Definition := worker;
                           ws_Owned := if Nat.eqb index 0 then 1 else 0;
                           ws_Tier := 1;
                           ws_Running := false;
                           ws_EndsAt := zeroTime;
                           ws_Auto := false |})
                     (ic_Workers industry) |})
        (cfg_Industries cfg) in
  if (5 <? length industries)%nat then inl (TooManyIndustries (length industries))
  else inr {| Industries := industries;
              Resources := resources;
              Production := buildPassiveProduction clock (cfg_StartingProduction cfg);
              BuyModeMax := false;
              DevMode := false |}.

(** ** Validation of a parsed configuration ([LoadConfig], after the YAML
    has been read) *)

Inductive ConfigError :=
  | NoIndustries
  | IndustryMissingKey (i : nat)
  | IndustryMissingResource (key : string)
  | IndustryMissingWorkers (key : string)
  | WorkerMissingKey (industry : string) (j : nat)
  | WorkerMissingName (industry worker : string)
  | WorkerMissingProdRate (industry worker : string)
  | WorkerMissingProdQuant (industry worker : string)
  | WorkerMissingUpgradeMult (industry worker : string)
  | WorkerMissingLevel (industry worker : string)
  | WorkerMissingCost (industry worker : string)
  | ProductionMissingResource (i : nat)
  | ProductionMissingProdRate (resource : string)
  | ProductionMissingProdQuant (resource : string).

Definition is_empty_string (s : string) : bool :=
  match s with EmptyString => true | _ => false end.

(** The checks on one worker, and [worker.Cost["coins"] = worker.Level]. *)
Definition checkWorker (industry : string) (j : nat) (worker : WorkerConfig)
  : ConfigError + WorkerConfig :=
  if is_empty_string (wc_Key worker) then inl (WorkerMissingKey industry j)
  else if is_empty_string (wc_WorkerName worker)
    then inl (WorkerMissingName industry (wc_Key worker))
  else if wc_ProdRate worker <=? 0
    then inl (WorkerMissingProdRate industry (wc_Key worker))
  else if wc_ProdQuant worker <=? 0
    then inl (WorkerMissingProdQuant industry (wc_Key worker))
  else if (wc_UpgradeMult worker <=? 0)%float
    then inl (WorkerMissingUpgradeMult industry (wc_Key worker))
  else if wc_Level worker <=? 0
    then inl (WorkerMissingLevel industry (wc_Key worker))
  else
    match wc_Cost worker with
    | None => inl (WorkerMissingCost industry (wc_Key worker))
    | Some cost =>
        inr {| wc_Key := wc_Key worker;
               wc_WorkerName := wc_WorkerName worker;
               wc_Produces := wc_Produces worker;
               wc_ProdRate := wc_ProdRate worker;
               wc_ProdQuant := wc_ProdQuant worker;
               wc_UpgradeMult := wc_UpgradeMult worker;
               wc_AutoTier := wc_AutoTier worker;
               wc_Level := wc_Level worker;
               wc_Cost := Some (<["coins" := wc_Level worker]> cost) |}
    end.

Fixpoint checkWorkers (industry : string) (j : nat) (workers : list WorkerConfig)
  : ConfigError + list WorkerConfig :=
  match workers with
  | [] => inr []
  | worker :: rest =>
      match checkWorker industry j worker with
      | inl e => inl e
      | inr worker' =>
          match checkWorkers industry (S j) rest with
          | inl e => inl e
          | inr rest' => inr (worker' :: rest')
          end
      end
  end.

Definition checkIndustry (i : nat) (industry : IndustryConfig)
  : ConfigError + IndustryConfig :=
  if is_empty_string (ic_Key industry) then inl (IndustryMissingKey i)
  else if is_empty_string (ic_Resource industry)
    then inl (IndustryMissingResource (ic_Key industry))
  else if (length (ic_Workers industry) =? 0)%nat
    then inl (IndustryMissingWorkers (ic_Key industry))
  else
    match checkWorkers (ic_Key industry) 0 (ic_Workers industry) with
    | inl e => inl e
    | inr workers =>
        inr {| ic_Key := ic_Key industry; ic_Name := ic_Name industry;
               ic_Resource := ic_Resource industry; ic_Workers := workers |}
    end.

Fixpoint checkIndustries (i : nat) (industries : list IndustryConfig)
  : ConfigError + list IndustryConfig :=
  match industries with
  | [] => inr []
  | industry :: rest =>
      match checkIndustry i industry with
      | inl e => inl e
      | inr industry' =>
          match checkIndustries (S i) rest with
          | inl e => inl e
          | inr rest' => inr (industry' :: rest')
          end
      end
  end.

Fixpoint checkProduction (i : nat) (production : list PassiveProductionSpec)
  : option ConfigError :=
  match production with
  | [] => None
  | p :: rest =>
      if is_empty_string (pp_Resource p) then Some (ProductionMissingResource i)
      else if pp_ProdRate p <=? 0 then Some (ProductionMissingProdRate (pp_Resource p))
      else if pp_ProdQuant p <=? 0 then Some (ProductionMissingProdQuant (pp_Resource p))
      else checkProduction (S i) rest
  end.

(** [LoadConfig] from the parsed [cfg] on. *)
Definition validateConfig (cfg : GameConfig) : ConfigError + GameConfig :=
  if (length (cfg_Industries cfg) =? 0)%nat then inl NoIndustries
  else
    match checkIndustries 0 (cfg_Industries cfg) with
    | inl e => inl e
    | inr industries =>
        match checkProduction 0 (cfg_StartingProduction cfg) with
        | Some e => inl e
        | None =>
            inr {| cfg_StartingResources := cfg_StartingResources cfg;
                   cfg_StartingProduction := cfg_StartingProduction cfg;
                   cfg_Industries := industries |}
        end
    end.

(** ** Snapshots *)

Record saveWorker := {
  sw_Key : string;
  sw_Owned : Z;
  sw_Tier : Z;
  sw_Auto : bool
}.

Record saveIndustry := {
  si_Key : string;
  si_Workers : list saveWorker
}.

Record saveProduction := {
  sp_NextAt : Z
}.

Record saveGame := {
  sg_Industries : list saveIndustry;
  sg_Resources : option ledger;    (* [None] is the nil map, JSON null *)
  sg_Production : list saveProduction;
  sg_BuyModeMax : bool;
  sg_DevMode : bool;
  sg_SavedAt : Z;
  sg_Version : Z
}.

Definition snapshotWorker (worker : WorkerState) : saveWorker :=
  {| sw_Key := wc_Key (ws_Definition worker);
     sw_Owned := ws_Owned worker;
     sw_Tier := ws_Tier worker;
     sw_Auto := ws_Auto worker |}.

Definition snapshotIndustry (industry : IndustryState) : saveIndustry :=
  {| si_Key := is_Key industry;
     si_Workers := map snapshotWorker (is_Workers industry) |}.

(** [g.snapshot()], [savedAt] being the reading of [time.Now()]. *)
Definition snapshot (savedAt : Z) (g : GameState) : saveGame :=
  {| sg_Industries := map snapshotIndustry (Industries g);
     sg_Resources := Some (Resources g);
     sg_Production := map (fun entry => {| sp_NextAt := ps_NextAt entry |}) (Production g);
     sg_BuyModeMax := BuyModeMax g;
     sg_DevMode := DevMode g;
     sg_SavedAt := savedAt;
     sg_Version := 1 |}.

Inductive LoadError :=
  | MissingResources                     (* "save missing resources" *)
  | IndustriesMismatch                   (* "save industries mismatch" *)
  | ProductionMismatch                   (* "save production mismatch" *)
  | MissingIndustry (key : string)       (* "save missing industry %s" *)
  | MissingWorker (key : string).        (* "save missing worker %s" *)

Definition industryLookup (saved : list saveIndustry) : gmap string saveIndustry :=
  foldl (fun lookup industry => <[si_Key industry := industry]> lookup) ∅ saved.

Definition workerLookup (saved : list saveWorker) : gmap string saveWorker :=
  foldl (fun lookup worker => <[sw_Key worker := worker]> lookup) ∅ saved.

(** The five assignments [applySnapshot] makes to a worker it has found. *)
Definition restoreWorker (savedWorker : saveWorker) (worker : WorkerState) : WorkerState :=
  {| ws_Definition := ws_Definition worker;
     ws_Owned := sw_Owned savedWorker;
     ws_Tier := sw_Tier savedWorker;
     ws_Running := false;
     ws_EndsAt := zeroTime;
     ws_Auto := sw_Auto savedWorker
                || ((wc_AutoTier (ws_Definition worker) >? 0)
                    && (sw_Tier savedWorker >=? wc_AutoTier (ws_Definition worker))) |}.

(** The inner loop of [applySnapshot] over one industry's workers. The
    workers are written in place, so the list comes back with every worker
    before the failing one already restored. *)
Fixpoint applyWorkers (lookup : gmap string saveWorker) (workers : list WorkerState)
  : list WorkerState * option LoadError :=
  match workers with
  | [] => ([], None)
  | worker :: rest =>
      match lookup !! wc_Key (ws_Definition worker) with
      | None => (worker :: rest, Some (MissingWorker (wc_Key (ws_Definition worker))))
      | Some savedWorker =>
          let '(rest', err) := applyWorkers lookup rest in
          (restoreWorker savedWorker worker :: rest', err)
      end
  end.

(** The outer loop, over the live industries. *)
Fixpoint applyIndustries (lookup : gmap string saveIndustry)
    (industries : list IndustryState) : list IndustryState * option LoadError :=
  match industries with
  | [] => ([], None)
  | industry :: rest =>
      match lookup !! is_Key industry with
      | None => (industry :: rest, Some (MissingIndustry (is_Key industry)))
      | Some savedIndustry =>
          match applyWorkers (workerLookup (si_Workers savedIndustry)) (is_Workers industry) with
          | (workers', Some err) => (set_Workers workers' industry :: rest, Some err)
          | (workers', None) =>
              let '(rest', err) := applyIndustries lookup rest in
              (set_Workers workers' industry :: rest', err)
          end
      end
  end.

(** [g.Production[index].NextAt = snapshot.Production[index].NextAt]; the
    lengths are equal when this loop is reached. *)
Fixpoint restoreProduction (production : list PassiveProductionState)
    (saved : list saveProduction) : list PassiveProductionState :=
  match production, saved with
  | p :: rest, sp :: saved' => set_NextAt (sp_NextAt sp) p :: restoreProduction rest saved'
  | _, _ => production
  end.

(** [g.applySnapshot(snapshot)]: the state [g] is left in, and the error
    ([None] for nil). *)
Definition applySnapshot (g : GameState) (snapshot : saveGame)
  : GameState * option LoadError :=
  match sg_Resources snapshot with
  | None => (g, Some MissingResources)
  | Some savedResources =>
      if negb (length (sg_Industries snapshot) =? length (Industries g))%nat
      then (g, Some IndustriesMismatch)
      else if negb (length (sg_Production snapshot) =? length (Production g))%nat
      then (g, Some ProductionMismatch)
      else
        match applyIndustries (industryLookup (sg_Industries snapshot)) (Industries g) with
        | (industries, Some err) => (set_Industries industries g, Some err)
        | (industries, None) =>
            ({| Industries := industries;
                Resources := savedResources;
                Production := restoreProduction (Production g) (sg_Production snapshot);
                BuyModeMax := sg_BuyModeMax snapshot;
                DevMode := sg_DevMode snapshot |},
             None)
        end
  end.

(** * Vocabulary of the properties *)

(** The running minimum [maxAffordable] keeps: [MaxInt] capped by the
    quotient of every positively priced resource. *)
Definition affordLimit (cost resources : ledger) : Z :=
  map_fold (fun resource amount limit =>
              if amount <=? 0 then limit
              else minInt limit (Z.quot (balance resources resource) amount))
           MaxInt cost.

(** [n] units are within the balance of every positively priced resource. *)
Definition affordable_count (cost resources : ledger) (n : Z) : Prop :=
  forall r a, cost !! r = Some a -> 0 < a -> n * a <= balance resources r.

(** [n] is the largest such count that is not negative. *)
Definition largest_count (cost resources : ledger) (n : Z) : Prop :=
  0 <= n /\ affordable_count cost resources n
  /\ forall n', affordable_count cost resources n' -> n' <= n.

(** Every entry of the ledger is a non-negative [int]. *)
Definition ledger_nonneg (resources : ledger) : Prop :=
  forall r, 0 <= balance resources r <= MaxInt.

(** The "m" key of the UI: [ui.game.BuyModeMax = !ui.game.BuyModeMax]. *)
Definition toggleBuyMode (g : GameState) : GameState :=
  {| Industries := Industries g; Resources := Resources g;
     Production := Production g; BuyModeMax := negb (BuyModeMax g);
     DevMode := DevMode g |}.

(** The states a run of the program passes through: built from a
    configuration that [LoadConfig] accepts, then changed by the operations
    of the engine (a load leaves its state behind whether it fails or not). *)
Inductive reachable : GameState -> Prop :=
  | reach_build clock cfg cfg' g :
      validateConfig cfg = inr cfg' -> BuildGame clock cfg' = inr g -> reachable g
  | reach_update now g : reachable g -> reachable (Update now g)
  | reach_start g i j now g' st :
      reachable g -> StartRun g i j now = Some (g', st) -> reachable g'
  | reach_buy g i j g' st :
      reachable g -> BuyWorker g i j = Some (g', st) -> reachable g'
  | reach_upgrade g i j g' st :
      reachable g -> UpgradeWorker g i j = Some (g', st) -> reachable g'
  | reach_toggle g : reachable g -> reachable (toggleBuyMode g)
  | reach_load g s g' err :
      reachable g -> applySnapshot g s = (g', err) -> reachable g'.


(** One component of [scaledCost]. *)
Definition scaled (amount : Z) (multiplier : float) (tier : Z) : Z :=
  int_of_float64
    (Ceil (float64_of_int amount
           * Pow multiplier (float64_of_int (maxInt (wrap (tier - 1)) 0)))%float).




(** ** Snapshots, read by key *)

(** The entry a snapshot holds under a key: the last one when the key is repeated. *)
Definition saved_under {A} (key : A -> string) (saved : list A) (k : string) : option A :=
  last (filter (fun x => key x = k) saved).

Definition worker_key (w : WorkerState) : string := wc_Key (ws_Definition w).

Definition restoreWorkers (lookup : gmap string saveWorker) (workers : list WorkerState)
  : list WorkerState :=
  map (fun w => match lookup !! worker_key w with
                | Some sw => restoreWorker sw w
                | None => w
                end) workers.

Definition restoreIndustries (lookup : gmap string saveIndustry)
    (industries : list IndustryState) : list IndustryState :=
  map (fun ind => match lookup !! is_Key ind with
                  | Some si => set_Workers (restoreWorkers (workerLookup (si_Workers si)) (is_Workers ind)) ind
                  | None => ind
                  end) industries.

Definition workers_found (lookup : gmap string saveWorker) (workers : list WorkerState) : Prop :=
  Forall (fun w => is_Some (lookup !! worker_key w)) workers.

Definition industries_found (lookup : gmap string saveIndustry)
    (industries : list IndustryState) : Prop :=
  Forall (fun ind => exists si, lookup !! is_Key ind = Some si
                       /\ workers_found (workerLookup (si_Workers si)) (is_Workers ind))
         industries.

(** What a snapshot must have for [applySnapshot] to accept it. *)
Definition structurally_valid (g : GameState) (s : saveGame) : Prop :=
  is_Some (sg_Resources s)
  /\ length (sg_Industries s) = length (Industries g)
  /\ length (sg_Production s) = length (Production g)
  /\ Forall (fun ind =>
               exists si, saved_under si_Key (sg_Industries s) (is_Key ind) = Some si
                 /\ Forall (fun w => is_Some (saved_under sw_Key (si_Workers si) (worker_key w)))
                           (is_Workers ind))
            (Industries g).

(** A worker as a save followed by a load leaves it: idle, and with the
    auto latch evaluated again on its tier. *)
Definition relatched (w : WorkerState) : WorkerState :=
  {| ws_Definition := ws_Definition w;
     ws_Owned := ws_Owned w;
     ws_Tier := ws_Tier w;
     ws_Running := false;
     ws_EndsAt := zeroTime;
     ws_Auto := ws_Auto w
                || ((wc_AutoTier (ws_Definition w) >? 0)
                    && (ws_Tier w >=? wc_AutoTier (ws_Definition w))) |}.

(** No two industries share a key, nor two workers of one industry. *)
Definition distinct_keys (g : GameState) : Prop :=
  NoDup (map is_Key (Industries g))
  /\ Forall (fun ind => NoDup (map worker_key (is_Workers ind))) (Industries g).

(** Save then load gives back every reachable state, idle. *)
Definition save_load_identity : Prop :=
  forall g savedAt, reachable g ->
    exists g',
      applySnapshot g (snapshot savedAt g) = (g', None)
      /\ (forall i j w, worker_at g i j = Some w ->
            exists w', worker_at g' i j = Some w'
              /\ ws_Owned w' = ws_Owned w /\ ws_Tier w' = ws_Tier w
              /\ ws_Auto w' = ws_Auto w
              /\ ws_Running w' = false /\ ws_EndsAt w' = zeroTime)
      /\ Resources g' = Resources g
      /\ map ps_NextAt (Production g') = map ps_NextAt (Production g)
      /\ BuyModeMax g' = BuyModeMax g
      /\ DevMode g' = DevMode g.

(** One upgrade, or one load that succeeds. *)
Inductive upgrade_or_load : GameState -> GameState -> Prop :=
  | step_upgrade g i j g' st :
      UpgradeWorker g i j = Some (g', st) -> upgrade_or_load g g'
  | step_load g s g' :
      applySnapshot g s = (g', None) -> upgrade_or_load g g'.

(** No sequence of upgrades and loads clears an auto flag. *)
Definition auto_flag_never_cleared : Prop :=
  forall g g' i j w w',
    rtc upgrade_or_load g g' ->
    worker_at g i j = Some w -> worker_at g' i j = Some w' ->
    ws_Auto w = true -> ws_Auto w' = true.

(** A load that reports an error leaves the state as it was. *)
Definition failed_load_changes_nothing : Prop :=
  forall g s g' err, applySnapshot g s = (g', Some err) -> g' = g.

(** [apply] called at each instant of a list in turn. *)
Definition applyEach (instants : list Z) (p : PassiveProductionState) (resources : ledger)
  : PassiveProductionState * ledger :=
  foldl (fun st now => apply now (fst st) (snd st)) (p, resources) instants.

(** The producer defined by [d] and built at [t0] has fired [c] times, all
    within the elapsed time [T], on the ledger that started as [resources0]. *)
Definition fired (d : PassiveProductionSpec) (t0 T : Z) (resources0 : ledger)
    (c : Z) (st : PassiveProductionState * ledger) : Prop :=
  0 <= c /\ c * pp_ProdRate d <= T
  /\ ps_Definition (fst st) = d
  /\ ps_NextAt (fst st) = t0 + (c + 1) * pp_ProdRate d
  /\ balance (snd st) (pp_Resource d)
     = wrap (balance resources0 (pp_Resource d) + c * pp_ProdQuant d)
  /\ (forall r, r <> pp_Resource d -> snd st !! r = resources0 !! r).

(** ** The clock at rest *)

(** A worker [Update] has nothing to do for at [now]: not due, and not an
    idle auto worker that owns something. *)
Definition worker_quiet (now : Z) (w : WorkerState) : Prop :=
  (ws_Running w = true -> now < ws_EndsAt w)
  /\ ws_Auto w && negb (ws_Running w) && (ws_Owned w >? 0) = false.

(** A producer that [apply] leaves alone at [now]. *)
Definition producer_quiet (now : Z) (p : PassiveProductionState) : Prop :=
  now < ps_NextAt p
  \/ pp_ProdRate (ps_Definition p) <= 0 \/ pp_ProdQuant (ps_Definition p) <= 0.

Definition quiet (now : Z) (g : GameState) : Prop :=
  Forall (producer_quiet now) (Production g)
  /\ Forall (fun ind => Forall (worker_quiet now) (is_Workers ind)) (Industries g).





(** ** Concrete games *)

Definition second : Z := 1000000000.

Definition mkWorker (key produces : string) (autoTier level : Z) (cost : ledger)
  : WorkerConfig :=
  {| wc_Key := key; wc_WorkerName := key; wc_Produces := produces;
     wc_ProdRate := second; wc_ProdQuant := 1; wc_UpgradeMult := 2;
     wc_AutoTier := autoTier; wc_Level := level; wc_Cost := Some cost |}.

Definition mkState (def : WorkerConfig) (owned tier : Z) (auto : bool) : WorkerState :=
  {| ws_Definition := def; ws_Owned := owned; ws_Tier := tier;
     ws_Running := false; ws_EndsAt := zeroTime; ws_Auto := auto |}.

Definition coal (workers : list WorkerConfig) : IndustryConfig :=
  {| ic_Key := "coal"; ic_Name := "Coal"; ic_Resource := "coal"; ic_Workers := workers |}.

(** A player holding the largest [int] of coins, one coin a miner. *)
Definition rich_config : GameConfig :=
  {| cfg_StartingResources := Some {[ "coins" := MaxInt ]};
     cfg_StartingProduction := [];
     cfg_Industries := [coal [mkWorker "miner" "coal" 0 1 ∅]] |}.

Definition rich_game : GameState :=
  {| Industries :=
       [ {| is_Key := "coal"; is_Name := "Coal"; is_Resource := "coal";
            is_Workers :=
              [mkState (mkWorker "miner" "coal" 0 1 {[ "coins" := 1 ]}) 1 1 false] |} ];
     Resources := {[ "coins" := MaxInt ]};
     Production := [];
     BuyModeMax := true;
     DevMode := false |}.

(** A miner at ten coins, a hundred coins in hand. *)
Definition shop_game : GameState :=
  {| Industries :=
       [ {| is_Key := "coal"; is_Name := "Coal"; is_Resource := "coal";
            is_Workers :=
              [mkState (mkWorker "miner" "coal" 0 10 {[ "coins" := 10 ]}) 1 1 false] |} ];
     Resources := {[ "coins" := 100 ]};
     Production := [];
     BuyModeMax := true;
     DevMode := false |}.

Definition one_industry (key resource : string) (workers : list WorkerState) : IndustryState :=
  {| is_Key := key; is_Name := key; is_Resource := resource; is_Workers := workers |}.

Definition game_of (industries : list IndustryState) (resources : ledger) : GameState :=
  {| Industries := industries; Resources := resources; Production := [];
     BuyModeMax := false; DevMode := false |}.

Definition save_of (industries : list saveIndustry) (resources : ledger) : saveGame :=
  {| sg_Industries := industries; sg_Resources := Some resources; sg_Production := [];
     sg_BuyModeMax := false; sg_DevMode := false; sg_SavedAt := 0; sg_Version := 1 |}.

(** A miner whose auto-unlock threshold is tier 1, its starting tier. *)
Definition eager_config : GameConfig :=
  {| cfg_StartingResources := Some {[ "coins" := 100 ]};
     cfg_StartingProduction := [];
     cfg_Industries := [coal [mkWorker "miner" "coal" 1 10 ∅]] |}.

Definition eager_game : GameState :=
  game_of [ {| is_Key := "coal"; is_Name := "Coal"; is_Resource := "coal";
               is_Workers := [mkState (mkWorker "miner" "coal" 1 10 {[ "coins" := 10 ]}) 1 1 false] |} ]
          {[ "coins" := 100 ]}.

(** Two workers under one key. *)
Definition twin_game : GameState :=
  game_of [ one_industry "coal" "coal"
              [mkState (mkWorker "miner" "coal" 0 10 {[ "coins" := 10 ]}) 1 1 false;
               mkState (mkWorker "miner" "coal" 0 10 {[ "coins" := 10 ]}) 0 1 false] ]
          {[ "coins" := 100 ]}.

(** A miner that unlocked auto at tier 3, and an older save of it. *)
Definition auto_game : GameState :=
  game_of [ one_industry "coal" "coal"
              [mkState (mkWorker "miner" "coal" 3 10 {[ "coins" := 10 ]}) 1 3 true] ]
          {[ "coins" := 100 ]}.

Definition old_save : saveGame :=
  save_of [ {| si_Key := "coal";
               si_Workers := [ {| sw_Key := "miner"; sw_Owned := 1; sw_Tier := 1; sw_Auto := false |} ] |} ]
          {[ "coins" := 100 ]}.

(** A save with a negative count, a tier of 0 and a negative balance. *)
Definition odd_save : saveGame :=
  save_of [ {| si_Key := "coal";
               si_Workers := [ {| sw_Key := "miner"; sw_Owned := -4; sw_Tier := 0; sw_Auto := false |} ] |} ]
          {[ "coins" := -7 ]}.

(** Two industries, and a save that lacks the worker of the second. *)
Definition two_industries : GameState :=
  game_of [ one_industry "coal" "coal"
              [mkState (mkWorker "miner" "coal" 0 10 {[ "coins" := 10 ]}) 1 1 false];
            one_industry "iron" "iron"
              [mkState (mkWorker "smelter" "iron" 0 10 {[ "coins" := 10 ]}) 1 1 false] ]
          {[ "coins" := 100 ]}.

Definition torn_save : saveGame :=
  save_of [ {| si_Key := "coal";
               si_Workers := [ {| sw_Key := "miner"; sw_Owned := 7; sw_Tier := 3; sw_Auto := false |} ] |};
            {| si_Key := "iron"; si_Workers := [] |} ]
          {[ "coins" := 5 ]}.

(** The state an operation leaves. *)
Definition after (result : option (GameState * Status)) (g : GameState) : GameState :=
  match result with Some (g', _) => g' | None => g end.

(** A foreman that restarts on his own from tier 2 and owns nothing yet,
    and a driller, listed after him, that produces foremen. *)
Definition chain_config : GameConfig :=
  {| cfg_StartingResources := Some {[ "coins" := 1000 ]};
     cfg_StartingProduction := [];
     cfg_Industries :=
       [coal [mkWorker "miner" "coal" 0 1 ∅;
              mkWorker "foreman" "coal" 2 1 ∅;
              mkWorker "driller" "foreman" 0 1 ∅]] |}.

Definition chain_start : GameState :=
  {| Industries :=
       [ {| is_Key := "coal"; is_Name := "Coal"; is_Resource := "coal";
            is_Workers :=
              [mkState (mkWorker "miner" "coal" 0 1 {[ "coins" := 1 ]}) 1 1 false;
               mkState (mkWorker "foreman" "coal" 2 1 {[ "coins" := 1 ]}) 0 1 false;
               mkState (mkWorker "driller" "foreman" 0 1 {[ "coins" := 1 ]}) 0 1 false] |} ];
     Resources := {[ "coins" := 1000 ]};
     Production := [];
     BuyModeMax := false;
     DevMode := false |}.

(** The driller is bought, the foreman upgraded to tier 2, the driller
    started at instant 0. *)
Definition chain_bought : GameState := after (BuyWorker chain_start 0 2) chain_start.
Definition chain_upgraded : GameState := after (UpgradeWorker chain_bought 0 1) chain_bought.
Definition chain_game : GameState := after (StartRun chain_upgraded 0 2 0) chain_upgraded.

(** A miner in the middle of a cycle that ends at one second. *)
Definition running_game : GameState :=
  {| Industries :=
       [ {| is_Key := "coal"; is_Name := "Coal"; is_Resource := "coal";
            is_Workers :=
              [ {| ws_Definition := mkWorker "miner" "coal" 0 10 {[ "coins" := 10 ]};
                   ws_Owned := 2; ws_Tier := 1; ws_Running := true;
                   ws_EndsAt := second; ws_Auto := false |} ] |} ];
     Resources := {[ "coins" := 100 ]};
     Production := [ {| ps_Definition := {| pp_Resource := "coins"; pp_ProdRate := second;
                                            pp_ProdQuant := 3 |};
                        ps_NextAt := second |} ];
     BuyModeMax := false;
     DevMode := false |}.

(** A miner loaded at tier 62, five coins in hand. *)
Definition veteran_game : GameState :=
  {| Industries :=
       [ {| is_Key := "coal"; is_Name := "Coal"; is_Resource := "coal";
            is_Workers :=
              [mkState (mkWorker "miner" "coal" 0 10 {[ "coins" := 10 ]}) 1 62 false] |} ];
     Resources := {[ "coins" := 5 ]};
     Production := [];
     BuyModeMax := false;
     DevMode := false |}.

(** * The callers of the engine *)

(** ** Files ([SaveToFile], [LoadFromFile]) *)

Inductive SaveError :=
  | SerializeSave                        (* "serialize save: %w" *)
  | WriteSave.                           (* "write save: %w" *)

Inductive LoadFileError :=
  | ReadSave                             (* "read save: %w" *)
  | ParseSave                            (* "parse save: %w" *)
  | ApplySave (err : LoadError).         (* "apply save: %w" *)

(** What [os.ReadFile] followed by [json.Unmarshal] makes of the save file. *)
Inductive FileContent :=
  | Unreadable
  | Unparsable
  | Parsed (snapshot : saveGame).

(** [g.SaveToFile(path)]: [store] is [json.MarshalIndent] followed by
    [os.WriteFile], [savedAt] the reading of [time.Now()]. The state is
    only read. *)
Definition SaveToFile (g : GameState) (savedAt : Z)
    (store : saveGame -> option SaveError) : option SaveError :=
  store (snapshot savedAt g).

(** [g.LoadFromFile(path)]: the state [g] is left in, and the error. *)
Definition LoadFromFile (g : GameState) (file : FileContent)
  : GameState * option LoadFileError :=
  match file with
  | Unreadable => (g, Some ReadSave)
  | Unparsable => (g, Some ParseSave)
  | Parsed snapshot =>
      let '(g', err) := applySnapshot g snapshot in (g', ApplySave <$> err)
  end.

(** ** The terminal front end ([src/unnamed/part_000]) *)

(** The text of the status line. *)
Inductive Message :=
  | NoMessage                            (* the empty string *)
  | Reported (status : Status)           (* what the engine answered *)
  | BuyModeLabel (max : bool)            (* "buy mode: 100%" / "buy mode: 1x" *)
  | NoManualWorkers                      (* "no manual workers available" *)
  | Disabled (action : string)           (* "%s disabled in developer mode" *)
  | SaveFailed (err : SaveError)         (* "save failed: %v" *)
  | SavedTo                              (* "saved to %s" *)
  | LoadFailed (err : LoadFileError)     (* "load failed: %v" *)
  | LoadedFrom.                          (* "loaded %s" *)

Record UI := {
  ui_game : GameState;
  ui_activeIndustry : Z;
  ui_selectedWorker : Z;
  ui_statusMessage : Message;
  ui_lastStatusAt : Z;
  ui_workerScroll : Z
}.

(** [&UI{screen: screen, game: game}] *)
Definition NewUI (game : GameState) : UI :=
  {| ui_game := game; ui_activeIndustry := 0; ui_selectedWorker := 0;
     ui_statusMessage := NoMessage; ui_lastStatusAt := zeroTime; ui_workerScroll := 0 |}.

Definition set_game (g : GameState) (ui : UI) : UI :=
  {| ui_game := g; ui_activeIndustry := ui_activeIndustry ui;
     ui_selectedWorker := ui_selectedWorker ui;
     ui_statusMessage := ui_statusMessage ui; ui_lastStatusAt := ui_lastStatusAt ui;
     ui_workerScroll := ui_workerScroll ui |}.

Definition set_selectedWorker (n : Z) (ui : UI) : UI :=
  {| ui_game := ui_game ui; ui_activeIndustry := ui_activeIndustry ui;
     ui_selectedWorker := n;
     ui_statusMessage := ui_statusMessage ui; ui_lastStatusAt := ui_lastStatusAt ui;
     ui_workerScroll := ui_workerScroll ui |}.

(** [ui.activeIndustry = n; ui.selectedWorker = 0; ui.workerScroll = 0] *)
Definition select_industry (n : Z) (ui : UI) : UI :=
  {| ui_game := ui_game ui; ui_activeIndustry := n; ui_selectedWorker := 0;
     ui_statusMessage := ui_statusMessage ui; ui_lastStatusAt := ui_lastStatusAt ui;
     ui_workerScroll := 0 |}.

(** A slice indexed by an [int]: out of range is a panic. *)
Definition index {A} (l : list A) (i : Z) : option A :=
  if i <? 0 then None else l !! Z.to_nat i.

(** [clamp(value, min, max)] *)
Definition clamp (value min max : Z) : Z :=
  if value <? min then min
  else if value >? max then max
  else value.

(** [truncate(text, width)]: [len(text)] counts bytes and [text[:n]] cuts
    at a byte, as the characters of a [string] here are bytes. *)
Definition truncate (text : string) (width : Z) : string :=
  if width <=? 0 then ""
  else if Z.of_nat (String.length text) <=? width then text
  else if width <=? 3 then String.substring 0 (Z.to_nat width) text
  else String.substring 0 (Z.to_nat (width - 3)) text +:+ "...".

(** [ui.setStatus(message)], [now] being its reading of [time.Now()]. *)
Definition setStatus (message : Message) (now : Z) (ui : UI) : UI :=
  {| ui_game := ui_game ui; ui_activeIndustry := ui_activeIndustry ui;
     ui_selectedWorker := ui_selectedWorker ui;
     ui_statusMessage := message; ui_lastStatusAt := now;
     ui_workerScroll := ui_workerScroll ui |}.

Definition buyModeLabel (ui : UI) : Message := BuyModeLabel (BuyModeMax (ui_game ui)).

(** [ui.shiftIndustry(delta)]; [%] is Go's truncated remainder. *)
Definition shiftIndustry (delta : Z) (ui : UI) : UI :=
  let count := Z.of_nat (length (Industries (ui_game ui))) in
  if count =? 0 then ui
  else select_industry (Z.rem (wrap (wrap (ui_activeIndustry ui + delta) + count)) count) ui.

(** [ui.shiftWorker(delta)]; [None] when the active industry is out of
    range. *)
Definition shiftWorker (delta : Z) (ui : UI) : option UI :=
  industry ← index (Industries (ui_game ui)) (ui_activeIndustry ui);
  let workers := is_Workers industry in
  if (length workers =? 0)%nat then Some ui
  else Some (set_selectedWorker
               (clamp (wrap (ui_selectedWorker ui + delta)) 0
                      (Z.of_nat (length workers) - 1)) ui).

(** The worker the loop of [runLowestAvailable] stops at. *)
Fixpoint lowestAvailable (workers : list WorkerState) (index : nat) : option nat :=
  match workers with
  | [] => None
  | worker :: rest =>
      if ws_Auto worker || ws_Running worker then lowestAvailable rest (S index)
      else if ws_Owned worker =? 0 then lowestAvailable rest (S index)
      else Some index
  end.

(** [ui.runLowestAvailable(now)] *)
Definition runLowestAvailable (now : Z) (ui : UI) : option (UI * Message) :=
  industry ← index (Industries (ui_game ui)) (ui_activeIndustry ui);
  match lowestAvailable (is_Workers industry) 0 with
  | Some workerIndex =>
      '(g, status) ← StartRun (ui_game ui) (Z.to_nat (ui_activeIndustry ui)) workerIndex now;
      Some (set_game g ui, Reported status)
  | None => Some (ui, NoManualWorkers)
  end.

(** [ui.guardDevMode(action, fn)] *)
Definition guardDevMode (action : string) (fn : UI -> UI * Message) (ui : UI)
  : UI * Message :=
  if DevMode (ui_game ui) then (ui, Disabled action) else fn ui.

(** [ui.saveGame()]; the name [saveGame] is the snapshot's type here. *)
Definition UI_saveGame (savedAt : Z) (store : saveGame -> option SaveError) (ui : UI)
  : UI * Message :=
  match SaveToFile (ui_game ui) savedAt store with
  | Some err => (ui, SaveFailed err)
  | None => (ui, SavedTo)
  end.

(** [ui.loadGame()]: a load that fails leaves the selection alone, and the
    game as [LoadFromFile] left it. *)
Definition loadGame (file : FileContent) (ui : UI) : UI * Message :=
  match LoadFromFile (ui_game ui) file with
  | (g, Some err) => (set_game g ui, LoadFailed err)
  | (g, None) =>
      (select_industry
         (clamp (ui_activeIndustry ui) 0 (Z.of_nat (length (Industries g)) - 1))
         (set_game g ui),
       LoadedFrom)
  end.

(** The engine called on the selected worker: a negative index panics. *)
Definition on_selection (ui : UI) (op : GameState -> nat -> nat -> option (GameState * Status))
  : option (UI * Message) :=
  if (ui_activeIndustry ui <? 0) || (ui_selectedWorker ui <? 0) then None
  else
    '(g, status) ← op (ui_game ui) (Z.to_nat (ui_activeIndustry ui))
                      (Z.to_nat (ui_selectedWorker ui));
    Some (set_game g ui, Reported status).

(** The keys [handleKey] tells apart, and the event it reads. *)
Inductive Key :=
  | KeyEscape | KeyCtrlC | KeyLeft | KeyRight | KeyUp | KeyDown
  | KeyOther.

Record EventKey := {
  ev_Key : Key;
  ev_Rune : Z                 (* a rune is an int32 code point *)
}.

Import Ascii.AsciiSyntax.

(** The code point of a character literal. *)
Definition rune (c : Ascii.ascii) : Z := Z.of_N (Ascii.N_of_ascii c).

Arguments rune c%_char_scope.

(** The world outside the program at one key press: the readings of
    [time.Now()] in the order they are taken, the save file as it would be
    read, and what writing it would answer. *)
Record World := {
  w_clock : nat -> Z;
  w_file : FileContent;
  w_store : saveGame -> option SaveError
}.

(** [ui.setStatus(message)] after an action that has read the clock
    [reads] times. *)
Definition report (w : World) (reads : nat) (r : option (UI * Message)) : option UI :=
  '(ui, message) ← r; Some (setStatus message (w_clock w reads) ui).

(** The inner [switch event.Rune()] of [handleKey]. *)
Definition handleRune (w : World) (r : Z) (ui : UI) : option UI :=
  if (r =? rune "a") then Some (shiftIndustry (-1) ui)
  else if (r =? rune "d") then Some (shiftIndustry 1 ui)
  else if (r =? rune "w") then shiftWorker (-1) ui
  else if (r =? rune "s") then shiftWorker 1 ui
  else if (r =? rune "b") then report w 0 (on_selection ui BuyWorker)
  else if (r =? rune "r") || (r =? rune " ") then
    report w 1 (on_selection ui (fun g i j => StartRun g i j (w_clock w 0)))
  else if (r =? rune "u") then report w 0 (on_selection ui UpgradeWorker)
  else if (r =? rune "m") then
    let ui' := set_game (toggleBuyMode (ui_game ui)) ui in
    report w 0 (Some (ui', buyModeLabel ui'))
  else if (r =? rune "q") then report w 1 (runLowestAvailable (w_clock w 0) ui)
  else if (r =? rune "t") then
    report w (if DevMode (ui_game ui) then 0 else 1)%nat
           (Some (guardDevMode "save" (UI_saveGame (w_clock w 0) (w_store w)) ui))
  else if (r =? rune "y") then
    report w 0 (Some (guardDevMode "load" (loadGame (w_file w)) ui))
  else Some ui.

(** [ui.handleKey(event)]: the state after the key, and whether to quit;
    [None] is a panic. *)
Definition handleKey (w : World) (event : EventKey) (ui : UI) : option (UI * bool) :=
  match ev_Key event with
  | KeyEscape | KeyCtrlC => Some (ui, true)
  | KeyLeft => Some (shiftIndustry (-1) ui, false)
  | KeyRight => Some (shiftIndustry 1 ui, false)
  | KeyUp => ui' ← shiftWorker (-1) ui; Some (ui', false)
  | KeyDown => ui' ← shiftWorker 1 ui; Some (ui', false)
  | KeyOther => ui' ← handleRune w (ev_Rune event) ui; Some (ui', false)
  end.

(** The timer branch of [Run]: [ui.game.Update(time.Now())]. *)
Definition tick (now : Z) (ui : UI) : UI := set_game (Update now (ui_game ui)) ui.


(** * Vocabulary of the further properties *)

(** ** What stays in place *)

(** What an operation on one worker must leave alone: the definitions and
    keys of the whole game. *)
Definition industry_shape (ind : IndustryState)
  : string * string * string * list WorkerConfig :=
  (is_Key ind, is_Name ind, is_Resource ind, ws_Definition <$> is_Workers ind).

Definition game_shape (g : GameState)
  : list (string * string * string * list WorkerConfig) * list PassiveProductionSpec :=
  (industry_shape <$> Industries g, ps_Definition <$> Production g).

(** Everything but the ledger and the worker at [(i, j)] is as it was. *)
Definition touches_only (i j : nat) (g g' : GameState) : Prop :=
  game_shape g' = game_shape g
  /\ Production g' = Production g
  /\ BuyModeMax g' = BuyModeMax g
  /\ DevMode g' = DevMode g
  /\ forall a b, (a, b) <> (i, j) -> worker_at g' a b = worker_at g a b.

(** Some producer or worker of [g] produces the resource [r]. *)
Definition names_resource (r : string) (g : GameState) : Prop :=
  Exists (fun p => pp_Resource (ps_Definition p) = r) (Production g)
  \/ Exists (fun ind => Exists (fun w => wc_Produces (ws_Definition w) = r) (is_Workers ind))
            (Industries g).

(** ** Accepted configurations *)

(** What [LoadConfig] asks of a worker, an industry, a passive producer and
    the configuration. *)
Definition worker_accepted (w : WorkerConfig) : Prop :=
  wc_Key w <> "" /\ wc_WorkerName w <> ""
  /\ 0 < wc_ProdRate w /\ 0 < wc_ProdQuant w
  /\ (wc_UpgradeMult w <=? 0)%float = false
  /\ 0 < wc_Level w /\ is_Some (wc_Cost w).

Definition industry_accepted (ic : IndustryConfig) : Prop :=
  ic_Key ic <> "" /\ ic_Resource ic <> "" /\ ic_Workers ic <> []
  /\ Forall worker_accepted (ic_Workers ic).

Definition production_accepted (p : PassiveProductionSpec) : Prop :=
  pp_Resource p <> "" /\ 0 < pp_ProdRate p /\ 0 < pp_ProdQuant p.

Definition config_accepted (cfg : GameConfig) : Prop :=
  cfg_Industries cfg <> []
  /\ Forall industry_accepted (cfg_Industries cfg)
  /\ Forall production_accepted (cfg_StartingProduction cfg).

(** The configuration [LoadConfig] returns: every worker priced in coins at
    its level. *)
Definition coinsPriced (w : WorkerConfig) : WorkerConfig :=
  {| wc_Key := wc_Key w; wc_WorkerName := wc_WorkerName w;
     wc_Produces := wc_Produces w; wc_ProdRate := wc_ProdRate w;
     wc_ProdQuant := wc_ProdQuant w; wc_UpgradeMult := wc_UpgradeMult w;
     wc_AutoTier := wc_AutoTier w; wc_Level := wc_Level w;
     wc_Cost := Some (<["coins" := wc_Level w]> (entries (wc_Cost w))) |}.

Definition pricedIndustry (ic : IndustryConfig) : IndustryConfig :=
  {| ic_Key := ic_Key ic; ic_Name := ic_Name ic; ic_Resource := ic_Resource ic;
     ic_Workers := coinsPriced <$> ic_Workers ic |}.

Definition priced (cfg : GameConfig) : GameConfig :=
  {| cfg_StartingResources := cfg_StartingResources cfg;
     cfg_StartingProduction := cfg_StartingProduction cfg;
     cfg_Industries := pricedIndustry <$> cfg_Industries cfg |}.

(** ** Built games *)

(** The keys and definitions a configuration gives a game. *)
Definition config_shape (cfg : GameConfig)
  : list (string * string * string * list WorkerConfig) * list PassiveProductionSpec :=
  ((fun ic => (ic_Key ic, ic_Name ic, ic_Resource ic, ic_Workers ic)) <$> cfg_Industries cfg,
   cfg_StartingProduction cfg).

(** A worker as [BuildGame] makes it at index [j] of its industry. *)
Definition fresh_worker (j : nat) (def : WorkerConfig) : WorkerState :=
  {| ws_Definition := def; ws_Owned := if Nat.eqb j 0 then 1 else 0; ws_Tier := 1;
     ws_Running := false; ws_EndsAt := zeroTime; ws_Auto := false |}.

(** The state is a game of some accepted configuration, as [LoadConfig]
    returns it. *)
Definition configured (g : GameState) : Prop :=
  exists cfg, config_accepted cfg
    /\ game_shape g = config_shape (priced cfg)
    /\ (length (cfg_Industries cfg) <= 5)%nat.

(** What every definition inside a running game satisfies. *)
Definition sound_worker (w : WorkerState) : Prop :=
  worker_accepted (ws_Definition w)
  /\ entries (wc_Cost (ws_Definition w)) !! "coins" = Some (wc_Level (ws_Definition w)).

Definition sound_industry (ind : IndustryState) : Prop :=
  is_Key ind <> "" /\ is_Resource ind <> "" /\ is_Workers ind <> []
  /\ Forall sound_worker (is_Workers ind).

Definition sound_definitions (g : GameState) : Prop :=
  (1 <= length (Industries g) <= 5)%nat
  /\ Forall sound_industry (Industries g)
  /\ Forall (fun p => production_accepted (ps_Definition p)) (Production g).

(** ** The selection of the front end *)

(** The selection points at a worker of the game. *)
Definition selection_valid (ui : UI) : Prop :=
  exists industry,
    index (Industries (ui_game ui)) (ui_activeIndustry ui) = Some industry
    /\ 0 <= ui_selectedWorker ui < Z.of_nat (length (is_Workers industry)).

(** The states of the front end in a run of the program: [main] builds the
    game from an accepted configuration, then [Run] alternates timer ticks
    and key presses until a key asks to quit. *)
Inductive ui_reachable : UI -> Prop :=
  | ui_start clock cfg cfg' g :
      validateConfig cfg = inr cfg' -> BuildGame clock cfg' = inr g ->
      ui_reachable (NewUI g)
  | ui_tick now ui : ui_reachable ui -> ui_reachable (tick now ui)
  | ui_key w event ui ui' :
      ui_reachable ui -> handleKey w event ui = Some (ui', false) -> ui_reachable ui'.

(** A worker [runLowestAvailable] passes over: automatic, in a cycle, or
    not owned. *)
Definition unavailable (w : WorkerState) : Prop :=
  ws_Auto w = true \/ ws_Running w = true \/ ws_Owned w = 0.

(** What a key press may do to the game: nothing, one of the engine's
    operations, the switch of the buy mode, or a load. *)
Inductive key_effect (w : World) (g : GameState) : GameState -> Prop :=
  | effect_none : key_effect w g g
  | effect_buy i j st g' : BuyWorker g i j = Some (g', st) -> key_effect w g g'
  | effect_upgrade i j st g' : UpgradeWorker g i j = Some (g', st) -> key_effect w g g'
  | effect_start i j st g' :
      StartRun g i j (w_clock w 0) = Some (g', st) -> key_effect w g g'
  | effect_toggle : key_effect w g (toggleBuyMode g)
  | effect_load s err g' :
      DevMode g = false -> w_file w = Parsed s -> applySnapshot g s = (g', err) ->
      key_effect w g g'.


(** ** Further concrete games and key presses *)

(** The shop with developer mode on. *)
Definition dev_game : GameState :=
  {| Industries := Industries shop_game; Resources := {[ "coins" := 3 ]};
     Production := []; BuyModeMax := true; DevMode := true |}.

(** A press of a letter key. *)
Definition press (c : Ascii.ascii) : EventKey := {| ev_Key := KeyOther; ev_Rune := rune c |}.

Arguments press c%_char_scope.

(** A world whose clock stands at [now], with [file] on disk and a disk
    that takes every write. *)
Definition world (now : Z) (file : FileContent) : World :=
  {| w_clock := fun _ => now; w_file := file; w_store := fun _ => None |}.

(** A save, made by hand, that switches developer mode on. *)
Definition dev_save : saveGame :=
  {| sg_Industries := [ {| si_Key := "coal";
                           si_Workers := [ {| sw_Key := "miner"; sw_Owned := 1; sw_Tier := 1;
                                              sw_Auto := false |} ] |} ];
     sg_Resources := Some {[ "coins" := 100 ]}; sg_Production := [];
     sg_BuyModeMax := false; sg_DevMode := true; sg_SavedAt := 0; sg_Version := 1 |}.

(** The front end a key press leaves. *)
Definition after_key (result : option (UI * bool)) (ui : UI) : UI :=
  match result with Some (ui', _) => ui' | None => ui end.

(** * Properties *)

(** ** Floating point, on concrete values *)

Example Pow_2_10 : Pow 2 10 = 1024%float.
Proof. vm_compute. reflexivity. Qed.

Example Pow_3_5 : Pow 3 5 = 243%float.
Proof. vm_compute. reflexivity. Qed.

Example Ceil_ex : Ceil 10.5 = 11%float /\ Ceil (-0.5) = neg_zero /\ Ceil 7 = 7%float.
Proof. vm_compute. auto. Qed.

Example int_of_float64_ex :
  int_of_float64 20 = 20 /\ int_of_float64 (-3.5) = -3 /\
  int_of_float64 0x1p+100 = MinInt.
Proof. vm_compute. auto. Qed.

(** ** Machine integers *)

Lemma wrap_id z : is_int z -> wrap z = z.
Proof.
  unfold is_int, MinInt, MaxInt, wrap. intros H.
  rewrite Z.mod_small; lia.
Qed.

Lemma wrap_is_int z : is_int (wrap z).
Proof.
  unfold is_int, MinInt, MaxInt, wrap.
  pose proof (Z.mod_pos_bound (z + 2 ^ 63) (2 ^ 64) ltac:(lia)). lia.
Qed.

Lemma wrap_add_l a b : wrap (wrap a + b) = wrap (a + b).
Proof.
  unfold wrap. f_equal.
  replace ((a + 2 ^ 63) mod 2 ^ 64 - 2 ^ 63 + b + 2 ^ 63)
    with ((a + 2 ^ 63) mod 2 ^ 64 + b) by lia.
  rewrite Zplus_mod_idemp_l. f_equal. lia.
Qed.

Lemma minInt_spec a b : minInt a b = Z.min a b.
Proof. unfold minInt. destruct (Z.ltb_spec a b); lia. Qed.

Lemma maxInt_spec a b : maxInt a b = Z.max a b.
Proof. unfold maxInt. rewrite Z.gtb_ltb. destruct (Z.ltb_spec b a); lia. Qed.

(** ** The loops over a cost table

    Go ranges over a map in no fixed order; each of the three loops gives
    the same result in any order, which is what the lemmas here state: the
    result in terms of lookups only. *)

Lemma charge_lookup (f : string -> Z -> Z) (cost resources : ledger) k :
  map_fold (fun resource amount res =>
              <[resource := wrap (balance res resource - f resource amount)]> res)
           resources cost !! k
  = match cost !! k with
    | Some a => Some (wrap (balance resources k - f k a))
    | None => resources !! k
    end.
Proof.
  revert k.
  apply (map_fold_weak_ind (fun acc (m : ledger) => forall k,
    acc !! k = match m !! k with
               | Some a => Some (wrap (balance resources k - f k a))
               | None => resources !! k
               end)).
  - intros k. by rewrite lookup_empty.
  - intros i x m acc Hi IH k.
    destruct (decide (i = k)) as [->|Hne].
    + rewrite !lookup_insert_eq. unfold balance at 1.
      rewrite IH, Hi. reflexivity.
    + rewrite !lookup_insert_ne by done. apply IH.
Qed.

Lemma debit_lookup cost count resources k :
  debit cost count resources !! k
  = match cost !! k with
    | Some a => Some (wrap (balance resources k - wrap (a * count)))
    | None => resources !! k
    end.
Proof. apply (charge_lookup (fun _ a => wrap (a * count))). Qed.

Lemma pay_lookup cost resources k :
  pay cost resources !! k
  = match cost !! k with
    | Some a => Some (wrap (balance resources k - a))
    | None => resources !! k
    end.
Proof. apply (charge_lookup (fun _ a => a)). Qed.

Lemma canAfford_spec cost resources :
  canAfford cost resources = true
  <-> forall r a, cost !! r = Some a -> a <= balance resources r.
Proof.
  unfold canAfford.
  apply (map_fold_weak_ind (fun ok (m : ledger) =>
    ok = true <-> forall r a, m !! r = Some a -> a <= balance resources r)).
  - split; [|done]. intros _ r a. by rewrite lookup_empty.
  - intros i x m ok Hi IH.
    destruct (Z.ltb_spec (balance resources i) x) as [Hlt|Hge].
    + split; [done|]. intros H.
      specialize (H i x (lookup_insert_eq _ _ _)). lia.
    + rewrite IH. split.
      * intros H r a. destruct (decide (i = r)) as [->|Hne].
        -- rewrite lookup_insert_eq. intros [= <-]. done.
        -- rewrite lookup_insert_ne by done. apply H.
      * intros H r a Hr. apply H. rewrite lookup_insert_ne; [done|].
        intros ->. congruence.
Qed.

Lemma maxAffordable_limit cost resources :
  maxAffordable cost resources
  = if affordLimit cost resources =? MaxInt then 0 else affordLimit cost resources.
Proof. reflexivity. Qed.

Lemma affordLimit_spec cost resources :
  let limit := affordLimit cost resources in
  limit <= MaxInt
  /\ (forall r a, cost !! r = Some a -> 0 < a ->
        limit <= Z.quot (balance resources r) a)
  /\ (limit = MaxInt
      \/ exists r a, cost !! r = Some a /\ 0 < a
                     /\ limit = Z.quot (balance resources r) a).
Proof.
  unfold affordLimit.
  apply (map_fold_weak_ind (fun limit (m : ledger) =>
    limit <= MaxInt
    /\ (forall r a, m !! r = Some a -> 0 < a ->
          limit <= Z.quot (balance resources r) a)
    /\ (limit = MaxInt
        \/ exists r a, m !! r = Some a /\ 0 < a
                       /\ limit = Z.quot (balance resources r) a))).
  - split; [lia|]. split; [|by left]. intros r a. by rewrite lookup_empty.
  - intros i x m limit Hi (Hle & Hall & Hex).
    assert (Hother : forall r a, <[i:=x]> m !! r = Some a ->
                       (r = i /\ a = x) \/ (r <> i /\ m !! r = Some a)).
    { intros r a. destruct (decide (i = r)) as [->|Hne].
      - rewrite lookup_insert_eq. intros [= <-]. by left.
      - rewrite lookup_insert_ne by done. right. split; [congruence|done]. }
    assert (Hkeep : forall r a, m !! r = Some a -> <[i:=x]> m !! r = Some a).
    { intros r a Hr. rewrite lookup_insert_ne; [done|]. congruence. }
    destruct (Z.leb_spec x 0) as [Hx|Hx].
    + split; [done|]. split.
      * intros r a Hr Ha. destruct (Hother r a Hr) as [[-> ->]|[_ Hm]]; [lia|eauto].
      * destruct Hex as [->|(r & a & Hr & Ha & ->)]; [by left|].
        right. exists r, a. eauto.
    + rewrite minInt_spec. split; [lia|]. split.
      * intros r a Hr Ha. destruct (Hother r a Hr) as [[-> ->]|[_ Hm]]; [lia|].
        specialize (Hall r a Hm Ha). lia.
      * destruct (Z.le_gt_cases limit (Z.quot (balance resources i) x)) as [Hmin|Hmin].
        -- rewrite Z.min_l by done.
           destruct Hex as [->|(r & a & Hr & Ha & ->)]; [by left|].
           right. exists r, a. eauto.
        -- rewrite Z.min_r by lia. right. exists i, x.
           rewrite lookup_insert_eq. done.
Qed.

Lemma scaledCost_lookup base m t r :
  scaledCost base m t !! r = (fun a => scaled a m t) <$> base !! r.
Proof.
  unfold scaledCost, scaled.
  apply (map_fold_weak_ind (fun (acc b : ledger) =>
    acc !! r
    = (fun a => int_of_float64
         (Ceil (float64_of_int a
                * Pow m (float64_of_int (maxInt (wrap (t - 1)) 0)))%float))
      <$> b !! r)).
  - by rewrite !lookup_empty.
  - intros i x b acc Hi IH. destruct (decide (i = r)) as [->|Hne].
    + by rewrite !lookup_insert_eq.
    + by rewrite !lookup_insert_ne.
Qed.


(** Below the sentinel, [maxAffordable] bounds every priced resource. *)
Lemma maxAffordable_positive_bound cost resources :
  0 < maxAffordable cost resources ->
  forall r a, cost !! r = Some a -> 0 < a ->
    maxAffordable cost resources <= Z.quot (balance resources r) a.
Proof.
  rewrite maxAffordable_limit. intros Hpos r a Hr Ha.
  destruct (affordLimit_spec cost resources) as (_ & Hall & _).
  destruct (Z.eqb_spec (affordLimit cost resources) MaxInt); [lia|]. eauto.
Qed.

Lemma maxAffordable_largest cost resources :
  (forall r a, cost !! r = Some a -> 0 < a -> 0 <= balance resources r) ->
  (exists r a, cost !! r = Some a /\ 0 < a
               /\ Z.quot (balance resources r) a < MaxInt) ->
  largest_count cost resources (maxAffordable cost resources).
Proof.
  intros Hbal (r0 & a0 & Hr0 & Ha0 & Hq0).
  rewrite maxAffordable_limit.
  destruct (affordLimit_spec cost resources) as (Hle & Hall & Hex).
  pose proof (Hall r0 a0 Hr0 Ha0) as Hlim.
  destruct (Z.eqb_spec (affordLimit cost resources) MaxInt) as [Heq|Hne]; [lia|].
  destruct Hex as [?|(r & a & Hr & Ha & Hlimit)]; [done|].
  pose proof (Hbal r a Hr Ha) as Hr_nonneg.
  assert (Hdiv : affordLimit cost resources = balance resources r / a).
  { rewrite Hlimit. apply Z.quot_div_nonneg; lia. }
  split; [|split].
  - rewrite Hdiv. apply Z.div_pos; lia.
  - intros r' a' Hr' Ha'.
    pose proof (Hall r' a' Hr' Ha') as H1.
    pose proof (Hbal r' a' Hr' Ha') as H2.
    rewrite Z.quot_div_nonneg in H1 by lia.
    pose proof (Z.mul_div_le (balance resources r') a' Ha'). nia.
  - intros n' Hn'. specialize (Hn' r a Hr Ha).
    rewrite Hdiv. apply Z.div_le_lower_bound; lia.
Qed.

(** ** Pointers into the state *)

Lemma worker_at_write g i j w w' :
  worker_at g i j = Some w -> worker_at (write_worker g i j w') i j = Some w'.
Proof.
  unfold worker_at, write_worker. simpl. intros H.
  destruct (Industries g !! i) as [ind|] eqn:Hi; [|done]. simpl in H.
  rewrite list_lookup_alter_eq, Hi. simpl.
  apply list_lookup_insert_eq. by eapply lookup_lt_Some.
Qed.

Lemma worker_at_write_other g i j w' a b :
  (a, b) <> (i, j) -> worker_at (write_worker g i j w') a b = worker_at g a b.
Proof.
  unfold worker_at, write_worker. simpl. intros H.
  destruct (decide (a = i)) as [->|Hne].
  - rewrite list_lookup_alter_eq. destruct (Industries g !! i); [|done]. simpl.
    apply list_lookup_insert_ne. congruence.
  - by rewrite list_lookup_alter_ne.
Qed.

(** ** Buying *)


Lemma BuyWorker_max g i j w :
  worker_at g i j = Some w -> DevMode g = false -> BuyModeMax g = true ->
  let cost := entries (wc_Cost (ws_Definition w)) in
  let n := maxAffordable cost (Resources g) in
  BuyWorker g i j
  = if n <=? 0 then Some (g, CannotAfford)
    else Some (write_worker (set_Resources (debit cost n (Resources g)) g) i j
                 (set_Owned (wrap (ws_Owned w + n)) w),
               Bought n).
Proof.
  intros Hw Hdev Hmax cost n. unfold BuyWorker, buyCount.
  rewrite Hw. cbn [mbind option_bind]. rewrite Hdev, Hmax.
  fold cost. fold n. by destruct (n <=? 0).
Qed.

Lemma BuyWorker_single g i j w :
  worker_at g i j = Some w -> DevMode g = false -> BuyModeMax g = false ->
  let cost := entries (wc_Cost (ws_Definition w)) in
  BuyWorker g i j
  = if canAfford cost (Resources g)
    then Some (write_worker (set_Resources (debit cost 1 (Resources g)) g) i j
                 (set_Owned (wrap (ws_Owned w + 1)) w),
               Bought 1)
    else Some (g, CannotAfford).
Proof.
  intros Hw Hdev Hmax cost. unfold BuyWorker, buyCount.
  rewrite Hw. cbn [mbind option_bind]. rewrite Hdev, Hmax.
  fold cost. by destruct (canAfford cost (Resources g)).
Qed.

(** A refused purchase or upgrade changes nothing. *)
Lemma BuyWorker_refusal g i j g' :
  BuyWorker g i j = Some (g', CannotAfford) -> g' = g.
Proof.
  unfold BuyWorker. destruct (worker_at g i j) as [w|]; [|done].
  cbn [mbind option_bind]. destruct (buyCount _ _) as [n|]; [|congruence].
  destruct (n <=? 0); congruence.
Qed.

Lemma UpgradeWorker_refusal g i j g' :
  UpgradeWorker g i j = Some (g', CannotAffordUpgrade) -> g' = g.
Proof.
  unfold UpgradeWorker. destruct (worker_at g i j) as [w|]; [|done].
  cbn [mbind option_bind]. destruct (_ && _); congruence.
Qed.

(** Paying [n] units that are within every balance keeps a non-negative
    ledger non-negative. *)
Lemma debit_nonneg cost n resources :
  ledger_nonneg resources ->
  0 <= n ->
  (forall r a, cost !! r = Some a -> 0 <= a /\ a * n <= balance resources r) ->
  ledger_nonneg (debit cost n resources).
Proof.
  intros Hres Hn Hcost r. unfold balance. rewrite debit_lookup.
  destruct (cost !! r) as [a|] eqn:Hr; [|apply Hres].
  cbn. destruct (Hcost r a Hr) as [Ha Hle]. pose proof (Hres r) as Hb.
  rewrite (wrap_id (a * n)) by (unfold is_int, MinInt, MaxInt in *; nia).
  rewrite wrap_id by (unfold is_int, MinInt, MaxInt in *; nia).
  unfold MaxInt in *. nia.
Qed.

Lemma pay_nonneg cost resources :
  ledger_nonneg resources ->
  (forall r a, cost !! r = Some a -> 0 <= a <= balance resources r) ->
  ledger_nonneg (pay cost resources).
Proof.
  intros Hres Hcost r. unfold balance. rewrite pay_lookup.
  destruct (cost !! r) as [a|] eqn:Hr; [|apply Hres].
  cbn. pose proof (Hcost r a Hr). pose proof (Hres r) as Hb.
  rewrite wrap_id by (unfold is_int, MinInt, MaxInt in *; lia).
  unfold MaxInt in *. lia.
Qed.

(** Away from the sentinel of [maxAffordable], a purchase outside developer
    mode is refused exactly when a priced resource is short, and a purchase
    that goes through leaves no entry negative. *)
Lemma BuyWorker_refused_iff g i j w :
  worker_at g i j = Some w -> DevMode g = false ->
  let cost := entries (wc_Cost (ws_Definition w)) in
  ledger_nonneg (Resources g) ->
  (forall r a, cost !! r = Some a -> 0 < a) ->
  (BuyModeMax g = true ->
   exists r a, cost !! r = Some a /\ Z.quot (balance (Resources g) r) a < MaxInt) ->
  (exists g', BuyWorker g i j = Some (g', CannotAfford))
  <-> exists r a, cost !! r = Some a /\ balance (Resources g) r < a.
Proof.
  intros Hw Hdev cost Hres Hpos Hsent.
  destruct (BuyModeMax g) eqn:Hmode.
  - rewrite (BuyWorker_max g i j w Hw Hdev Hmode). fold cost.
    destruct (Hsent eq_refl) as (r0 & a0 & Hr0 & Hq0).
    pose proof (maxAffordable_largest cost (Resources g)
                  ltac:(intros r a _ _; apply Hres)
                  ltac:(exists r0, a0; eauto)) as (Hn0 & Haff & Hmax).
    destruct (Z.leb_spec (maxAffordable cost (Resources g)) 0) as [Hle|Hgt].
    + split; [intros _|eauto].
      destruct (decide (affordable_count cost (Resources g) 1)) as [H1|H1].
      * specialize (Hmax 1 H1). lia.
      * apply dec_stable. intros Hnone. apply H1. intros r a Hr Ha.
        destruct (Z.le_gt_cases (1 * a) (balance (Resources g) r)); [done|].
        exfalso. apply Hnone. exists r, a. split; [done|lia].
    + split; [intros [g' [=]]|].
      intros (r & a & Hr & Hlt). specialize (Haff r a Hr (Hpos r a Hr)).
      pose proof (Hpos r a Hr). nia.
  - rewrite (BuyWorker_single g i j w Hw Hdev Hmode). fold cost.
    destruct (canAfford cost (Resources g)) eqn:Haff.
    + split; [intros [g' [=]]|].
      intros (r & a & Hr & Hlt).
      pose proof (proj1 (canAfford_spec _ _) Haff r a Hr). lia.
    + split; [intros _|eauto].
      apply dec_stable. intros Hnone.
      assert (canAfford cost (Resources g) = true); [|congruence].
      apply canAfford_spec. intros r a Hr.
      destruct (Z.le_gt_cases a (balance (Resources g) r)); [done|].
      exfalso. apply Hnone. eauto.
Qed.

Lemma BuyWorker_keeps_ledger_nonneg g i j w g' n :
  worker_at g i j = Some w -> DevMode g = false ->
  ledger_nonneg (Resources g) ->
  (forall r a, entries (wc_Cost (ws_Definition w)) !! r = Some a -> 0 < a) ->
  BuyWorker g i j = Some (g', Bought n) ->
  ledger_nonneg (Resources g').
Proof.
  intros Hw Hdev Hres Hpos. destruct (BuyModeMax g) eqn:Hmode.
  - rewrite (BuyWorker_max g i j w Hw Hdev Hmode).
    destruct (Z.leb_spec (maxAffordable (entries (wc_Cost (ws_Definition w))) (Resources g)) 0)
      as [|Hn]; [done|].
    intros [= <- <-]. cbn [Resources write_worker set_Industries set_Resources].
    apply debit_nonneg; [done|lia|]. intros r a Hr.
    pose proof (Hpos r a Hr) as Ha. split; [lia|].
    pose proof (maxAffordable_positive_bound _ _ Hn r a Hr Ha) as Hb.
    destruct (Hres r) as [Hr0 _].
    rewrite Z.quot_div_nonneg in Hb by lia.
    pose proof (Z.mul_div_le (balance (Resources g) r) a Ha). nia.
  - rewrite (BuyWorker_single g i j w Hw Hdev Hmode).
    destruct (canAfford _ _) eqn:Haff; [|done].
    intros [= <- <-]. cbn [Resources write_worker set_Industries set_Resources].
    apply debit_nonneg; [done|lia|]. intros r a Hr.
    pose proof (Hpos r a Hr). pose proof (proj1 (canAfford_spec _ _) Haff r a Hr). lia.
Qed.

(** An upgrade outside developer mode is refused exactly when the scaled
    cost exceeds a balance, and one that goes through leaves no entry
    negative when the scaled amounts themselves are not negative. *)
Lemma UpgradeWorker_outcome g i j w :
  worker_at g i j = Some w -> DevMode g = false ->
  let cost := scaledCost (entries (wc_Cost (ws_Definition w)))
                         (wc_UpgradeMult (ws_Definition w)) (ws_Tier w) in
  ((exists g', UpgradeWorker g i j = Some (g', CannotAffordUpgrade))
   <-> exists r a, cost !! r = Some a /\ balance (Resources g) r < a)
  /\ (forall g', UpgradeWorker g i j = Some (g', Upgraded) ->
        ledger_nonneg (Resources g) ->
        (forall r a, cost !! r = Some a -> 0 <= a) ->
        ledger_nonneg (Resources g')).
Proof.
  intros Hw Hdev cost. unfold UpgradeWorker. rewrite Hw. cbn [mbind option_bind].
  rewrite Hdev. cbn [negb andb]. fold cost.
  destruct (canAfford cost (Resources g)) eqn:Haff; cbn [negb].
  - split.
    + split; [intros [g' [=]]|].
      intros (r & a & Hr & Hlt).
      pose proof (proj1 (canAfford_spec _ _) Haff r a Hr). lia.
    + intros g' [= <-] Hres Hpos.
      cbn [Resources write_worker set_Industries set_Resources].
      apply pay_nonneg; [done|]. intros r a Hr.
      pose proof (Hpos r a Hr). pose proof (proj1 (canAfford_spec _ _) Haff r a Hr). lia.
  - split; [|done]. split; [intros _|eauto].
    apply dec_stable. intros Hnone.
    assert (canAfford cost (Resources g) = true); [|congruence].
    apply canAfford_spec. intros r a Hr.
    destruct (Z.le_gt_cases a (balance (Resources g) r)); [done|].
    exfalso. apply Hnone. eauto.
Qed.
(** Where the scaled amount leaves the range of [int] the conversion is the
    platform's: with the value amd64 gives, the cost at tier 62 is [MinInt],
    the upgrade is granted and the balance wraps below zero. *)
Example upgrade_beyond_int_range :
  scaledCost {[ "coins" := 10 ]} 2 62 = {[ "coins" := MinInt ]}
  /\ (snd <$> UpgradeWorker veteran_game 0 0) = Some Upgraded
  /\ (Resources <$> (fst <$> UpgradeWorker veteran_game 0 0)) ≫= (.!! "coins")
     = Some (5 - 2 ^ 63).
Proof. repeat split; vm_compute; reflexivity. Qed.

Lemma rich_game_reachable : reachable rich_game.
Proof.
  apply (reach_toggle
    {| Industries := Industries rich_game; Resources := Resources rich_game;
       Production := []; BuyModeMax := false; DevMode := false |}).
  apply (reach_build (fun _ => 0) rich_config
    {| cfg_StartingResources := Some {[ "coins" := MaxInt ]};
       cfg_StartingProduction := [];
       cfg_Industries := [coal [mkWorker "miner" "coal" 0 1 {[ "coins" := 1 ]}]] |});
    reflexivity.
Qed.

(** C3 (outside developer mode a purchase is refused exactly when a
    resource is short): the code departs from it in buy-max mode. With one
    coin a miner and [MaxInt] coins in hand no resource is short, the ledger
    has no negative entry, the state is one a run reaches, and [BuyWorker]
    answers "cannot afford": [maxAffordable] takes the true limit [MaxInt]
    for its own "no priced resource" sentinel and returns 0. *)
Theorem buy_max_refuses_at_MaxInt :
  reachable rich_game
  /\ DevMode rich_game = false
  /\ ledger_nonneg (Resources rich_game)
  /\ (forall r a, ({[ "coins" := 1 ]} : ledger) !! r = Some a ->
        a <= balance (Resources rich_game) r)
  /\ canAfford {[ "coins" := 1 ]} (Resources rich_game) = true
  /\ maxAffordable {[ "coins" := 1 ]} (Resources rich_game) = 0
  /\ BuyWorker rich_game 0 0 = Some (rich_game, CannotAfford).
Proof.
  split; [apply rich_game_reachable|]. split; [reflexivity|].
  split.
  { intros r. unfold balance. cbn [Resources rich_game].
    destruct (decide (r = "coins")) as [->|Hne].
    - rewrite lookup_singleton_eq. cbn. unfold MaxInt. lia.
    - rewrite lookup_singleton_ne by done. cbn. unfold MaxInt. lia. }
  split.
  { intros r a Hr. apply lookup_singleton_Some in Hr as [<- <-].
    vm_compute. discriminate. }
  split; [vm_compute; reflexivity|].
  split; vm_compute; reflexivity.
Qed.






(** ** Scaling *)







(** ** Loading a snapshot *)

Section Lookup.
Context {A : Type} (key : A -> string).

Lemma keyed_lookup (saved : list A) k :
  foldl (fun lookup x => <[key x := x]> lookup) (∅ : gmap string A) saved !! k
  = saved_under key saved k.
Proof.
  unfold saved_under.
  induction saved as [|x saved IH] using rev_ind.
  - cbn. apply lookup_empty.
  - rewrite foldl_app, filter_app. cbn [foldl].
    destruct (decide (key x = k)) as [Heq|Hne].
    + rewrite Heq, lookup_insert_eq.
      rewrite filter_cons_True by done. rewrite filter_nil.
      by rewrite last_snoc.
    + rewrite lookup_insert_ne by done.
      rewrite filter_cons_False by done. rewrite filter_nil, app_nil_r. apply IH.
Qed.

Lemma filter_key_unique (saved : list A) x :
  NoDup (map key saved) -> x ∈ saved ->
  filter (fun z => key z = key x) saved = [x].
Proof.
  induction saved as [|y saved IH]; intros Hnd Hx.
  - by apply elem_of_nil in Hx.
  - cbn [map] in Hnd. apply NoDup_cons in Hnd as [Hy Hnd].
    assert (Hin : forall z, z ∈ saved -> key z ≠ key y).
    { intros z Hz Heq. apply Hy. rewrite <- Heq.
      apply list_elem_of_In, in_map, list_elem_of_In, Hz. }
    apply elem_of_cons in Hx as [->|Hx].
    + rewrite filter_cons_True by done. f_equal.
      destruct (filter (fun z => key z = key y) saved) as [|z l] eqn:Hf; [done|].
      assert (Hz : z ∈ filter (fun z => key z = key y) saved) by (rewrite Hf; left).
      apply list_elem_of_filter in Hz as [Hk Hz]. by destruct (Hin z Hz).
    + rewrite filter_cons_False; [by apply IH|].
      intros Heq. by destruct (Hin x Hx).
Qed.

Lemma saved_under_unique (saved : list A) x :
  NoDup (map key saved) -> x ∈ saved -> saved_under key saved (key x) = Some x.
Proof.
  intros Hnd Hx. unfold saved_under. by rewrite filter_key_unique.
Qed.
End Lookup.

Lemma workerLookup_spec saved k : workerLookup saved !! k = saved_under sw_Key saved k.
Proof. apply (keyed_lookup sw_Key). Qed.

Lemma industryLookup_spec saved k : industryLookup saved !! k = saved_under si_Key saved k.
Proof. apply (keyed_lookup si_Key). Qed.

Lemma applyWorkers_found lookup workers :
  workers_found lookup workers ->
  applyWorkers lookup workers = (restoreWorkers lookup workers, None).
Proof.
  induction 1 as [|w workers [sw Hsw] _ IH]; [done|].
  cbn [applyWorkers restoreWorkers map]. unfold worker_key in *.
  rewrite Hsw, IH. reflexivity.
Qed.

Lemma applyWorkers_error lookup workers :
  snd (applyWorkers lookup workers) = None -> workers_found lookup workers.
Proof.
  induction workers as [|w workers IH]; [constructor|].
  cbn [applyWorkers]. destruct (lookup !! wc_Key (ws_Definition w)) as [sw|] eqn:Hsw; [|done].
  destruct (applyWorkers lookup workers) as [rest' err]. cbn. intros ->.
  constructor; [by exists sw|]. by apply IH.
Qed.

Lemma applyIndustries_found lookup industries :
  industries_found lookup industries ->
  applyIndustries lookup industries = (restoreIndustries lookup industries, None).
Proof.
  induction 1 as [|ind industries (si & Hsi & Hws) _ IH]; [done|].
  cbn [applyIndustries restoreIndustries map].
  rewrite Hsi, (applyWorkers_found _ _ Hws), IH. reflexivity.
Qed.

Lemma applyIndustries_error lookup industries :
  snd (applyIndustries lookup industries) = None -> industries_found lookup industries.
Proof.
  induction industries as [|ind industries IH]; [constructor|].
  cbn [applyIndustries]. destruct (lookup !! is_Key ind) as [si|] eqn:Hsi; [|done].
  destruct (applyWorkers _ (is_Workers ind)) as [ws' [e|]] eqn:Hws; [done|].
  destruct (applyIndustries lookup industries) as [rest' err]. cbn. intros ->.
  constructor; [|by apply IH].
  exists si. split; [done|]. apply applyWorkers_error. by rewrite Hws.
Qed.

(** A load that fails leaves the ledger, the producers and both flags alone. *)
Lemma applySnapshot_error_keeps g s g' e :
  applySnapshot g s = (g', Some e) ->
  Resources g' = Resources g /\ Production g' = Production g
  /\ BuyModeMax g' = BuyModeMax g /\ DevMode g' = DevMode g.
Proof.
  unfold applySnapshot. destruct (sg_Resources s); [|by intros [= <- _]].
  destruct (negb _); [by intros [= <- _]|].
  destruct (negb _); [by intros [= <- _]|].
  destruct (applyIndustries _ _) as [inds [e'|]]; [|done].
  by intros [= <- _].
Qed.

Lemma industries_found_spec saved industries :
  industries_found (industryLookup saved) industries
  <-> Forall (fun ind =>
               exists si, saved_under si_Key saved (is_Key ind) = Some si
                 /\ Forall (fun w => is_Some (saved_under sw_Key (si_Workers si) (worker_key w)))
                           (is_Workers ind))
            industries.
Proof.
  unfold industries_found, workers_found. apply Forall_iff. intros ind.
  rewrite industryLookup_spec. split; intros (si & Hsi & Hws); exists si; (split; [done|]).
  - eapply Forall_impl; [exact Hws|]. intros w. cbn beta. by rewrite workerLookup_spec.
  - eapply Forall_impl; [exact Hws|]. intros w. cbn beta. by rewrite workerLookup_spec.
Qed.

Lemma applySnapshot_valid g s resources :
  sg_Resources s = Some resources ->
  length (sg_Industries s) = length (Industries g) ->
  length (sg_Production s) = length (Production g) ->
  industries_found (industryLookup (sg_Industries s)) (Industries g) ->
  applySnapshot g s
  = ({| Industries := restoreIndustries (industryLookup (sg_Industries s)) (Industries g);
        Resources := resources;
        Production := restoreProduction (Production g) (sg_Production s);
        BuyModeMax := sg_BuyModeMax s;
        DevMode := sg_DevMode s |}, None).
Proof.
  intros Hres Hli Hlp Hfound. unfold applySnapshot.
  rewrite Hres, Hli, Hlp, !Nat.eqb_refl. cbn [negb].
  by rewrite (applyIndustries_found _ _ Hfound).
Qed.

Lemma applySnapshot_success g s :
  snd (applySnapshot g s) = None ->
  exists resources,
    sg_Resources s = Some resources
    /\ length (sg_Industries s) = length (Industries g)
    /\ length (sg_Production s) = length (Production g)
    /\ industries_found (industryLookup (sg_Industries s)) (Industries g).
Proof.
  unfold applySnapshot. destruct (sg_Resources s) as [resources|]; [|done].
  destruct (Nat.eqb_spec (length (sg_Industries s)) (length (Industries g))); [|done].
  destruct (Nat.eqb_spec (length (sg_Production s)) (length (Production g))); [|done].
  cbn [negb]. destruct (applyIndustries _ _) as [inds [err|]] eqn:Happly; [done|].
  intros _. exists resources. repeat split; try done.
  apply applyIndustries_error. by rewrite Happly.
Qed.

(** What a load that succeeds makes of the worker at a position. *)
Lemma applySnapshot_worker g s g' i j ind w :
  applySnapshot g s = (g', None) ->
  Industries g !! i = Some ind -> is_Workers ind !! j = Some w ->
  exists si sw,
    saved_under si_Key (sg_Industries s) (is_Key ind) = Some si
    /\ saved_under sw_Key (si_Workers si) (worker_key w) = Some sw
    /\ worker_at g' i j = Some (restoreWorker sw w).
Proof.
  intros Happly Hi Hj.
  destruct (applySnapshot_success g s) as (resources & Hres & Hli & Hlp & Hfound).
  { by rewrite Happly. }
  rewrite (applySnapshot_valid g s resources Hres Hli Hlp Hfound) in Happly.
  injection Happly as <-.
  unfold industries_found in Hfound. rewrite Forall_lookup in Hfound.
  destruct (Hfound i ind Hi) as (si & Hsi & Hws).
  unfold workers_found in Hws. rewrite Forall_lookup in Hws.
  destruct (Hws j w Hj) as [sw Hsw].
  exists si, sw. rewrite <- industryLookup_spec, <- workerLookup_spec.
  split; [done|]. split; [done|].
  unfold worker_at, restoreIndustries. cbn [Industries].
  change (map ?f ?l) with (f <$> l).
  rewrite list_lookup_fmap, Hi. cbn [fmap option_fmap option_map mbind option_bind].
  rewrite Hsi. cbn [is_Workers set_Workers]. unfold restoreWorkers.
  change (map ?f ?l) with (f <$> l).
  rewrite list_lookup_fmap, Hj. cbn. by rewrite Hsw.
Qed.

(** C10: [applySnapshot] succeeds if and only if the snapshot has a
    resource map, as many industries and as many passive-production entries
    as the live state, an entry for every live industry key and, in it, an
    entry for every live worker key. It validates no value: on success the
    ledger is the snapshot's map and every worker has the owned-count and
    the tier its entry records, whatever they are (negative counts, tiers
    below 1). *)
Theorem applySnapshot_validation g s :
  (snd (applySnapshot g s) = None <-> structurally_valid g s)
  /\ (structurally_valid g s ->
      sg_Resources s = Some (Resources (fst (applySnapshot g s)))
      /\ forall i j ind w,
           Industries g !! i = Some ind -> is_Workers ind !! j = Some w ->
           exists si sw w',
             saved_under si_Key (sg_Industries s) (is_Key ind) = Some si
             /\ saved_under sw_Key (si_Workers si) (worker_key w) = Some sw
             /\ worker_at (fst (applySnapshot g s)) i j = Some w'
             /\ ws_Owned w' = sw_Owned sw
             /\ ws_Tier w' = sw_Tier sw).
Proof.
  assert (Hvalid : structurally_valid g s ->
            exists resources, applySnapshot g s
              = ({| Industries := restoreIndustries (industryLookup (sg_Industries s)) (Industries g);
                    Resources := resources;
                    Production := restoreProduction (Production g) (sg_Production s);
                    BuyModeMax := sg_BuyModeMax s;
                    DevMode := sg_DevMode s |}, None)
              /\ sg_Resources s = Some resources).
  { intros ([resources Hres] & Hli & Hlp & Hfound). exists resources.
    split; [|done]. apply applySnapshot_valid; try done.
    by apply industries_found_spec. }
  split; [split|].
  - intros Hok. destruct (applySnapshot_success g s Hok) as (resources & Hres & Hli & Hlp & Hfound).
    split; [by exists resources|]. split; [done|]. split; [done|].
    by apply industries_found_spec.
  - intros Hv. destruct (Hvalid Hv) as (resources & -> & _). reflexivity.
  - intros Hv. destruct (Hvalid Hv) as (resources & Happly & Hres).
    split; [by rewrite Happly|].
    intros i j ind w Hi Hj.
    destruct (applySnapshot_worker g s _ i j ind w Happly Hi Hj) as (si & sw & Hsi & Hsw & Hw).
    exists si, sw, (restoreWorker sw w). rewrite Happly. by repeat split.
Qed.

Lemma applySnapshot_validation_witness :
  snd (applySnapshot shop_game odd_save) = None
  /\ Resources (fst (applySnapshot shop_game odd_save)) !! "coins" = Some (-7)
  /\ exists w', worker_at (fst (applySnapshot shop_game odd_save)) 0 0 = Some w'
                /\ ws_Owned w' = -4 /\ ws_Tier w' = 0.
Proof.
  destruct (applySnapshot_validation shop_game odd_save) as [Hiff Hvalid].
  assert (Hv : structurally_valid shop_game odd_save).
  { split; [by eexists|]. split; [reflexivity|]. split; [reflexivity|].
    constructor; [|constructor]. eexists. split; [reflexivity|].
    constructor; [by eexists|constructor]. }
  split; [by apply Hiff|].
  destruct (Hvalid Hv) as [Hres Hworkers].
  split.
  - assert (Hcoins : sg_Resources odd_save ≫= (.!! "coins") = Some (-7)) by reflexivity.
    rewrite Hres in Hcoins. exact Hcoins.
  - destruct (Hworkers 0%nat 0%nat _ _ eq_refl eq_refl)
      as (si & sw & w' & Hsi & Hsw & Hw' & Howned & Htier).
    exists w'. split; [exact Hw'|].
    vm_compute in Hsi. injection Hsi as <-.
    vm_compute in Hsw. injection Hsw as <-.
    by split.
Defined.

Lemma restoreProduction_snapshot production :
  restoreProduction production
    (map (fun entry => {| sp_NextAt := ps_NextAt entry |}) production)
  = production.
Proof.
  induction production as [|[d n] production IH]; [done|].
  cbn. by rewrite IH.
Qed.

Lemma applyWorkers_snapshot lookup workers :
  Forall (fun w => lookup !! worker_key w = Some (snapshotWorker w)) workers ->
  applyWorkers lookup workers = (map relatched workers, None).
Proof.
  induction 1 as [|w workers Hw _ IH]; [done|].
  cbn [applyWorkers map]. unfold worker_key in Hw. by rewrite Hw, IH.
Qed.

Lemma workerLookup_snapshot workers :
  NoDup (map worker_key workers) ->
  Forall (fun w => workerLookup (map snapshotWorker workers) !! worker_key w
                   = Some (snapshotWorker w)) workers.
Proof.
  intros Hnd. apply Forall_forall. intros w Hw.
  rewrite workerLookup_spec.
  apply (saved_under_unique sw_Key (map snapshotWorker workers) (snapshotWorker w)).
  - by rewrite map_map.
  - apply list_elem_of_In, in_map, list_elem_of_In, Hw.
Qed.

Lemma applyIndustries_snapshot lookup industries :
  Forall (fun ind => lookup !! is_Key ind = Some (snapshotIndustry ind)
                     /\ NoDup (map worker_key (is_Workers ind))) industries ->
  applyIndustries lookup industries
  = (map (fun ind => set_Workers (map relatched (is_Workers ind)) ind) industries, None).
Proof.
  induction 1 as [|ind industries [Hind Hnd] _ IH]; [done|].
  cbn [applyIndustries map]. rewrite Hind. cbn [si_Workers snapshotIndustry].
  rewrite (applyWorkers_snapshot _ _ (workerLookup_snapshot _ Hnd)).
  by rewrite IH.
Qed.

(** C2, amended. For every state whose industry keys are distinct and whose
    worker keys are distinct within each industry, loading the snapshot just
    taken succeeds and gives the same state (owned-counts, tiers, ledger,
    next-fire instants, both mode flags) with every worker idle, its
    cycle-end cleared, and its auto flag set when it was set or when its
    tier has reached a positive auto-unlock threshold. *)
Theorem save_load_round_trip g savedAt :
  distinct_keys g ->
  applySnapshot g (snapshot savedAt g)
  = ({| Industries :=
          map (fun ind => set_Workers (map relatched (is_Workers ind)) ind) (Industries g);
        Resources := Resources g;
        Production := Production g;
        BuyModeMax := BuyModeMax g;
        DevMode := DevMode g |}, None).
Proof.
  intros [Hinds Hws]. unfold applySnapshot.
  cbn [sg_Resources sg_Industries sg_Production sg_BuyModeMax sg_DevMode snapshot].
  rewrite !length_map, !Nat.eqb_refl. cbn [negb].
  rewrite applyIndustries_snapshot, restoreProduction_snapshot; [done|].
  apply Forall_forall. intros ind Hind. split.
  - rewrite industryLookup_spec.
    apply (saved_under_unique si_Key (map snapshotIndustry (Industries g)) (snapshotIndustry ind)).
    + by rewrite map_map.
    + apply list_elem_of_In, in_map, list_elem_of_In, Hind.
  - rewrite Forall_forall in Hws. by apply Hws.
Qed.

Lemma eager_game_reachable : reachable eager_game.
Proof.
  apply (reach_build (fun _ => 0) eager_config
    {| cfg_StartingResources := Some {[ "coins" := 100 ]};
       cfg_StartingProduction := [];
       cfg_Industries := [coal [mkWorker "miner" "coal" 1 10 {[ "coins" := 10 ]}]] |});
    reflexivity.
Qed.

(** C2, as stated, fails on a state the program starts in: a miner whose
    auto-unlock threshold is its starting tier is saved with auto = false
    and loaded with auto = true. *)
Lemma save_load_identity_fails : ~ save_load_identity.
Proof.
  intros H. destruct (H eager_game 0 eager_game_reachable) as (g' & Happly & Hw & _).
  destruct (Hw 0%nat 0%nat _ eq_refl) as (w' & Hw' & _ & _ & Hauto & _).
  assert (Hg' : g' = fst (applySnapshot eager_game (snapshot 0 eager_game)))
    by (by rewrite Happly).
  subst g'. vm_compute in Hw'. injection Hw' as <-. discriminate Hauto.
Qed.

(** Under a repeated key the first worker comes back with the count of the
    last. *)
Example save_load_repeated_key :
  ws_Owned <$> worker_at twin_game 0 0 = Some 1
  /\ ws_Owned <$> worker_at (fst (applySnapshot twin_game (snapshot 0 twin_game))) 0 0 = Some 0.
Proof. split; vm_compute; reflexivity. Qed.

Lemma save_load_round_trip_witness :
  snd (applySnapshot shop_game (snapshot 5 shop_game)) = None.
Proof.
  rewrite (save_load_round_trip shop_game 5).
  - reflexivity.
  - split; [apply NoDup_singleton|].
    constructor; [apply NoDup_singleton|constructor].
Defined.

(** C5, as stated, fails: loading a save that records tier 1 and auto =
    false clears the flag of a miner that unlocked auto at tier 3. *)
Lemma auto_flag_cleared_by_load : ~ auto_flag_never_cleared.
Proof.
  intros H.
  assert (Hstep : rtc upgrade_or_load auto_game (fst (applySnapshot auto_game old_save))).
  { apply rtc_once. apply (step_load _ old_save). reflexivity. }
  specialize (H _ _ 0%nat 0%nat _ _ Hstep eq_refl eq_refl eq_refl).
  discriminate H.
Qed.

Lemma worker_at_paid (dev : bool) r g i j :
  worker_at (if dev then g else set_Resources r g) i j = worker_at g i j.
Proof. by destruct dev. Qed.

(** C5, amended. [UpgradeWorker] never clears an auto flag. A load that
    succeeds replaces the flag of every worker by what the snapshot gives:
    the recorded flag, or true when the recorded tier has reached a positive
    auto-unlock threshold; the flag the worker had before the load plays no
    part. *)
Theorem auto_flag_after_upgrade_and_load :
  (forall g i j g' st a b w,
     UpgradeWorker g i j = Some (g', st) -> worker_at g a b = Some w ->
     exists w', worker_at g' a b = Some w' /\ (ws_Auto w = true -> ws_Auto w' = true))
  /\ (forall g s g' i j ind w,
        applySnapshot g s = (g', None) ->
        Industries g !! i = Some ind -> is_Workers ind !! j = Some w ->
        exists si sw w',
          saved_under si_Key (sg_Industries s) (is_Key ind) = Some si
          /\ saved_under sw_Key (si_Workers si) (worker_key w) = Some sw
          /\ worker_at g' i j = Some w'
          /\ ws_Auto w'
             = sw_Auto sw
               || ((wc_AutoTier (ws_Definition w) >? 0)
                   && (sw_Tier sw >=? wc_AutoTier (ws_Definition w)))).
Proof.
  split.
  - intros g i j g' st a b w Hup Hw. unfold UpgradeWorker in Hup.
    destruct (worker_at g i j) as [w0|] eqn:Hw0; [|done].
    cbn [mbind option_bind] in Hup.
    destruct (_ && _) in Hup.
    { injection Hup as <- _. eauto. }
    injection Hup as <- _.
    destruct (decide ((a, b) = (i, j))) as [[= -> ->]|Hne].
    + erewrite worker_at_write by (rewrite worker_at_paid; exact Hw0).
      eexists. split; [reflexivity|].
      assert (w0 = w) as -> by congruence.
      intros Hauto. destruct (_ && _); cbn; [reflexivity|exact Hauto].
    + rewrite worker_at_write_other, worker_at_paid by done. eauto.
  - intros g s g' i j ind w Happly Hi Hj.
    destruct (applySnapshot_worker g s g' i j ind w Happly Hi Hj) as (si & sw & Hsi & Hsw & Hw).
    exists si, sw, (restoreWorker sw w). by repeat split.
Qed.

Lemma auto_flag_after_upgrade_and_load_witness :
  exists w', worker_at (fst (applySnapshot auto_game old_save)) 0 0 = Some w'
             /\ ws_Auto w' = false.
Proof.
  destruct (proj2 auto_flag_after_upgrade_and_load auto_game old_save
              (fst (applySnapshot auto_game old_save)) 0%nat 0%nat _ _
              eq_refl eq_refl eq_refl) as (si & sw & w' & Hsi & Hsw & Hw' & Hauto).
  exists w'. split; [exact Hw'|].
  vm_compute in Hsi. injection Hsi as <-.
  vm_compute in Hsw. injection Hsw as <-.
  rewrite Hauto. reflexivity.
Defined.

(** C1 (a load that fails leaves the live state unchanged): the code
    departs from it. The save lacks the worker of the second industry; the
    load reports the missing worker, and by then the worker of the first
    industry has been overwritten with the saved count and tier. *)
Theorem failed_load_rewrites_workers :
  snd (applySnapshot two_industries torn_save) = Some (MissingWorker "smelter")
  /\ ws_Owned <$> worker_at two_industries 0 0 = Some 1
  /\ ws_Tier <$> worker_at two_industries 0 0 = Some 1
  /\ ws_Owned <$> worker_at (fst (applySnapshot two_industries torn_save)) 0 0 = Some 7
  /\ ws_Tier <$> worker_at (fst (applySnapshot two_industries torn_save)) 0 0 = Some 3
  /\ ~ failed_load_changes_nothing.
Proof.
  repeat (split; [vm_compute; reflexivity|]).
  intros H.
  specialize (H two_industries torn_save
                (fst (applySnapshot two_industries torn_save))
                (MissingWorker "smelter") eq_refl).
  apply (f_equal (fun g => ws_Owned <$> worker_at g 0 0)) in H.
  vm_compute in H. discriminate H.
Qed.

(** ** Passive production *)

Lemma balance_credit resources r q :
  balance (credit resources r q) r = wrap (balance resources r + q).
Proof. unfold credit, balance. by rewrite lookup_insert_eq. Qed.

Lemma lookup_credit_ne resources r q r' :
  r' <> r -> credit resources r q !! r' = resources !! r'.
Proof. intros H. unfold credit. by rewrite lookup_insert_ne. Qed.

Lemma catch_up_sound fuel now d nextAt resources final :
  catch_up fuel now d nextAt resources = Some final ->
  catch_up_runs now d (nextAt, resources) final.
Proof.
  revert nextAt resources. induction fuel as [|fuel IH]; intros nextAt resources; cbn [catch_up].
  - destruct (Z.ltb_spec now nextAt); [|done]. intros [= <-]. by constructor.
  - destruct (Z.ltb_spec now nextAt).
    + intros [= <-]. by constructor.
    + intros Hrest. apply catch_up_round; [done|]. by apply IH.
Qed.

Lemma catch_up_enough fuel now d nextAt resources :
  0 < pp_ProdRate d ->
  (now - nextAt) / pp_ProdRate d + 1 <= Z.of_nat fuel ->
  is_Some (catch_up fuel now d nextAt resources).
Proof.
  intros Hrate. revert nextAt resources.
  induction fuel as [|fuel IH]; intros nextAt resources Hfuel; cbn [catch_up].
  - destruct (Z.ltb_spec now nextAt); [done|].
    assert (0 <= (now - nextAt) / pp_ProdRate d) by (apply Z.div_pos; lia). lia.
  - destruct (Z.ltb_spec now nextAt); [done|]. apply IH.
    replace (now - (nextAt + pp_ProdRate d)) with (now - nextAt + (-1) * pp_ProdRate d) by lia.
    rewrite Z.div_add by lia. lia.
Qed.

(** What the loop has done when it exits: [k] rounds. *)
Lemma catch_up_rounds now d s final :
  catch_up_runs now d s final ->
  exists k, 0 <= k
    /\ fst final = fst s + k * pp_ProdRate d
    /\ now < fst final
    /\ (k = 0 -> final = s)
    /\ (0 < k -> fst final - pp_ProdRate d <= now)
    /\ (0 < k -> balance (snd final) (pp_Resource d)
                 = wrap (balance (snd s) (pp_Resource d) + k * pp_ProdQuant d))
    /\ (forall r, r <> pp_Resource d -> snd final !! r = snd s !! r).
Proof.
  induction 1 as [nextAt resources Hlt|nextAt resources final Hle Hrun IH].
  - exists 0. cbn. repeat split; try done; lia.
  - destruct IH as (k & Hk & Hnext & Hnow & Hzero & Hlast & Hbal & Hother).
    cbn [fst snd] in *. exists (k + 1).
    split; [lia|]. split; [lia|]. split; [done|]. split; [lia|].
    split; [|split].
    + intros _. destruct (Z.eq_dec k 0) as [->|Hne].
      * rewrite (Hzero eq_refl). cbn. lia.
      * apply Hlast. lia.
    + intros _. destruct (Z.eq_dec k 0) as [->|Hne].
      * rewrite (Hzero eq_refl). cbn [snd]. rewrite balance_credit. f_equal. lia.
      * rewrite Hbal by lia. rewrite balance_credit, wrap_add_l. f_equal. lia.
    + intros r Hr. rewrite Hother by done. by apply lookup_credit_ne.
Qed.

(** Past its guards [apply] is the loop, run to its exit. *)
Lemma apply_runs_loop now p resources :
  ps_NextAt p <= now ->
  0 < pp_ProdRate (ps_Definition p) -> 0 < pp_ProdQuant (ps_Definition p) ->
  catch_up_runs now (ps_Definition p) (ps_NextAt p, resources)
    (ps_NextAt (fst (apply now p resources)), snd (apply now p resources))
  /\ ps_Definition (fst (apply now p resources)) = ps_Definition p.
Proof.
  intros Hdue Hrate Hquant. unfold apply.
  destruct (Z.ltb_spec now (ps_NextAt p)); [lia|].
  destruct (Z.leb_spec (pp_ProdRate (ps_Definition p)) 0); [lia|].
  destruct (Z.leb_spec (pp_ProdQuant (ps_Definition p)) 0); [lia|].
  cbn [orb].
  destruct (catch_up_enough (rounds now (ps_NextAt p) (pp_ProdRate (ps_Definition p)))
              now (ps_Definition p) (ps_NextAt p) resources Hrate) as [[nextAt res'] Hrun].
  { unfold rounds. rewrite Z2Nat.id; [lia|].
    assert (0 <= (now - ps_NextAt p) / pp_ProdRate (ps_Definition p)) by (apply Z.div_pos; lia).
    lia. }
  rewrite Hrun. cbn [fst snd ps_NextAt ps_Definition set_NextAt].
  split; [|done]. eapply catch_up_sound. exact Hrun.
Qed.

Lemma apply_not_due now p resources :
  now < ps_NextAt p -> apply now p resources = (p, resources).
Proof. intros H. unfold apply. by destruct (Z.ltb_spec now (ps_NextAt p)); [|lia]. Qed.

Lemma apply_defensive now p resources :
  pp_ProdRate (ps_Definition p) <= 0 \/ pp_ProdQuant (ps_Definition p) <= 0 ->
  apply now p resources = (p, resources).
Proof.
  intros H. unfold apply. destruct (now <? ps_NextAt p); [done|].
  destruct (Z.leb_spec (pp_ProdRate (ps_Definition p)) 0); [done|].
  destruct (Z.leb_spec (pp_ProdQuant (ps_Definition p)) 0); [done|]. lia.
Qed.

Section Total.
Variables (d : PassiveProductionSpec) (t0 T : Z) (resources0 : ledger).
Hypothesis Hrate : 0 < pp_ProdRate d.
Hypothesis Hquant : 0 < pp_ProdQuant d.

Lemma fired_apply c st now :
  now <= t0 + T -> fired d t0 T resources0 c st ->
  exists c', fired d t0 T resources0 c' (apply now (fst st) (snd st))
             /\ now < ps_NextAt (fst (apply now (fst st) (snd st))).
Proof.
  intros Hnow (Hc & HcT & Hd & Hnext & Hbal & Hother).
  destruct (Z.lt_ge_cases now (ps_NextAt (fst st))) as [Hlt|Hge].
  - exists c. rewrite apply_not_due by done. by repeat split.
  - destruct (apply_runs_loop now (fst st) (snd st)) as [Hrun Hdef]; [lia|by rewrite Hd..|].
    apply catch_up_rounds in Hrun
      as (k & Hk & Hnext' & Hexit & Hzero & Hlast & Hbal' & Hother').
    cbn [fst snd] in *. rewrite Hd in *.
    assert (Hkpos : 0 < k).
    { destruct (Z.eq_dec k 0) as [->|]; [|lia]. lia. }
    exists (c + k). split; [|done].
    split; [lia|]. split; [specialize (Hlast Hkpos); nia|].
    split; [congruence|]. split; [lia|]. split.
    + rewrite Hbal' by done. rewrite Hbal, wrap_add_l. f_equal. lia.
    + intros r Hr. rewrite Hother' by done. by apply Hother.
Qed.

Lemma fired_applyEach instants c st :
  Forall (fun now => now <= t0 + T) instants -> fired d t0 T resources0 c st ->
  exists c', fired d t0 T resources0 c' (applyEach instants (fst st) (snd st)).
Proof.
  intros Hall. revert c st. induction Hall as [|now instants Hnow _ IH]; intros c st Hst.
  - exists c. by destruct st.
  - destruct (fired_apply c st now Hnow Hst) as (c' & Hc' & _).
    destruct (IH c' _ Hc') as (c'' & Hc''). exists c''.
    unfold applyEach in *. cbn [foldl fst snd].
    by destruct (apply now (fst st) (snd st)).
Qed.
End Total.

(** C8: a passive producer with interval i > 0 and quantity q > 0, built at
    t0, has credited its resource with exactly floor(T / i) * q once
    [apply] has been called at t0 + T, whatever calls were made before at
    instants up to t0 + T, in any number and order; no other resource is
    touched. With i <= 0 or q <= 0 [apply] returns at its guard: nothing is
    credited and the loop is not entered. Past the guards the loop runs to
    its exit. *)
Theorem passive_producer_total :
  (forall (d : PassiveProductionSpec) (t0 T : Z) (instants : list Z) (resources : ledger),
     0 < pp_ProdRate d -> 0 < pp_ProdQuant d -> 0 <= T ->
     Forall (fun now => now <= t0 + T) instants ->
     is_int (balance resources (pp_Resource d)) ->
     let built := {| ps_Definition := d; ps_NextAt := t0 + pp_ProdRate d |} in
     let final := applyEach (instants ++ [t0 + T]) built resources in
     balance (snd final) (pp_Resource d)
     = wrap (balance resources (pp_Resource d) + T / pp_ProdRate d * pp_ProdQuant d)
     /\ (forall r, r <> pp_Resource d -> snd final !! r = resources !! r)
     /\ ps_NextAt (fst final) = t0 + (T / pp_ProdRate d + 1) * pp_ProdRate d)
  /\ (forall now p resources,
        pp_ProdRate (ps_Definition p) <= 0 \/ pp_ProdQuant (ps_Definition p) <= 0 ->
        apply now p resources = (p, resources))
  /\ (forall now p resources,
        ps_NextAt p <= now ->
        0 < pp_ProdRate (ps_Definition p) -> 0 < pp_ProdQuant (ps_Definition p) ->
        catch_up_runs now (ps_Definition p) (ps_NextAt p, resources)
          (ps_NextAt (fst (apply now p resources)), snd (apply now p resources))).
Proof.
  split; [|split].
  - intros d t0 T instants resources Hrate Hquant HT Hall Hint built final.
    assert (H0 : fired d t0 T resources 0 (built, resources)).
    { split; [lia|]. split; [lia|]. split; [done|]. split; [cbn; lia|].
      split; [|done]. cbn [snd]. rewrite Z.add_0_r. symmetry. by apply wrap_id. }
    destruct (fired_applyEach d t0 T resources Hrate Hquant instants 0 _ Hall H0) as (c & Hc).
    cbn [fst snd] in Hc.
    destruct (fired_apply d t0 T resources Hrate Hquant c _ (t0 + T) ltac:(lia) Hc)
      as (c' & (Hc0 & HcT & Hd & Hnext & Hbal & Hother) & Hexit).
    assert (Hfinal : final = apply (t0 + T) (fst (applyEach instants built resources))
                                   (snd (applyEach instants built resources))).
    { subst final. unfold applyEach. by rewrite foldl_app. }
    rewrite <- Hfinal in *.
    assert (Hdiv : T / pp_ProdRate d = c').
    { symmetry. apply Z.div_unique with (r := T - c' * pp_ProdRate d); lia. }
    rewrite Hdiv. by repeat split.
  - apply apply_defensive.
  - intros now p resources Hdue Hrate Hquant.
    by apply apply_runs_loop.
Qed.

(** The producer [BuildGame] makes of one definition, with the clock at
    [t0], is the one [passive_producer_total] starts from. *)
Lemma buildPassiveProduction_one t0 d :
  buildPassiveProduction (fun _ => t0) [d]
  = [ {| ps_Definition := d; ps_NextAt := t0 + pp_ProdRate d |} ].
Proof. reflexivity. Qed.

Lemma passive_producer_total_witness :
  balance
    (snd (applyEach ([1000000000; 2500000000; 500000000] ++ [0 + 5500000000])
            {| ps_Definition := {| pp_Resource := "coins"; pp_ProdRate := second;
                                   pp_ProdQuant := 3 |};
               ps_NextAt := 0 + second |}
            {[ "coins" := 10 ]}))
    "coins"
  = 25.
Proof.
  refine (eq_trans (proj1 (proj1 passive_producer_total
             {| pp_Resource := "coins"; pp_ProdRate := second; pp_ProdQuant := 3 |}
             0 5500000000 [1000000000; 2500000000; 500000000] {[ "coins" := 10 ]}
             ltac:(reflexivity) ltac:(reflexivity) ltac:(lia)
             ltac:(repeat constructor; lia)
             ltac:(vm_compute; split; discriminate))) _).
  vm_compute. reflexivity.
Defined.

(** ** The simulation clock *)

(** *** Nothing to do *)

Lemma set_Workers_same ind : set_Workers (is_Workers ind) ind = ind.
Proof. by destruct ind. Qed.

Lemma updateWorker_quiet now now' resources ind j :
  now' <= now ->
  Forall (worker_quiet now) (is_Workers ind) ->
  updateWorker now' (resources, ind) j = (resources, ind).
Proof.
  intros Hle Hall. unfold updateWorker.
  destruct (is_Workers ind !! j) as [w|] eqn:Hj; [|done].
  rewrite Forall_lookup in Hall. destruct (Hall j w Hj) as [Hrun Hidle].
  rewrite Hidle, (list_insert_id _ _ _ Hj), set_Workers_same.
  destruct (ws_Running w); [|done]. cbn [negb].
  by destruct (Z.ltb_spec now' (ws_EndsAt w)); [|specialize (Hrun eq_refl); lia].
Qed.

Lemma updateIndustry_quiet now now' resources ind :
  now' <= now ->
  Forall (worker_quiet now) (is_Workers ind) ->
  updateIndustry now' resources ind = (resources, ind).
Proof.
  intros Hle Hall. unfold updateIndustry.
  induction (seq 0 (length (is_Workers ind))) as [|j l IH]; [done|].
  cbn [foldl]. by rewrite (updateWorker_quiet now).
Qed.

Lemma updateIndustries_quiet now now' industries resources :
  now' <= now ->
  Forall (fun ind => Forall (worker_quiet now) (is_Workers ind)) industries ->
  updateIndustries now' industries resources = (industries, resources).
Proof.
  intros Hle. induction 1 as [|ind industries Hind _ IH]; [done|].
  cbn [updateIndustries]. by rewrite (updateIndustry_quiet now), IH.
Qed.

Lemma apply_quiet now now' p resources :
  now' <= now -> producer_quiet now p -> apply now' p resources = (p, resources).
Proof.
  intros Hle [Hlt|Hguard].
  - apply apply_not_due. lia.
  - by apply apply_defensive.
Qed.

Lemma applyAll_quiet now now' production resources :
  now' <= now ->
  Forall (producer_quiet now) production ->
  applyAll now' production resources = (production, resources).
Proof.
  intros Hle. induction 1 as [|p production Hp _ IH]; [done|].
  cbn [applyAll]. by rewrite (apply_quiet now), IH.
Qed.


(** *** One pass settles every worker *)

Lemma definitions_insert (ws : list WorkerState) k w w1 :
  ws !! k = Some w -> ws_Definition w1 = ws_Definition w ->
  ws_Definition <$> <[k := w1]> ws = ws_Definition <$> ws.
Proof.
  intros Hk Hdef. rewrite list_fmap_insert, Hdef.
  apply list_insert_id. by rewrite list_lookup_fmap, Hk.
Qed.

Lemma definitions_alter (f : WorkerState -> WorkerState) (ws : list WorkerState) k :
  (forall w, ws_Definition (f w) = ws_Definition w) ->
  ws_Definition <$> alter f k ws = ws_Definition <$> ws.
Proof.
  intros Hf. apply list_eq. intros j.
  rewrite !list_lookup_fmap, list_lookup_alter.
  case_decide; [subst|done]. destruct (ws !! j); [|done]. cbn. by rewrite Hf.
Qed.

Lemma findWorkerIndex_definitions (ws ws' : list WorkerState) key :
  ws_Definition <$> ws' = ws_Definition <$> ws ->
  findWorkerIndex ws' key = findWorkerIndex ws key.
Proof.
  intros Hdefs. unfold findWorkerIndex.
  assert (Hfind : forall l : list WorkerState,
            fst <$> list_find (fun w => wc_Key (ws_Definition w) = key) l
            = fst <$> list_find (fun d => wc_Key d = key) (ws_Definition <$> l)).
  { intros l. rewrite list_find_fmap.
    by destruct (list_find _ l) as [[]|]. }
  by rewrite !Hfind, Hdefs.
Qed.

Lemma applyProduction_step resources ind k w :
  is_Workers ind !! k = Some w ->
  exists resources' ws2,
    applyProduction resources ind k = (resources', set_Workers ws2 ind)
    /\ ws_Definition <$> ws2 = ws_Definition <$> is_Workers ind
    /\ (forall j,
          findWorkerIndex (is_Workers ind) (wc_Produces (ws_Definition w)) <> Some j ->
          ws2 !! j = is_Workers ind !! j)
    /\ exists w2, ws2 !! k = Some w2
                  /\ ws_Definition w2 = ws_Definition w /\ ws_Auto w2 = ws_Auto w.
Proof.
  intros Hk. unfold applyProduction. rewrite Hk.
  assert (Hsame : forall r : ledger, exists resources' ws2,
            (r, ind) = (resources', set_Workers ws2 ind)
            /\ ws_Definition <$> ws2 = ws_Definition <$> is_Workers ind
            /\ (forall j,
                  findWorkerIndex (is_Workers ind) (wc_Produces (ws_Definition w)) <> Some j ->
                  ws2 !! j = is_Workers ind !! j)
            /\ exists w2, ws2 !! k = Some w2
                          /\ ws_Definition w2 = ws_Definition w /\ ws_Auto w2 = ws_Auto w).
  { intros r. exists r, (is_Workers ind). rewrite set_Workers_same. eauto 10. }
  destruct (ws_Owned w =? 0); [apply Hsame|].
  destruct (findWorkerIndex _ _) as [t|] eqn:Ht.
  - eexists _, _. split; [reflexivity|]. split; [by apply definitions_alter|]. split.
    + intros j Hj. apply list_lookup_alter_ne. congruence.
    + rewrite list_lookup_alter. case_decide.
      * subst t. rewrite Hk. cbn. eauto.
      * eauto.
  - case_decide; apply Hsame.
Qed.

Lemma updateWorker_step now resources ind k w :
  is_Workers ind !! k = Some w ->
  exists resources' ws',
    updateWorker now (resources, ind) k = (resources', set_Workers ws' ind)
    /\ ws_Definition <$> ws' = ws_Definition <$> is_Workers ind
    /\ (forall j, j <> k ->
          findWorkerIndex (is_Workers ind) (wc_Produces (ws_Definition w)) <> Some j ->
          ws' !! j = is_Workers ind !! j)
    /\ (0 < wc_ProdRate (ws_Definition w) ->
        exists w', ws' !! k = Some w' /\ worker_quiet now w').
Proof.
  intros Hk. unfold updateWorker. rewrite Hk.
  set (cond := ws_Auto w && negb (ws_Running w) && (ws_Owned w >? 0)).
  set (w1 := if cond then start_cycle now w else w).
  assert (Hdef1 : ws_Definition w1 = ws_Definition w) by (subst w1; by destruct cond).
  assert (Hauto1 : ws_Auto w1 = ws_Auto w) by (subst w1; by destruct cond).
  set (ws1 := <[k := w1]> (is_Workers ind)).
  assert (Hk1 : ws1 !! k = Some w1).
  { apply list_lookup_insert_eq. by eapply lookup_lt_Some. }
  assert (Hdefs1 : ws_Definition <$> ws1 = ws_Definition <$> is_Workers ind)
    by (by eapply definitions_insert).
  assert (Hquiet1 : ws_Running w1 = false \/ now < ws_EndsAt w1 ->
                    0 < wc_ProdRate (ws_Definition w) -> worker_quiet now w1).
  { intros Hcase Hrate. subst w1. unfold worker_quiet. destruct cond eqn:Hcond.
    - cbn. split; [lia|]. by rewrite andb_false_r.
    - destruct Hcase as [Hidle|Hlt].
      + split; [congruence|]. exact Hcond.
      + split; [done|]. destruct (ws_Running w) eqn:Hrun.
        * by rewrite andb_false_r.
        * exact Hcond. }
  assert (Hstay : exists resources' ws',
            (resources, set_Workers ws1 ind) = (resources', set_Workers ws' ind)
            /\ ws_Definition <$> ws' = ws_Definition <$> is_Workers ind
            /\ (forall j, j <> k ->
                  findWorkerIndex (is_Workers ind) (wc_Produces (ws_Definition w)) <> Some j ->
                  ws' !! j = is_Workers ind !! j)
            /\ (ws_Running w1 = false \/ now < ws_EndsAt w1 ->
                0 < wc_ProdRate (ws_Definition w) ->
                exists w', ws' !! k = Some w' /\ worker_quiet now w')).
  { exists resources, ws1. split; [done|]. split; [done|]. split.
    - intros j Hj _. by apply list_lookup_insert_ne.
    - eauto. }
  destruct (ws_Running w1) eqn:Hrun1; cbn [negb].
  2:{ destruct Hstay as (r' & ws' & ? & ? & ? & Hq). exists r', ws'. eauto 10. }
  destruct (Z.ltb_spec now (ws_EndsAt w1)) as [Hlt|Hdue].
  { destruct Hstay as (r' & ws' & ? & ? & ? & Hq). exists r', ws'. eauto 10. }
  destruct (applyProduction_step resources (set_Workers ws1 ind) k w1 Hk1)
    as (resources2 & ws2 & -> & Hdefs2 & Hother2 & w2 & Hk2 & Hdef2 & Hauto2).
  cbn [is_Workers set_Workers] in *.
  eexists _, _. split; [reflexivity|].
  split; [|split].
  - rewrite definitions_alter; [congruence|]. intros x. cbn. by destruct (ws_Auto x).
  - intros j Hj Htarget. rewrite list_lookup_alter_ne by done.
    rewrite Hother2.
    + by apply list_lookup_insert_ne.
    + rewrite Hdef1, (findWorkerIndex_definitions (is_Workers ind) ws1) by done. exact Htarget.
  - intros Hrate. rewrite list_lookup_alter_eq, Hk2. cbn [fmap option_fmap option_map].
    eexists. split; [reflexivity|]. unfold worker_quiet.
    change (ws_Auto (set_Running false w2)) with (ws_Auto w2).
    destruct (ws_Auto w2) eqn:Ha2.
    + cbn. split; [|by rewrite andb_false_r]. intros _.
      rewrite Hdef2, Hdef1. lia.
    + cbn. rewrite Ha2. split; [done|reflexivity].
Qed.






Lemma apply_settles now p resources :
  producer_quiet now (fst (apply now p resources)).
Proof.
  destruct (Z.lt_ge_cases now (ps_NextAt p)) as [Hlt|Hdue].
  { rewrite apply_not_due by done. by left. }
  destruct (Z.le_gt_cases (pp_ProdRate (ps_Definition p)) 0) as [Hrate|Hrate].
  { rewrite apply_defensive by (by left). right. by left. }
  destruct (Z.le_gt_cases (pp_ProdQuant (ps_Definition p)) 0) as [Hquant|Hquant].
  { rewrite apply_defensive by (by right). right. by right. }
  destruct (apply_runs_loop now p resources Hdue Hrate Hquant) as [Hrun _].
  apply catch_up_rounds in Hrun as (k & _ & _ & Hexit & _). by left.
Qed.

Lemma applyAll_settles now production resources :
  Forall (producer_quiet now) (fst (applyAll now production resources)).
Proof.
  revert resources. induction production as [|p production IH]; intros resources; [constructor|].
  cbn [applyAll]. pose proof (apply_settles now p resources) as Hp.
  destruct (apply now p resources) as [p' r1].
  specialize (IH r1). destruct (applyAll now production r1) as [rest' r2].
  cbn [fst] in *. by constructor.
Qed.



Lemma chain_game_reachable : reachable chain_game.
Proof.
  apply (reach_start chain_upgraded 0 2 0 chain_game CycleStarted); [|vm_compute; reflexivity].
  apply (reach_upgrade chain_bought 0 1 chain_upgraded Upgraded); [|vm_compute; reflexivity].
  apply (reach_buy chain_start 0 2 chain_bought (Bought 1)); [|vm_compute; reflexivity].
  apply (reach_build (fun _ => 0) chain_config
    {| cfg_StartingResources := Some {[ "coins" := 1000 ]};
       cfg_StartingProduction := [];
       cfg_Industries :=
         [coal [mkWorker "miner" "coal" 0 1 {[ "coins" := 1 ]};
                mkWorker "foreman" "coal" 2 1 {[ "coins" := 1 ]};
                mkWorker "driller" "foreman" 0 1 {[ "coins" := 1 ]}]] |});
    reflexivity.
Qed.

(** The foreman owns nothing when the first [Update] reaches him; the
    driller, later in the same pass, produces one; the second [Update] at
    the same instant then starts the foreman. *)
Example chain_trace :
  (ws_Owned <$> worker_at chain_game 0 1, ws_Auto <$> worker_at chain_game 0 1,
   ws_Running <$> worker_at chain_game 0 1) = (Some 0, Some true, Some false)
  /\ (ws_Owned <$> worker_at (Update second chain_game) 0 1,
      ws_Running <$> worker_at (Update second chain_game) 0 1) = (Some 1, Some false)
  /\ (ws_Running <$> worker_at (Update second (Update second chain_game)) 0 1,
      ws_EndsAt <$> worker_at (Update second (Update second chain_game)) 0 1)
     = (Some true, Some (2 * second)).
Proof. repeat split; vm_compute; reflexivity. Qed.



(** ** Further properties of the engine and of its front end *)

(** *** One worker at a time *)

Lemma game_shape_write g i j w w' :
  worker_at g i j = Some w -> ws_Definition w' = ws_Definition w ->
  game_shape (write_worker g i j w') = game_shape g.
Proof.
  unfold worker_at, game_shape, write_worker. cbn [Industries Production set_Industries].
  intros Hw Hdef. f_equal. apply list_eq. intros a.
  rewrite !list_lookup_fmap, list_lookup_alter.
  case_decide as Ha; [subst a|done].
  destruct (Industries g !! i) as [ind|] eqn:Hi; [|done]. cbn in *.
  unfold industry_shape. cbn [is_Key is_Name is_Resource is_Workers set_Workers].
  by rewrite (definitions_insert _ _ w).
Qed.

Lemma touches_only_write g i j w w' :
  worker_at g i j = Some w -> ws_Definition w' = ws_Definition w ->
  touches_only i j g (write_worker g i j w').
Proof.
  intros Hw Hdef. split; [by eapply game_shape_write|].
  repeat split. intros a b Hab. by apply worker_at_write_other.
Qed.

Lemma touches_only_refl i j g : touches_only i j g g.
Proof. by repeat split. Qed.

Lemma touches_only_paid (dev : bool) r g i j w w' :
  worker_at g i j = Some w -> ws_Definition w' = ws_Definition w ->
  touches_only i j g (write_worker (if dev then g else set_Resources r g) i j w').
Proof.
  intros Hw Hdef. destruct dev; [by eapply touches_only_write|].
  destruct (touches_only_write (set_Resources r g) i j w w' Hw Hdef)
    as (Hshape & Hprod & Hmax & Hdev & Hother).
  by repeat split.
Qed.

Lemma BuyWorker_touches g i j g' st :
  BuyWorker g i j = Some (g', st) -> touches_only i j g g'.
Proof.
  unfold BuyWorker. destruct (worker_at g i j) as [w|] eqn:Hw; [|done].
  cbn [mbind option_bind]. destruct (buyCount _ _) as [n|].
  2:{ intros [= <- _]. apply touches_only_refl. }
  destruct (n <=? 0); intros [= <- _]; [apply touches_only_refl|].
  by eapply touches_only_paid.
Qed.

Lemma UpgradeWorker_touches g i j g' st :
  UpgradeWorker g i j = Some (g', st) -> touches_only i j g g'.
Proof.
  unfold UpgradeWorker. destruct (worker_at g i j) as [w|] eqn:Hw; [|done].
  cbn [mbind option_bind]. destruct (negb (DevMode g) && _).
  { intros [= <- _]. apply touches_only_refl. }
  intros [= <- _]. eapply touches_only_paid; [done|]. by destruct (_ && _).
Qed.

Lemma StartRun_touches g i j now g' st :
  StartRun g i j now = Some (g', st) ->
  touches_only i j g g' /\ Resources g' = Resources g.
Proof.
  unfold StartRun. destruct (worker_at g i j) as [w|] eqn:Hw; [|done].
  cbn [mbind option_bind].
  destruct (ws_Owned w =? 0); [intros [= <- _]; split; [apply touches_only_refl|done]|].
  destruct (ws_Running w); intros [= <- _]; (split; [|done]).
  - apply touches_only_refl.
  - by eapply touches_only_write.
Qed.

(** X1: Whatever they answer, BuyWorker, UpgradeWorker and StartRun change
    nothing but the ledger and the one worker they are called on: the keys,
    names, resources and worker definitions of every industry, the passive
    producers, the buy-max and developer-mode flags and every other worker
    are as before the call. StartRun leaves the ledger untouched as well. *)
Theorem operations_touch_one_worker g i j g' st :
  (BuyWorker g i j = Some (g', st) -> touches_only i j g g')
  /\ (UpgradeWorker g i j = Some (g', st) -> touches_only i j g g')
  /\ (forall now, StartRun g i j now = Some (g', st) ->
        touches_only i j g g' /\ Resources g' = Resources g).
Proof.
  split; [apply BuyWorker_touches|]. split; [apply UpgradeWorker_touches|].
  intros now. apply StartRun_touches.
Qed.

Lemma operations_touch_one_worker_witness :
  touches_only 0 0 shop_game (after (BuyWorker shop_game 0 0) shop_game).
Proof.
  apply (proj1 (operations_touch_one_worker shop_game 0 0
                  (after (BuyWorker shop_game 0 0) shop_game) (Bought 10))).
  vm_compute. reflexivity.
Defined.

(** X2: StartRun on a worker the indices reach has exactly three outcomes.
    With no unit owned it answers "need at least 1 worker" and changes
    nothing. With units owned and a cycle in progress it answers "already
    running" and changes nothing, so the end of the running cycle is not
    moved. With units owned and no cycle in progress it answers "cycle
    started" and writes only that worker, now running with its cycle ending
    at now + ProdRate; any later StartRun on the same worker answers
    "already running" and leaves that state as it is. *)
Theorem StartRun_outcome g i j now w :
  worker_at g i j = Some w ->
  (ws_Owned w = 0 -> StartRun g i j now = Some (g, NeedWorker))
  /\ (ws_Owned w <> 0 -> ws_Running w = true ->
      StartRun g i j now = Some (g, AlreadyRunning))
  /\ (ws_Owned w <> 0 -> ws_Running w = false ->
      let g' := write_worker g i j (start_cycle now w) in
      StartRun g i j now = Some (g', CycleStarted)
      /\ worker_at g' i j = Some (start_cycle now w)
      /\ forall later, StartRun g' i j later = Some (g', AlreadyRunning)).
Proof.
  intros Hw. unfold StartRun. rewrite Hw. cbn [mbind option_bind].
  split; [|split].
  - intros ->. reflexivity.
  - intros Ho ->. by destruct (Z.eqb_spec (ws_Owned w) 0).
  - intros Ho Hr. set (g' := write_worker g i j (start_cycle now w)).
    rewrite Hr. destruct (Z.eqb_spec (ws_Owned w) 0); [done|].
    split; [reflexivity|].
    assert (Hw' : worker_at g' i j = Some (start_cycle now w))
      by (by eapply worker_at_write).
    split; [done|]. intros later. rewrite Hw'. cbn [mbind option_bind].
    cbn [ws_Owned ws_Running start_cycle set_EndsAt set_Running].
    by destruct (Z.eqb_spec (ws_Owned w) 0).
Qed.

Lemma StartRun_outcome_witness :
  StartRun shop_game 0 0 5
  = Some (write_worker shop_game 0 0
            (start_cycle 5 (mkState (mkWorker "miner" "coal" 0 10 {[ "coins" := 10 ]}) 1 1 false)),
          CycleStarted).
Proof.
  apply (proj2 (proj2 (StartRun_outcome shop_game 0 0 5 _ eq_refl)));
    [discriminate|reflexivity].
Defined.




(** *** Paying *)

(** X4: On a ledger whose balances are all between 0 and MaxInt, whenever
    maxAffordable(cost, resources) is positive, canAfford(cost, resources)
    is true: the two affordability tests of BuyWorker never disagree in that
    direction (a count of at least one in buy-max mode means a single
    purchase would go through too). *)
Theorem maxAffordable_implies_canAfford cost resources :
  ledger_nonneg resources ->
  0 < maxAffordable cost resources ->
  canAfford cost resources = true.
Proof.
  intros Hres Hn. apply canAfford_spec. intros r a Hr.
  destruct (Hres r) as [Hr0 _].
  destruct (Z.le_gt_cases a 0) as [Ha|Ha]; [lia|].
  pose proof (maxAffordable_positive_bound _ _ Hn r a Hr Ha) as Hb.
  rewrite Z.quot_div_nonneg in Hb by lia.
  pose proof (Z.mul_div_le (balance resources r) a Ha). nia.
Qed.

Lemma maxAffordable_implies_canAfford_witness :
  canAfford {[ "coins" := 10 ]} (Resources shop_game) = true.
Proof.
  apply maxAffordable_implies_canAfford.
  - intros r. unfold balance. cbn [Resources shop_game].
    destruct (decide (r = "coins")) as [->|Hne].
    + rewrite lookup_singleton_eq. cbn. unfold MaxInt. lia.
    + rewrite lookup_singleton_ne by done. cbn. unfold MaxInt. lia.
  - vm_compute. reflexivity.
Defined.

(** What a purchase outside developer mode does to the ledger, in exact
    arithmetic. *)
Lemma BuyWorker_bought g i j w g' n :
  worker_at g i j = Some w -> DevMode g = false ->
  BuyWorker g i j = Some (g', Bought n) ->
  let cost := entries (wc_Cost (ws_Definition w)) in
  0 < n
  /\ g' = write_worker (set_Resources (debit cost n (Resources g)) g) i j
            (set_Owned (wrap (ws_Owned w + n)) w)
  /\ (ledger_nonneg (Resources g) ->
      forall r a, cost !! r = Some a -> 0 < a -> a * n <= balance (Resources g) r)
  /\ (BuyModeMax g = true -> n = maxAffordable cost (Resources g)).
Proof.
  intros Hw Hdev Hbuy cost. destruct (BuyModeMax g) eqn:Hmode.
  - rewrite (BuyWorker_max g i j w Hw Hdev Hmode) in Hbuy. fold cost in Hbuy.
    destruct (Z.leb_spec (maxAffordable cost (Resources g)) 0) as [|Hn]; [done|].
    injection Hbuy as <- <-. split; [done|]. split; [done|]. split; [|done].
    intros Hres r a Hr Ha.
    pose proof (maxAffordable_positive_bound _ _ Hn r a Hr Ha) as Hb.
    destruct (Hres r) as [Hr0 _].
    rewrite Z.quot_div_nonneg in Hb by lia.
    pose proof (Z.mul_div_le (balance (Resources g) r) a Ha). nia.
  - rewrite (BuyWorker_single g i j w Hw Hdev Hmode) in Hbuy. fold cost in Hbuy.
    destruct (canAfford cost (Resources g)) eqn:Haff; [|done].
    injection Hbuy as <- <-. split; [lia|]. split; [done|]. split; [|done].
    intros _ r a Hr Ha. pose proof (proj1 (canAfford_spec _ _) Haff r a Hr). lia.
Qed.

(** X5: Outside developer mode, on a ledger whose balances are all between 0
    and MaxInt and for a cost table whose amounts are all positive: a
    BuyWorker that answers "bought n" takes exactly amount * n from every
    resource of the cost table with no wrap-around in the int arithmetic
    (new balance = old balance - amount * n as integers), leaves every
    resource outside the cost table as it was, and adds n to the worker's
    owned-count (when owned + n fits an int). *)
Theorem BuyWorker_pays_exactly g i j w g' n :
  worker_at g i j = Some w -> DevMode g = false ->
  ledger_nonneg (Resources g) ->
  (forall r a, entries (wc_Cost (ws_Definition w)) !! r = Some a -> 0 < a) ->
  is_int (ws_Owned w + n) ->
  BuyWorker g i j = Some (g', Bought n) ->
  (forall r a, entries (wc_Cost (ws_Definition w)) !! r = Some a ->
     balance (Resources g') r = balance (Resources g) r - a * n)
  /\ (forall r, entries (wc_Cost (ws_Definition w)) !! r = None ->
        Resources g' !! r = Resources g !! r)
  /\ ws_Owned <$> worker_at g' i j = Some (ws_Owned w + n).
Proof.
  intros Hw Hdev Hres Hpos Hint Hbuy.
  destruct (BuyWorker_bought g i j w g' n Hw Hdev Hbuy) as (Hn & -> & Hle & _).
  cbn [Resources write_worker set_Industries set_Resources].
  split; [|split].
  - intros r a Hr. unfold balance at 1. rewrite debit_lookup, Hr. cbn.
    pose proof (Hpos r a Hr) as Ha. pose proof (Hle Hres r a Hr Ha) as Hb.
    destruct (Hres r) as [Hr0 Hr1].
    rewrite (wrap_id (a * n)) by (unfold is_int, MinInt, MaxInt in *; nia).
    apply wrap_id. unfold is_int, MinInt, MaxInt in *. nia.
  - intros r Hr. by rewrite debit_lookup, Hr.
  - erewrite worker_at_write by exact Hw. cbn. f_equal. by apply wrap_id.
Qed.

Lemma BuyWorker_pays_exactly_witness :
  balance (Resources (after (BuyWorker shop_game 0 0) shop_game)) "coins" = 0.
Proof.
  refine (eq_trans (proj1 (BuyWorker_pays_exactly shop_game 0 0 _
                             (after (BuyWorker shop_game 0 0) shop_game) 10
                             eq_refl eq_refl _ _ _ _) "coins" 10 eq_refl) _).
  - intros r. unfold balance. cbn [Resources shop_game].
    destruct (decide (r = "coins")) as [->|Hne].
    + rewrite lookup_singleton_eq. cbn. unfold MaxInt. lia.
    + rewrite lookup_singleton_ne by done. cbn. unfold MaxInt. lia.
  - intros r a Hr. cbn in Hr. apply lookup_singleton_Some in Hr as [_ <-]. lia.
  - vm_compute. split; discriminate.
  - vm_compute. reflexivity.
  - vm_compute. reflexivity.
Defined.

(** X6: Outside developer mode and in buy-max mode, on a ledger whose
    balances are all between 0 and MaxInt: after a BuyWorker that bought
    (answer "bought n"), a second BuyWorker on the same worker is refused
    with "cannot afford" and changes nothing. A buy-max purchase spends the
    balance down to less than one more unit. *)
Theorem buy_max_leaves_nothing_affordable g i j w g' n :
  worker_at g i j = Some w -> DevMode g = false -> BuyModeMax g = true ->
  ledger_nonneg (Resources g) ->
  BuyWorker g i j = Some (g', Bought n) ->
  BuyWorker g' i j = Some (g', CannotAfford).
Proof.
  intros Hw Hdev Hmode Hres Hbuy.
  destruct (BuyWorker_bought g i j w g' n Hw Hdev Hbuy) as (Hn & Hg' & _ & Hmax).
  specialize (Hmax Hmode). set (cost := entries (wc_Cost (ws_Definition w))) in *.
  assert (Hw' : worker_at g' i j = Some (set_Owned (wrap (ws_Owned w + n)) w)).
  { subst g'. by eapply worker_at_write. }
  assert (Hdev' : DevMode g' = false) by (by subst g').
  assert (Hmode' : BuyModeMax g' = true) by (by subst g').
  rewrite (BuyWorker_max g' i j _ Hw' Hdev' Hmode').
  cbn [ws_Definition set_Owned]. fold cost.
  assert (Hzero : maxAffordable cost (Resources g') <= 0).
  { (* the resource that bounded the count is left short of one unit *)
    rewrite maxAffordable_limit in Hmax.
    destruct (affordLimit_spec cost (Resources g)) as (_ & _ & Hex).
    destruct (Z.eqb_spec (affordLimit cost (Resources g)) MaxInt) as [|Hne]; [lia|].
    destruct Hex as [?|(r & a & Hr & Ha & Hlimit)]; [done|].
    destruct (Hres r) as [Hr0 Hr1].
    assert (Hdiv : n = balance (Resources g) r / a).
    { rewrite Hmax, Hlimit. apply Z.quot_div_nonneg; lia. }
    assert (Hleft : balance (Resources g') r = balance (Resources g) r mod a).
    { subst g'. cbn [Resources write_worker set_Industries set_Resources].
      unfold balance at 1. rewrite debit_lookup, Hr. cbn.
      pose proof (Z.mul_div_le (balance (Resources g) r) a Ha).
      pose proof (Z.mod_pos_bound (balance (Resources g) r) a Ha).
      pose proof (Z.div_mod (balance (Resources g) r) a ltac:(lia)).
      rewrite (wrap_id (a * n)) by (unfold is_int, MinInt, MaxInt in *; nia).
      rewrite wrap_id by (unfold is_int, MinInt, MaxInt in *; nia). nia. }
    rewrite maxAffordable_limit.
    destruct (affordLimit_spec cost (Resources g')) as (_ & Hall & _).
    specialize (Hall r a Hr Ha). rewrite Hleft in Hall.
    pose proof (Z.mod_pos_bound (balance (Resources g) r) a Ha).
    rewrite Z.quot_small in Hall by lia.
    destruct (Z.eqb_spec (affordLimit cost (Resources g')) MaxInt); lia. }
  by destruct (Z.leb_spec (maxAffordable cost (Resources g')) 0); [|lia].
Qed.

Lemma buy_max_leaves_nothing_affordable_witness :
  BuyWorker (after (BuyWorker shop_game 0 0) shop_game) 0 0
  = Some (after (BuyWorker shop_game 0 0) shop_game, CannotAfford).
Proof.
  apply (buy_max_leaves_nothing_affordable shop_game 0 0 _ _ 10 eq_refl eq_refl eq_refl).
  - intros r. unfold balance. cbn [Resources shop_game].
    destruct (decide (r = "coins")) as [->|Hne].
    + rewrite lookup_singleton_eq. cbn. unfold MaxInt. lia.
    + rewrite lookup_singleton_ne by done. cbn. unfold MaxInt. lia.
  - vm_compute. reflexivity.
Defined.

(** X7: scaledCost returns a table with exactly the keys of the base table,
    for every multiplier and tier; and every tier at or below 1 (zero and
    negative tiers, above the smallest int) is priced as tier 1, because the
    exponent tier-1 is floored at 0 by maxInt. *)
Theorem scaledCost_keys_and_floor base m t :
  dom (scaledCost base m t) = dom base
  /\ (MinInt < t <= 1 -> scaledCost base m t = scaledCost base m 1).
Proof.
  split.
  - apply set_eq. intros r. rewrite !elem_of_dom, scaledCost_lookup.
    by destruct (base !! r).
  - intros Ht. unfold scaledCost. replace (maxInt (wrap (t - 1)) 0) with 0; [done|].
    rewrite wrap_id, maxInt_spec; unfold is_int, MinInt, MaxInt in *; lia.
Qed.

Lemma scaledCost_keys_and_floor_witness :
  scaledCost {[ "coins" := 10 ]} 3 (-4) = scaledCost {[ "coins" := 10 ]} 3 1.
Proof.
  apply (proj2 (scaledCost_keys_and_floor {[ "coins" := 10 ]} 3 (-4))).
  unfold MinInt. lia.
Defined.


(** *** A producer that is due *)

(** X8: One call of PassiveProductionState.apply on a producer that is due
    (NextAt <= now) with positive interval and quantity catches up all
    missed intervals at once: with k = floor((now - NextAt) / ProdRate) + 1
    it moves NextAt forward by k * ProdRate, which lands strictly after now
    and at most one interval after it, credits the producer's resource with
    k * ProdQuant (in int arithmetic), keeps the producer's definition and
    touches no other resource. *)
Theorem apply_catches_up now p resources :
  ps_NextAt p <= now ->
  0 < pp_ProdRate (ps_Definition p) -> 0 < pp_ProdQuant (ps_Definition p) ->
  let d := ps_Definition p in
  let k := (now - ps_NextAt p) / pp_ProdRate d + 1 in
  let p' := fst (apply now p resources) in
  let resources' := snd (apply now p resources) in
  ps_Definition p' = d
  /\ ps_NextAt p' = ps_NextAt p + k * pp_ProdRate d
  /\ now < ps_NextAt p' <= now + pp_ProdRate d
  /\ balance resources' (pp_Resource d)
     = wrap (balance resources (pp_Resource d) + k * pp_ProdQuant d)
  /\ forall r, r <> pp_Resource d -> resources' !! r = resources !! r.
Proof.
  intros Hdue Hrate Hquant d k p' resources'.
  destruct (apply_runs_loop now p resources Hdue Hrate Hquant) as [Hrun Hdef].
  apply catch_up_rounds in Hrun
    as (k' & Hk' & Hnext & Hexit & Hzero & Hlast & Hbal & Hother).
  cbn [fst snd] in *. fold d p' resources' in Hnext, Hexit, Hzero, Hlast, Hbal, Hother, Hdef.
  assert (Hpos : 0 < k').
  { destruct (Z.eq_dec k' 0) as [->|]; [|lia].
    specialize (Hzero eq_refl). injection Hzero as Hz _. lia. }
  specialize (Hlast Hpos). specialize (Hbal Hpos).
  assert (Hk : k = k').
  { subst k. assert ((now - ps_NextAt p) / pp_ProdRate d = k' - 1); [|lia].
    symmetry. apply Z.div_unique with (r := now - ps_NextAt p - (k' - 1) * pp_ProdRate d); lia. }
  rewrite Hk. repeat split; try done; lia.
Qed.

Lemma apply_catches_up_witness :
  ps_NextAt (fst (apply 3500000000
                    {| ps_Definition := {| pp_Resource := "coins"; pp_ProdRate := second;
                                           pp_ProdQuant := 3 |};
                       ps_NextAt := second |}
                    {[ "coins" := 10 ]}))
  = 4 * second.
Proof.
  refine (eq_trans (proj1 (proj2 (apply_catches_up 3500000000
            {| ps_Definition := {| pp_Resource := "coins"; pp_ProdRate := second;
                                   pp_ProdQuant := 3 |};
               ps_NextAt := second |}
            {[ "coins" := 10 ]} _ _ _))) _);
    vm_compute; try reflexivity; discriminate.
Defined.

(** X9: After Update(now), for every state and every instant, no passive
    producer is left due: each one either has its next-fire instant strictly
    after now, or has a non-positive interval or quantity (the ones apply
    skips at its guard). *)
Theorem Update_leaves_no_producer_due now g :
  Forall (producer_quiet now) (Production (Update now g)).
Proof.
  unfold Update.
  pose proof (applyAll_settles now (Production g) (Resources g)) as Hprod.
  destruct (applyAll now (Production g) (Resources g)) as [production r1].
  destruct (updateIndustries now (Industries g) r1) as [industries r2].
  exact Hprod.
Qed.

(** *** What [Update] keeps *)

Lemma apply_shape now p resources :
  ps_Definition (fst (apply now p resources)) = ps_Definition p.
Proof.
  unfold apply. destruct (now <? ps_NextAt p); [done|].
  destruct (_ || _); [done|]. by destruct (catch_up _ _ _ _ _) as [[]|].
Qed.

Lemma apply_other now p resources r :
  pp_Resource (ps_Definition p) <> r ->
  snd (apply now p resources) !! r = resources !! r.
Proof.
  intros Hr.
  destruct (Z.lt_ge_cases now (ps_NextAt p)) as [Hlt|Hdue].
  { by rewrite apply_not_due. }
  destruct (Z.le_gt_cases (pp_ProdRate (ps_Definition p)) 0) as [Hrate|Hrate].
  { by rewrite apply_defensive by (by left). }
  destruct (Z.le_gt_cases (pp_ProdQuant (ps_Definition p)) 0) as [Hquant|Hquant].
  { by rewrite apply_defensive by (by right). }
  destruct (apply_runs_loop now p resources Hdue Hrate Hquant) as [Hrun _].
  apply catch_up_rounds in Hrun as (k & _ & _ & _ & _ & _ & _ & Hother).
  apply Hother. congruence.
Qed.

Lemma applyAll_shape now production resources :
  ps_Definition <$> fst (applyAll now production resources) = ps_Definition <$> production.
Proof.
  revert resources. induction production as [|p production IH]; intros resources; [done|].
  cbn [applyAll]. pose proof (apply_shape now p resources) as Hp.
  destruct (apply now p resources) as [p' r1].
  specialize (IH r1). destruct (applyAll now production r1) as [rest' r2].
  cbn [fst] in *. cbn. by rewrite Hp, IH.
Qed.

Lemma applyAll_other now production resources r :
  Forall (fun p => pp_Resource (ps_Definition p) <> r) production ->
  snd (applyAll now production resources) !! r = resources !! r.
Proof.
  intros Hall. revert resources.
  induction Hall as [|p production Hp _ IH]; intros resources; [done|].
  cbn [applyAll]. pose proof (apply_other now p resources r Hp) as Hr.
  destruct (apply now p resources) as [p' r1].
  specialize (IH r1). destruct (applyAll now production r1) as [rest' r2].
  cbn [snd] in *. congruence.
Qed.

Lemma applyProduction_other resources ind k w r :
  is_Workers ind !! k = Some w ->
  wc_Produces (ws_Definition w) <> r ->
  fst (applyProduction resources ind k) !! r = resources !! r.
Proof.
  intros Hk Hr. unfold applyProduction. rewrite Hk.
  destruct (ws_Owned w =? 0); [done|].
  destruct (findWorkerIndex _ _); [done|].
  case_decide as Heq; cbn [fst]; apply lookup_credit_ne; congruence.
Qed.

Lemma updateWorker_other now resources ind k w r :
  is_Workers ind !! k = Some w ->
  wc_Produces (ws_Definition w) <> r ->
  fst (updateWorker now (resources, ind) k) !! r = resources !! r.
Proof.
  intros Hk Hr. unfold updateWorker. rewrite Hk.
  set (w1 := if ws_Auto w && negb (ws_Running w) && (ws_Owned w >? 0)
             then start_cycle now w else w).
  assert (Hdef1 : ws_Definition w1 = ws_Definition w) by (subst w1; by destruct (_ && _)).
  destruct (negb (ws_Running w1)); [done|].
  destruct (now <? ws_EndsAt w1); [done|].
  pose proof (applyProduction_other resources
                (set_Workers (<[k := w1]> (is_Workers ind)) ind) k w1 r) as Hp.
  destruct (applyProduction _ _ k) as [r2 ind2]. cbn [fst] in *.
  apply Hp; [|congruence]. cbn [is_Workers set_Workers].
  apply list_lookup_insert_eq. by eapply lookup_lt_Some.
Qed.

(** The inner loop over any list of indices: the industry keeps its keys and
    its workers' definitions, and the ledger keeps the entries no worker
    produces. *)
Lemma updateWorkers_keep now ind r l :
  forall resources ws,
    ws_Definition <$> ws = ws_Definition <$> is_Workers ind ->
    exists resources' ws',
      foldl (updateWorker now) (resources, set_Workers ws ind) l
      = (resources', set_Workers ws' ind)
      /\ ws_Definition <$> ws' = ws_Definition <$> is_Workers ind
      /\ (Forall (fun d => wc_Produces d <> r) (ws_Definition <$> is_Workers ind) ->
          resources' !! r = resources !! r).
Proof.
  induction l as [|k l IH]; intros resources ws Hdefs.
  { exists resources, ws. by repeat split. }
  cbn [foldl].
  destruct (ws !! k) as [w|] eqn:Hk.
  - destruct (updateWorker_step now resources (set_Workers ws ind) k w Hk)
      as (r1 & ws1 & Hstep & Hdefs1 & _ & _).
    pose proof (updateWorker_other now resources (set_Workers ws ind) k w r Hk) as Hother.
    rewrite Hstep in *. cbn [is_Workers set_Workers fst] in *.
    destruct (IH r1 ws1 ltac:(congruence)) as (r2 & ws2 & Hfold & Hdefs2 & Hledger).
    exists r2, ws2. split; [exact Hfold|]. split; [done|].
    intros Hall. rewrite (Hledger Hall). apply Hother.
    rewrite Forall_lookup in Hall. apply (Hall k).
    by rewrite <- Hdefs, list_lookup_fmap, Hk.
  - assert (Hsame : updateWorker now (resources, set_Workers ws ind) k
                    = (resources, set_Workers ws ind)).
    { unfold updateWorker. cbn [is_Workers set_Workers]. by rewrite Hk. }
    rewrite Hsame. by apply IH.
Qed.

Lemma updateIndustry_keeps now resources ind r :
  industry_shape (snd (updateIndustry now resources ind)) = industry_shape ind
  /\ (Forall (fun d => wc_Produces d <> r) (ws_Definition <$> is_Workers ind) ->
      fst (updateIndustry now resources ind) !! r = resources !! r).
Proof.
  unfold updateIndustry.
  destruct (updateWorkers_keep now ind r (seq 0 (length (is_Workers ind)))
              resources (is_Workers ind) eq_refl) as (r' & ws' & Hfold & Hdefs & Hledger).
  rewrite set_Workers_same in Hfold. rewrite Hfold. cbn [fst snd].
  split; [|done]. unfold industry_shape. cbn. by rewrite Hdefs.
Qed.

Lemma updateIndustries_keep now industries resources r :
  industry_shape <$> fst (updateIndustries now industries resources)
  = industry_shape <$> industries
  /\ (Forall (fun ind => Forall (fun d => wc_Produces d <> r)
                                (ws_Definition <$> is_Workers ind)) industries ->
      snd (updateIndustries now industries resources) !! r = resources !! r).
Proof.
  revert resources. induction industries as [|ind industries IH]; intros resources; [done|].
  cbn [updateIndustries].
  destruct (updateIndustry_keeps now resources ind r) as [Hshape Hledger].
  destruct (updateIndustry now resources ind) as [r1 ind'].
  destruct (IH r1) as [Hshapes Hledgers].
  destruct (updateIndustries now industries r1) as [rest' r2].
  cbn [fst snd] in *. split; [cbn; by rewrite Hshape, Hshapes|].
  intros Hall. apply Forall_cons in Hall as [Hind Hrest].
  rewrite (Hledgers Hrest). by apply Hledger.
Qed.

Lemma Update_shape now g :
  game_shape (Update now g) = game_shape g
  /\ BuyModeMax (Update now g) = BuyModeMax g
  /\ DevMode (Update now g) = DevMode g.
Proof.
  unfold Update, game_shape.
  pose proof (applyAll_shape now (Production g) (Resources g)) as Hshape1.
  destruct (applyAll now (Production g) (Resources g)) as [production r1].
  pose proof (updateIndustries_keep now (Industries g) r1 "") as [Hkeep _].
  destruct (updateIndustries now (Industries g) r1) as [industries r2].
  cbn [fst snd Industries Production Resources BuyModeMax DevMode] in *.
  by rewrite Hkeep, Hshape1.
Qed.

(** X10: Update never changes the keys, names, resources or definitions of
    industries, workers and passive producers, nor the buy-max and
    developer-mode flags; and it leaves untouched every ledger entry whose
    key is neither the resource of a passive producer nor the Produces field
    of a worker. *)
Theorem Update_keeps g now :
  game_shape (Update now g) = game_shape g
  /\ BuyModeMax (Update now g) = BuyModeMax g
  /\ DevMode (Update now g) = DevMode g
  /\ forall r, ~ names_resource r g -> Resources (Update now g) !! r = Resources g !! r.
Proof.
  destruct (Update_shape now g) as (Hshape & Hmax & Hdev).
  split; [done|]. split; [done|]. split; [done|].
  unfold Update.
  pose proof (fun r => applyAll_other now (Production g) (Resources g) r) as Hother1.
  destruct (applyAll now (Production g) (Resources g)) as [production r1].
  pose proof (fun r => updateIndustries_keep now (Industries g) r1 r) as Hkeep.
  destruct (updateIndustries now (Industries g) r1) as [industries r2].
  cbn [fst snd Resources] in *.
  intros r Hr. destruct (Hkeep r) as [_ Hledger].
  rewrite Hledger, Hother1; [done| |].
  - apply Forall_forall. intros p Hp Heq. apply Hr. left.
    apply Exists_exists. eauto.
  - apply Forall_forall. intros ind Hind. apply Forall_forall. intros d Hd Heq.
    apply Hr. right. apply Exists_exists. exists ind. split; [done|].
    apply list_elem_of_fmap in Hd as (w & -> & Hw). apply Exists_exists. eauto.
Qed.

Lemma Update_keeps_witness :
  Resources (Update second running_game) !! "gems" = Resources running_game !! "gems".
Proof.
  apply (proj2 (proj2 (proj2 (Update_keeps running_game second)))).
  intros [Hp|Hw].
  - cbn in Hp. apply Exists_cons in Hp as [Hp|Hp]; [discriminate|inversion Hp].
  - cbn in Hw. apply Exists_cons in Hw as [Hw|Hw]; [|inversion Hw].
    apply Exists_cons in Hw as [Hw|Hw]; [discriminate|inversion Hw].
Defined.

(** X11: Update changes nothing at all when nothing is due: if at instant
    now every passive producer is not yet due (or has a non-positive
    interval or quantity), every running worker's cycle ends strictly after
    now, and no idle auto worker owns a unit, then Update at now or at any
    earlier instant returns the state unchanged. *)
Theorem Update_at_rest now now' g :
  now' <= now -> quiet now g -> Update now' g = g.
Proof.
  intros Hle [Hprod Hinds]. unfold Update.
  rewrite (applyAll_quiet now) by done.
  rewrite (updateIndustries_quiet now) by done.
  by destruct g.
Qed.

Lemma Update_at_rest_witness : Update 500000000 running_game = running_game.
Proof.
  apply (Update_at_rest 500000000 500000000 running_game).
  - lia.
  - split.
    + constructor; [|constructor]. left. reflexivity.
    + constructor; [|constructor]. constructor; [|constructor].
      split; [intros _; reflexivity|reflexivity].
Defined.


(** *** What a load keeps *)

Lemma applyWorkers_shape lookup workers :
  ws_Definition <$> fst (applyWorkers lookup workers) = ws_Definition <$> workers.
Proof.
  induction workers as [|w workers IH]; [done|].
  cbn [applyWorkers]. destruct (lookup !! _) as [sw|]; [|done].
  destruct (applyWorkers lookup workers) as [rest' err]. cbn in *. by rewrite IH.
Qed.

Lemma applyIndustries_shape lookup industries :
  industry_shape <$> fst (applyIndustries lookup industries) = industry_shape <$> industries.
Proof.
  induction industries as [|ind industries IH]; [done|].
  cbn [applyIndustries]. destruct (lookup !! _) as [si|]; [|done].
  pose proof (applyWorkers_shape (workerLookup (si_Workers si)) (is_Workers ind)) as Hws.
  destruct (applyWorkers _ (is_Workers ind)) as [ws' [err|]]; cbn [fst] in *.
  - cbn. unfold industry_shape at 1. cbn. by rewrite Hws.
  - destruct (applyIndustries lookup industries) as [rest' err]. cbn in *.
    unfold industry_shape at 1. cbn. by rewrite Hws, IH.
Qed.

Lemma restoreProduction_shape production saved :
  ps_Definition <$> restoreProduction production saved = ps_Definition <$> production.
Proof.
  revert saved. induction production as [|p production IH]; intros [|sp saved]; try done.
  cbn. by rewrite IH.
Qed.

Lemma applySnapshot_shape g s :
  game_shape (fst (applySnapshot g s)) = game_shape g.
Proof.
  unfold applySnapshot. destruct (sg_Resources s); [|done].
  destruct (negb _); [done|]. destruct (negb _); [done|].
  pose proof (applyIndustries_shape (industryLookup (sg_Industries s)) (Industries g)) as Hshape.
  destruct (applyIndustries _ _) as [inds [err|]]; cbn [fst] in *; unfold game_shape; cbn.
  - by rewrite Hshape.
  - by rewrite Hshape, restoreProduction_shape.
Qed.

(** X12: applySnapshot, whether it succeeds or fails, never changes the
    keys, names, resources or definitions of industries, workers and passive
    producers. When it fails, the ledger, the passive producers and both
    mode flags are as before the call. When it fails at one of its three
    first checks (nil resource map, industry count mismatch, production
    count mismatch) the whole state is unchanged. *)
Theorem load_keeps_the_definitions g s :
  game_shape (fst (applySnapshot g s)) = game_shape g
  /\ (forall err, snd (applySnapshot g s) = Some err ->
        Resources (fst (applySnapshot g s)) = Resources g
        /\ Production (fst (applySnapshot g s)) = Production g
        /\ BuyModeMax (fst (applySnapshot g s)) = BuyModeMax g
        /\ DevMode (fst (applySnapshot g s)) = DevMode g)
  /\ (sg_Resources s = None \/ length (sg_Industries s) <> length (Industries g)
      \/ length (sg_Production s) <> length (Production g) ->
      fst (applySnapshot g s) = g /\ snd (applySnapshot g s) <> None).
Proof.
  split; [apply applySnapshot_shape|]. split.
  - intros err Herr. apply (applySnapshot_error_keeps g s _ err).
    destruct (applySnapshot g s) as [g' e]. cbn in *. by subst.
  - unfold applySnapshot. intros Hbad.
    destruct (sg_Resources s) as [r|]; [|done].
    destruct (Nat.eqb_spec (length (sg_Industries s)) (length (Industries g))); [|done].
    destruct (Nat.eqb_spec (length (sg_Production s)) (length (Production g))); [|done].
    by destruct Hbad as [|[|]].
Qed.

Lemma load_keeps_the_definitions_witness :
  fst (applySnapshot two_industries odd_save) = two_industries
  /\ snd (applySnapshot two_industries odd_save) <> None.
Proof.
  apply (proj2 (proj2 (load_keeps_the_definitions two_industries odd_save))).
  right. left. cbn. lia.
Defined.

(** *** A load that succeeds forgets the state it replaces *)

Lemma restoreWorker_by_definition sw (w1 w2 : WorkerState) :
  ws_Definition w1 = ws_Definition w2 -> restoreWorker sw w1 = restoreWorker sw w2.
Proof. unfold restoreWorker. by intros ->. Qed.

Lemma restoreWorkers_by_shape lookup (ws1 ws2 : list WorkerState) :
  workers_found lookup ws1 ->
  ws_Definition <$> ws1 = ws_Definition <$> ws2 ->
  workers_found lookup ws2 /\ restoreWorkers lookup ws1 = restoreWorkers lookup ws2.
Proof.
  intros Hfound. revert ws2.
  induction Hfound as [|w1 ws1 [sw Hsw] _ IH]; intros [|w2 ws2]; try done.
  { split; [constructor|done]. }
  intros [= Hdef Hrest]. destruct (IH ws2 Hrest) as [Hfound2 Heq].
  assert (Hsw2 : lookup !! worker_key w2 = Some sw).
  { unfold worker_key in *. by rewrite <- Hdef. }
  split; [constructor; [by exists sw|done]|].
  unfold restoreWorkers in *. cbn [map]. rewrite Hsw, Hsw2, Heq. f_equal.
  by apply restoreWorker_by_definition.
Qed.

Lemma restoreIndustries_by_shape lookup (inds1 inds2 : list IndustryState) :
  industries_found lookup inds1 ->
  industry_shape <$> inds1 = industry_shape <$> inds2 ->
  industries_found lookup inds2
  /\ restoreIndustries lookup inds1 = restoreIndustries lookup inds2.
Proof.
  intros Hfound. revert inds2.
  induction Hfound as [|ind1 inds1 (si & Hsi & Hws) _ IH]; intros [|ind2 inds2]; try done.
  { split; [constructor|done]. }
  intros [= Hkey Hname Hres Hdefs Hrest]. destruct (IH inds2 Hrest) as [Hfound2 Heq].
  destruct (restoreWorkers_by_shape _ _ _ Hws Hdefs) as [Hws2 Hwseq].
  assert (Hsi2 : lookup !! is_Key ind2 = Some si) by (by rewrite <- Hkey).
  split; [constructor; [by exists si|done]|].
  unfold restoreIndustries in *. cbn [map]. rewrite Hsi, Hsi2, Heq, Hwseq. f_equal.
  destruct ind1, ind2. cbn in *. by subst.
Qed.

Lemma restoreProduction_by_shape (p1 p2 : list PassiveProductionState) saved :
  ps_Definition <$> p1 = ps_Definition <$> p2 ->
  length saved = length p1 ->
  restoreProduction p1 saved = restoreProduction p2 saved.
Proof.
  revert p2 saved. induction p1 as [|x p1 IH]; intros [|y p2] [|sp saved]; try done.
  intros [= Hdef Hrest] [= Hlen]. cbn. rewrite (IH p2 saved Hrest Hlen).
  f_equal. unfold set_NextAt. by rewrite Hdef.
Qed.

(** X13: A successful applySnapshot depends on the live state only through
    its keys and definitions: if loading snapshot s into g1 succeeds with
    result g', then loading s into any state with the same keys and
    definitions as g1 succeeds with the same g' (owned-counts, tiers, flags,
    cycles, ledger and next-fire instants of the live state play no part),
    and loading s again into g' succeeds and changes nothing. *)
Theorem load_forgets_the_live_state g1 s g' :
  applySnapshot g1 s = (g', None) ->
  (forall g2, game_shape g2 = game_shape g1 -> applySnapshot g2 s = (g', None))
  /\ applySnapshot g' s = (g', None).
Proof.
  intros Happly.
  assert (Hany : forall g2, game_shape g2 = game_shape g1 ->
                   applySnapshot g2 s = (g', None)).
  { intros g2 [= Hinds Hprod].
    destruct (applySnapshot_success g1 s) as (resources & Hres & Hli & Hlp & Hfound).
    { by rewrite Happly. }
    rewrite (applySnapshot_valid g1 s resources Hres Hli Hlp Hfound) in Happly.
    injection Happly as <-.
    destruct (restoreIndustries_by_shape _ _ (Industries g2) Hfound) as [Hfound2 Heq]; [done|].
    assert (Hli2 : length (sg_Industries s) = length (Industries g2)).
    { rewrite Hli, <- (length_fmap industry_shape (Industries g1)), <- Hinds.
      apply length_fmap. }
    assert (Hlp2 : length (sg_Production s) = length (Production g2)).
    { rewrite Hlp, <- (length_fmap ps_Definition (Production g1)), <- Hprod.
      apply length_fmap. }
    rewrite (applySnapshot_valid g2 s resources Hres Hli2 Hlp2 Hfound2).
    by rewrite Heq, (restoreProduction_by_shape _ (Production g2) _ (eq_sym Hprod) Hlp). }
  split; [exact Hany|]. apply Hany.
  pose proof (applySnapshot_shape g1 s) as Hshape. by rewrite Happly in Hshape.
Qed.

Lemma load_forgets_the_live_state_witness :
  applySnapshot (after (BuyWorker shop_game 0 0) shop_game) odd_save
  = (fst (applySnapshot shop_game odd_save), None).
Proof.
  apply (proj1 (load_forgets_the_live_state shop_game odd_save _ eq_refl)).
  reflexivity.
Defined.


(** *** Accepted configurations *)

Lemma is_empty_string_spec s : is_empty_string s = true <-> s = "".
Proof. by destruct s. Qed.

Lemma is_empty_string_false s : is_empty_string s = false <-> s <> "".
Proof. by destruct s. Qed.

Lemma checkWorker_spec industry j w :
  (worker_accepted w -> checkWorker industry j w = inr (coinsPriced w))
  /\ (forall w', checkWorker industry j w = inr w' -> worker_accepted w /\ w' = coinsPriced w).
Proof.
  unfold checkWorker, worker_accepted, coinsPriced. split.
  - intros (Hk & Hn & Hr & Hq & Hm & Hl & [cost Hc]).
    apply is_empty_string_false in Hk, Hn. rewrite Hk, Hn, Hm, Hc.
    destruct (Z.leb_spec (wc_ProdRate w) 0); [lia|].
    destruct (Z.leb_spec (wc_ProdQuant w) 0); [lia|].
    by destruct (Z.leb_spec (wc_Level w) 0); [lia|].
  - intros w'.
    destruct (is_empty_string (wc_Key w)) eqn:Hk; [done|].
    destruct (is_empty_string (wc_WorkerName w)) eqn:Hn; [done|].
    destruct (Z.leb_spec (wc_ProdRate w) 0); [done|].
    destruct (Z.leb_spec (wc_ProdQuant w) 0); [done|].
    destruct (wc_UpgradeMult w <=? 0)%float eqn:Hm; [done|].
    destruct (Z.leb_spec (wc_Level w) 0); [done|].
    destruct (wc_Cost w) as [cost|] eqn:Hc; [|done].
    intros [= <-]. apply is_empty_string_false in Hk, Hn. by repeat split.
Qed.

Lemma checkWorkers_spec industry workers :
  forall j,
    (Forall worker_accepted workers ->
     checkWorkers industry j workers = inr (coinsPriced <$> workers))
    /\ (forall ws', checkWorkers industry j workers = inr ws' ->
          Forall worker_accepted workers /\ ws' = coinsPriced <$> workers).
Proof.
  induction workers as [|w workers IH]; intros j.
  { split; [done|]. by intros ws' [= <-]. }
  destruct (checkWorker_spec industry j w) as [Hyes Hno].
  destruct (IH (S j)) as [IHyes IHno]. cbn [checkWorkers]. split.
  - intros Hall. apply Forall_cons in Hall as [Hw Hrest].
    by rewrite (Hyes Hw), (IHyes Hrest).
  - intros ws'. destruct (checkWorker industry j w) as [e|w'] eqn:Hw; [done|].
    destruct (checkWorkers industry (S j) workers) as [e|rest'] eqn:Hrest; [done|].
    intros [= <-]. destruct (Hno w' eq_refl) as [Hacc ->].
    destruct (IHno rest' eq_refl) as [Haccs ->]. by split; [constructor|].
Qed.

Lemma checkIndustry_spec i ic :
  (industry_accepted ic -> checkIndustry i ic = inr (pricedIndustry ic))
  /\ (forall ic', checkIndustry i ic = inr ic' ->
        industry_accepted ic /\ ic' = pricedIndustry ic).
Proof.
  unfold checkIndustry, industry_accepted, pricedIndustry.
  destruct (checkWorkers_spec (ic_Key ic) (ic_Workers ic) 0) as [Hyes Hno]. split.
  - intros (Hk & Hr & Hne & Hws). apply is_empty_string_false in Hk, Hr.
    rewrite Hk, Hr, (Hyes Hws). by destruct (ic_Workers ic).
  - intros ic'.
    destruct (is_empty_string (ic_Key ic)) eqn:Hk; [done|].
    destruct (is_empty_string (ic_Resource ic)) eqn:Hr; [done|].
    destruct (Nat.eqb_spec (length (ic_Workers ic)) 0) as [|Hlen]; [done|].
    destruct (checkWorkers _ _ _) as [e|ws'] eqn:Hws; [done|].
    intros [= <-]. destruct (Hno ws' eq_refl) as [Hacc ->].
    apply is_empty_string_false in Hk, Hr. repeat split; try done.
    intros Hnil. by rewrite Hnil in Hlen.
Qed.

Lemma checkIndustries_spec industries :
  forall i,
    (Forall industry_accepted industries ->
     checkIndustries i industries = inr (pricedIndustry <$> industries))
    /\ (forall ics', checkIndustries i industries = inr ics' ->
          Forall industry_accepted industries /\ ics' = pricedIndustry <$> industries).
Proof.
  induction industries as [|ic industries IH]; intros i.
  { split; [done|]. by intros ics' [= <-]. }
  destruct (checkIndustry_spec i ic) as [Hyes Hno].
  destruct (IH (S i)) as [IHyes IHno]. cbn [checkIndustries]. split.
  - intros Hall. apply Forall_cons in Hall as [Hic Hrest].
    by rewrite (Hyes Hic), (IHyes Hrest).
  - intros ics'. destruct (checkIndustry i ic) as [e|ic'] eqn:Hic; [done|].
    destruct (checkIndustries (S i) industries) as [e|rest'] eqn:Hrest; [done|].
    intros [= <-]. destruct (Hno ic' eq_refl) as [Hacc ->].
    destruct (IHno rest' eq_refl) as [Haccs ->]. by split; [constructor|].
Qed.

Lemma checkProduction_spec production :
  forall i, checkProduction i production = None <-> Forall production_accepted production.
Proof.
  induction production as [|p production IH]; intros i; [split; [constructor|done]|].
  cbn [checkProduction]. unfold production_accepted at 1.
  rewrite Forall_cons.
  destruct (is_empty_string (pp_Resource p)) eqn:Hr.
  { apply is_empty_string_spec in Hr. split; [done|]. by intros [(? & _) _]. }
  apply is_empty_string_false in Hr.
  destruct (Z.leb_spec (pp_ProdRate p) 0); [split; [done|intros [(_ & ? & _) _]; lia]|].
  destruct (Z.leb_spec (pp_ProdQuant p) 0); [split; [done|intros [(_ & _ & ?) _]; lia]|].
  rewrite IH. split; [intros Hall; by repeat split|by intros [_ Hall]].
Qed.

Lemma validateConfig_inr cfg cfg' :
  validateConfig cfg = inr cfg' -> config_accepted cfg /\ cfg' = priced cfg.
Proof.
  unfold validateConfig, config_accepted, priced.
  destruct (checkIndustries_spec (cfg_Industries cfg) 0) as [_ Hno].
  pose proof (checkProduction_spec (cfg_StartingProduction cfg) 0) as Hprod.
  destruct (Nat.eqb_spec (length (cfg_Industries cfg)) 0) as [|Hlen]; [done|].
  destruct (checkIndustries 0 (cfg_Industries cfg)) as [e|ics'] eqn:Hics; [done|].
  destruct (checkProduction 0 (cfg_StartingProduction cfg)) as [e|] eqn:Hp; [done|].
  intros [= <-]. destruct (Hno ics' eq_refl) as [Hacc ->].
  repeat split; try done; [|by apply Hprod].
  intros Hnil. by rewrite Hnil in Hlen.
Qed.

(** X14: The validation LoadConfig runs on a parsed configuration succeeds
    exactly when there is at least one industry, every industry has a
    non-empty key, a non-empty resource and at least one worker, every
    worker has a non-empty key and workerName, positive prodRate, prodQuant
    and level, an upgradeMult that is not <= 0 and a non-nil cost map, and
    every starting-production entry has a non-empty resource and positive
    prodRate and prodQuant. On success the result is the input configuration
    with cost["coins"] of every worker set to its level (overwriting a
    configured coins price); nothing else is changed. *)
Theorem validateConfig_accepts cfg :
  (config_accepted cfg -> validateConfig cfg = inr (priced cfg))
  /\ (forall cfg', validateConfig cfg = inr cfg' ->
        config_accepted cfg /\ cfg' = priced cfg).
Proof.
  split; [|apply validateConfig_inr].
  unfold validateConfig, config_accepted, priced.
  destruct (checkIndustries_spec (cfg_Industries cfg) 0) as [Hyes _].
  pose proof (checkProduction_spec (cfg_StartingProduction cfg) 0) as Hprod.
  intros (Hne & Hinds & Hps). rewrite (Hyes Hinds), (proj2 Hprod Hps).
  by destruct (cfg_Industries cfg).
Qed.

Lemma validateConfig_accepts_witness :
  validateConfig chain_config = inr (priced chain_config).
Proof.
  apply (proj1 (validateConfig_accepts chain_config)).
  split; [done|]. split; [|constructor].
  constructor; [|constructor]. split; [done|]. split; [done|]. split; [done|].
  repeat constructor; try done; by eexists.
Defined.

Lemma coinsPriced_accepted w : worker_accepted w -> worker_accepted (coinsPriced w).
Proof. intros (? & ? & ? & ? & ? & ? & ?). by repeat split. Qed.

Lemma coinsPriced_again w : coinsPriced (coinsPriced w) = coinsPriced w.
Proof. unfold coinsPriced. cbn. by rewrite insert_insert_eq. Qed.

Lemma priced_accepted cfg : config_accepted cfg -> config_accepted (priced cfg).
Proof.
  intros (Hne & Hinds & Hps). split; [|split; [|done]].
  - cbn. by destruct (cfg_Industries cfg).
  - cbn. apply Forall_fmap. eapply Forall_impl; [exact Hinds|].
    intros ic (Hk & Hr & Hws & Hall). split; [done|]. split; [done|]. split.
    + cbn. by destruct (ic_Workers ic).
    + cbn. apply Forall_fmap. eapply Forall_impl; [exact Hall|].
      intros w. apply coinsPriced_accepted.
Qed.

Lemma priced_again cfg : priced (priced cfg) = priced cfg.
Proof.
  unfold priced. cbn. f_equal. rewrite <- list_fmap_compose.
  apply list_fmap_ext. intros _ ic _. unfold pricedIndustry. cbn. f_equal.
  rewrite <- list_fmap_compose. apply list_fmap_ext. intros _ w _.
  apply coinsPriced_again.
Qed.

(** X15: A configuration that LoadConfig's validation returns is accepted
    unchanged when validated again, and in it every worker's cost table
    prices "coins" at the worker's level, which is positive: no worker of an
    accepted configuration is free or has an empty cost table. *)
Theorem validateConfig_fixes_its_result cfg cfg' :
  validateConfig cfg = inr cfg' ->
  validateConfig cfg' = inr cfg'
  /\ Forall (fun ic =>
               Forall (fun w => entries (wc_Cost w) !! "coins" = Some (wc_Level w)
                                /\ 0 < wc_Level w)
                      (ic_Workers ic))
            (cfg_Industries cfg').
Proof.
  intros Hv.
  destruct (validateConfig_inr cfg cfg' Hv) as [Hacc ->]. split.
  - pose proof (priced_accepted cfg Hacc) as (Hne & Hinds & Hps).
    unfold validateConfig.
    destruct (checkIndustries_spec (cfg_Industries (priced cfg)) 0) as [Hyes _].
    rewrite (Hyes Hinds), (proj2 (checkProduction_spec _ 0) Hps).
    destruct (cfg_Industries (priced cfg)) eqn:Hl; [done|].
    cbn [length Nat.eqb]. rewrite <- Hl.
    change (inr (priced (priced cfg)) = inr (priced cfg) :> ConfigError + GameConfig).
    by rewrite priced_again.
  - destruct Hacc as (_ & Hinds & _). cbn. apply Forall_fmap.
    eapply Forall_impl; [exact Hinds|]. intros ic (_ & _ & _ & Hws). cbn.
    apply Forall_fmap. eapply Forall_impl; [exact Hws|].
    intros w (_ & _ & _ & _ & _ & Hl & _). cbn. by rewrite lookup_insert_eq.
Qed.


Lemma validateConfig_fixes_its_result_witness :
  validateConfig (priced chain_config) = inr (priced chain_config).
Proof.
  apply (validateConfig_fixes_its_result chain_config (priced chain_config)).
  reflexivity.
Defined.

(** *** Built games and the states of a run *)

Lemma BuildGame_built clock cfg g :
  BuildGame clock cfg = inr g ->
  game_shape g = config_shape cfg
  /\ (length (cfg_Industries cfg) <= 5)%nat
  /\ Resources g = entries (cfg_StartingResources cfg)
  /\ BuyModeMax g = false /\ DevMode g = false
  /\ (forall i j, worker_at g i j
                  = fresh_worker j <$> (cfg_Industries cfg !! i ≫= fun ic => ic_Workers ic !! j))
  /\ (forall k, Production g !! k
                = (fun d => {| ps_Definition := d; ps_NextAt := clock k + pp_ProdRate d |})
                  <$> cfg_StartingProduction cfg !! k).
Proof.
  unfold BuildGame. rewrite length_map.
  destruct (Nat.ltb_spec 5 (length (cfg_Industries cfg))) as [|Hlen]; [done|].
  intros [= <-]. unfold game_shape, config_shape, worker_at, buildPassiveProduction.
  cbn [Industries Production Resources BuyModeMax DevMode].
  change (map ?f ?l) with (f <$> l).
  split; [|split; [lia|split; [done|split; [done|split; [done|split]]]]].
  - f_equal.
    + rewrite <- list_fmap_compose. apply list_fmap_ext. intros _ ic _.
      unfold industry_shape. cbn. f_equal. rewrite fmap_imap.
      apply list_eq. intros j. rewrite list_lookup_imap. by destruct (_ !! j).
    + apply list_eq. intros k. rewrite list_lookup_fmap, list_lookup_imap.
      by destruct (_ !! k).
  - intros i j. rewrite list_lookup_fmap. destruct (cfg_Industries cfg !! i) as [ic|]; [|done].
    cbn. by rewrite list_lookup_imap.
  - intros k. by rewrite list_lookup_imap.
Qed.

(** X16: BuildGame fails, with "too many industries", exactly when the
    configuration has more than 5 industries. Otherwise it returns a state
    with the configuration's industries and workers in order and with their
    keys, names, resources and definitions, the starting resources as
    ledger, both mode flags off, every worker at tier 1, idle, not
    automatic, with a zero cycle-end, owning 1 unit if it is the first
    worker of its industry and 0 otherwise, and one passive producer per
    starting-production entry whose next-fire instant is the clock reading
    plus its interval. *)
Theorem BuildGame_outcome clock cfg :
  ((length (cfg_Industries cfg) <= 5)%nat ->
   exists g, BuildGame clock cfg = inr g
     /\ game_shape g = config_shape cfg
     /\ Resources g = entries (cfg_StartingResources cfg)
     /\ BuyModeMax g = false /\ DevMode g = false
     /\ (forall i j w, worker_at g i j = Some w ->
           ws_Owned w = (if Nat.eqb j 0 then 1 else 0) /\ ws_Tier w = 1
           /\ ws_Running w = false /\ ws_Auto w = false /\ ws_EndsAt w = zeroTime)
     /\ (forall k p, Production g !! k = Some p ->
           ps_NextAt p = clock k + pp_ProdRate (ps_Definition p)))
  /\ ((5 < length (cfg_Industries cfg))%nat ->
      BuildGame clock cfg = inl (TooManyIndustries (length (cfg_Industries cfg)))).
Proof.
  split.
  - intros Hlen.
    assert (Hsome : exists g, BuildGame clock cfg = inr g).
    { unfold BuildGame. rewrite length_map.
      destruct (Nat.ltb_spec 5 (length (cfg_Industries cfg))); [lia|]. eauto. }
    destruct Hsome as [g Hg]. exists g. split; [done|].
    destruct (BuildGame_built clock cfg g Hg) as (Hshape & _ & Hres & Hmax & Hdev & Hws & Hps).
    repeat (split; [done|]). split.
    + intros i j w. rewrite Hws.
      destruct (cfg_Industries cfg !! i ≫= _) as [def|]; [|done].
      by intros [= <-].
    + intros k p. rewrite Hps. destruct (_ !! k) as [d|]; [|done]. by intros [= <-].
  - intros Hlen. unfold BuildGame. rewrite length_map.
    by destruct (Nat.ltb_spec 5 (length (cfg_Industries cfg))); [|lia].
Qed.

Lemma BuildGame_outcome_witness :
  exists g, BuildGame (fun _ => 0) chain_config = inr g /\ DevMode g = false.
Proof.
  destruct (proj1 (BuildGame_outcome (fun _ => 0) chain_config) ltac:(cbn; lia))
    as (g & Hg & _ & _ & _ & Hdev & _).
  by exists g.
Defined.

Lemma reachable_configured g : reachable g -> configured g.
Proof.
  induction 1 as [clock cfg cfg' g Hv Hb|now g _ IH|g i j now g' st _ IH Hop
                 |g i j g' st _ IH Hop|g i j g' st _ IH Hop|g _ IH|g s g' err _ IH Hop].
  - destruct (validateConfig_inr cfg cfg' Hv) as [Hacc ->].
    destruct (BuildGame_built clock _ g Hb) as (Hshape & Hlen & _).
    exists cfg. split; [done|]. split; [done|]. cbn in Hlen. by rewrite length_fmap in Hlen.
  - destruct IH as (cfg & ? & Hshape & ?). exists cfg.
    by rewrite (proj1 (Update_shape now g)).
  - destruct IH as (cfg & ? & Hshape & ?). exists cfg.
    by rewrite (proj1 (proj1 (StartRun_touches g i j now g' st Hop))).
  - destruct IH as (cfg & ? & Hshape & ?). exists cfg.
    by rewrite (proj1 (BuyWorker_touches g i j g' st Hop)).
  - destruct IH as (cfg & ? & Hshape & ?). exists cfg.
    by rewrite (proj1 (UpgradeWorker_touches g i j g' st Hop)).
  - destruct IH as (cfg & ? & Hshape & ?). by exists cfg.
  - destruct IH as (cfg & ? & Hshape & ?). exists cfg.
    pose proof (applySnapshot_shape g s) as Hs. rewrite Hop in Hs. cbn in Hs.
    by rewrite Hs.
Qed.

Lemma configured_sound g : configured g -> sound_definitions g.
Proof.
  intros (cfg & Hacc & Hshape & Hlen).
  pose proof (priced_accepted cfg Hacc) as (Hne & Hinds & Hps).
  unfold game_shape, config_shape in Hshape. injection Hshape as Hi Hp.
  assert (Hlens : length (Industries g) = length (cfg_Industries cfg)).
  { apply (f_equal length) in Hi. by rewrite !length_fmap in Hi. }
  split; [|split].
  - rewrite Hlens. split; [|done]. destruct Hacc as (Hn & _).
    destruct (cfg_Industries cfg); [done|cbn; lia].
  - apply Forall_lookup. intros i ind Hind.
    apply (f_equal (.!! i)) in Hi. rewrite !list_lookup_fmap, Hind in Hi.
    destruct (cfg_Industries cfg !! i) as [ic|] eqn:Hic; [|done].
    cbn in Hi. injection Hi as Hk Hn Hr Hw.
    assert (Hin : industry_accepted (pricedIndustry ic)).
    { eapply (proj1 (Forall_lookup _ _) Hinds). cbn.
      by rewrite list_lookup_fmap, Hic. }
    destruct Hin as (Hk' & Hr' & Hne' & Hws'). cbn in Hk', Hr', Hne', Hws'.
    split; [by rewrite Hk|]. split; [by rewrite Hr|]. split.
    + intros Hnil. rewrite Hnil in Hw. cbn in Hw. by destruct (ic_Workers ic).
    + apply Forall_lookup. intros j w Hj.
      apply (f_equal (.!! j)) in Hw. rewrite !list_lookup_fmap, Hj in Hw.
      destruct (ic_Workers ic !! j) as [wc|] eqn:Hwc; [|done].
      cbn in Hw. injection Hw as Hdef. unfold sound_worker. rewrite Hdef. split.
      * eapply (proj1 (Forall_lookup _ _) Hws'). by rewrite list_lookup_fmap, Hwc.
      * cbn. by rewrite lookup_insert_eq.
  - apply Forall_lookup. intros k p Hk.
    apply (f_equal (.!! k)) in Hp. rewrite list_lookup_fmap, Hk in Hp. cbn in Hp.
    eapply (proj1 (Forall_lookup _ _) Hps). cbn. by rewrite <- Hp.
Qed.

(** X17: Every state a run reaches (built from a configuration LoadConfig
    accepts, then changed by Update, StartRun, BuyWorker, UpgradeWorker, the
    buy-mode toggle and loads, successful or failed) has between 1 and 5
    industries, each with a non-empty key and resource and at least one
    worker; every worker's definition has a non-empty key and name, positive
    prodRate, prodQuant and level, an upgradeMult that is not <= 0 and a
    cost table pricing "coins" at its level; every passive producer has a
    non-empty resource and positive interval and quantity (so apply's guard
    on non-positive values is never taken in a run). *)
Theorem reachable_sound_definitions g : reachable g -> sound_definitions g.
Proof. intros Hg. by apply configured_sound, reachable_configured. Qed.


Lemma reachable_sound_definitions_witness : sound_definitions chain_game.
Proof. apply (reachable_sound_definitions chain_game), chain_game_reachable. Defined.

(** *** The front end: helpers *)

(** X18: For min <= max, clamp(value, min, max) lies in [min, max], is the
    value itself when the value is in that range, min when the value is
    below it and max when above, and clamping twice is clamping once. *)
Theorem clamp_bounds value min max :
  min <= max ->
  min <= clamp value min max <= max
  /\ (min <= value <= max -> clamp value min max = value)
  /\ (value < min -> clamp value min max = min)
  /\ (max < value -> clamp value min max = max)
  /\ clamp (clamp value min max) min max = clamp value min max.
Proof.
  intros Hle. unfold clamp.
  destruct (Z.ltb_spec value min), (Z.gtb_spec value max);
    repeat split; intros; try lia;
    repeat match goal with
           | |- context [?a <? ?b] => destruct (Z.ltb_spec a b); try lia
           | |- context [?a >? ?b] => destruct (Z.gtb_spec a b); try lia
           end.
Qed.

Lemma clamp_bounds_witness : clamp 7 0 4 = 4.
Proof. apply (clamp_bounds 7 0 4); lia. Defined.

Lemma length_substring_0 n s :
  String.length (String.substring 0 n s) = Nat.min n (String.length s).
Proof.
  revert s. induction n as [|n IH]; intros [|c s]; cbn; try done.
  by rewrite IH.
Qed.

Lemma length_append s1 s2 :
  String.length (s1 +:+ s2) = (String.length s1 + String.length s2)%nat.
Proof. induction s1 as [|c s1 IH]; [done|]. cbn [String.length Nat.add]. by rewrite <- IH. Qed.

Lemma append_empty s : s +:+ "" = s.
Proof.
  induction s as [|c s IH]; [done|].
  change (String c (s +:+ "") = String c s). by rewrite IH.
Qed.

(** X19: truncate(text, width) never returns more than max(0, width) bytes:
    it is the empty string for width <= 0, the text itself when the text has
    at most width bytes, and otherwise exactly width bytes long, made of a
    prefix of the text followed by "..." when width > 3 and of a bare prefix
    when width <= 3. *)
Theorem truncate_fits text width :
  Z.of_nat (String.length (truncate text width)) <= Z.max 0 width
  /\ (width <= 0 -> truncate text width = "")
  /\ (0 < width -> Z.of_nat (String.length text) <= width -> truncate text width = text)
  /\ (0 < width < Z.of_nat (String.length text) ->
      Z.of_nat (String.length (truncate text width)) = width
      /\ exists n, truncate text width
                   = String.substring 0 n text +:+ (if width <=? 3 then "" else "...")).
Proof.
  unfold truncate.
  destruct (Z.leb_spec width 0) as [Hw|Hw].
  { repeat split; try done; cbn; lia. }
  destruct (Z.leb_spec (Z.of_nat (String.length text)) width) as [Hfit|Hcut].
  { repeat split; try done; lia. }
  destruct (Z.leb_spec width 3) as [H3|H3].
  - rewrite length_substring_0. repeat split; try lia.
    exists (Z.to_nat width). by rewrite append_empty.
  - rewrite length_append, length_substring_0. cbn [String.length].
    repeat split; try lia. by eexists.
Qed.


Lemma truncate_fits_witness :
  Z.of_nat (String.length (truncate "coins: 1000" 8)) = 8.
Proof.
  apply (proj2 (proj2 (proj2 (truncate_fits "coins: 1000" 8)))). cbn. lia.
Defined.


(** *** The front end: the selection *)

Lemma index_Some {A} (l : list A) i x :
  index l i = Some x <-> 0 <= i /\ l !! Z.to_nat i = Some x.
Proof.
  unfold index. destruct (Z.ltb_spec i 0); [|by intuition].
  split; [done|]. intros [? _]. lia.
Qed.

Lemma index_range {A} (l : list A) i :
  0 <= i < Z.of_nat (length l) -> is_Some (index l i).
Proof.
  intros Hi. unfold index. destruct (Z.ltb_spec i 0); [lia|].
  apply lookup_lt_is_Some. lia.
Qed.

Lemma same_shape_index g g' a ind :
  game_shape g' = game_shape g ->
  index (Industries g) a = Some ind ->
  exists ind', index (Industries g') a = Some ind'
               /\ length (is_Workers ind') = length (is_Workers ind).
Proof.
  intros Hshape. rewrite index_Some. intros [Ha Hind].
  unfold game_shape in Hshape. injection Hshape as Hi _.
  apply (f_equal (.!! Z.to_nat a)) in Hi. rewrite !list_lookup_fmap, Hind in Hi.
  destruct (Industries g' !! Z.to_nat a) as [ind'|] eqn:Hind'; [|done].
  exists ind'. split; [by apply index_Some|].
  cbn in Hi. injection Hi as _ _ _ Hw.
  apply (f_equal length) in Hw. by rewrite !length_fmap in Hw.
Qed.

Lemma selection_valid_shape ui g' :
  game_shape g' = game_shape (ui_game ui) ->
  selection_valid ui -> selection_valid (set_game g' ui).
Proof.
  intros Hshape (ind & Hind & Hsel).
  destruct (same_shape_index _ _ _ _ Hshape Hind) as (ind' & Hind' & Hlen).
  exists ind'. split; [done|]. cbn. by rewrite Hlen.
Qed.

Lemma selection_worker ui :
  selection_valid ui ->
  0 <= ui_activeIndustry ui /\ 0 <= ui_selectedWorker ui
  /\ is_Some (worker_at (ui_game ui) (Z.to_nat (ui_activeIndustry ui))
                        (Z.to_nat (ui_selectedWorker ui))).
Proof.
  intros (ind & Hind & Hsel). apply index_Some in Hind as [Ha Hind].
  split; [done|]. split; [lia|]. unfold worker_at. rewrite Hind. cbn.
  apply lookup_lt_is_Some. lia.
Qed.

Lemma sound_industry_workers g a ind :
  sound_definitions g -> index (Industries g) a = Some ind ->
  (0 < length (is_Workers ind))%nat.
Proof.
  intros (_ & Hinds & _) [_ Hind]%index_Some.
  destruct (proj1 (Forall_lookup _ _) Hinds _ _ Hind) as (_ & _ & Hne & _).
  destruct (is_Workers ind); [done|cbn; lia].
Qed.

Lemma shiftIndustry_selects delta ui :
  -1 <= delta <= 1 ->
  sound_definitions (ui_game ui) -> selection_valid ui ->
  let count := Z.of_nat (length (Industries (ui_game ui))) in
  ui_game (shiftIndustry delta ui) = ui_game ui
  /\ ui_activeIndustry (shiftIndustry delta ui) = (ui_activeIndustry ui + delta) mod count
  /\ ui_selectedWorker (shiftIndustry delta ui) = 0
  /\ selection_valid (shiftIndustry delta ui).
Proof.
  intros Hdelta Hsound (ind & Hind & Hsel) count.
  pose proof Hsound as ((Hlo & Hhi) & _).
  apply index_Some in Hind as [Ha Hind]. apply lookup_lt_Some in Hind.
  unfold shiftIndustry. fold count.
  assert (Hcount : 0 < count <= 5) by (subst count; lia).
  destruct (Z.eqb_spec count 0); [lia|].
  assert (Hrange : 0 <= ui_activeIndustry ui < count) by (subst count; lia).
  assert (Hwrap : wrap (wrap (ui_activeIndustry ui + delta) + count)
                  = ui_activeIndustry ui + delta + count).
  { rewrite (wrap_id (ui_activeIndustry ui + delta)) by (unfold is_int, MinInt, MaxInt; lia).
    apply wrap_id. unfold is_int, MinInt, MaxInt. lia. }
  rewrite Hwrap.
  assert (Hrem : Z.rem (ui_activeIndustry ui + delta + count) count
                 = (ui_activeIndustry ui + delta) mod count).
  { rewrite Z.rem_mod_nonneg by lia.
    by rewrite <- (Z.mod_add (ui_activeIndustry ui + delta) 1 count), Z.mul_1_l by lia. }
  rewrite Hrem. cbn [ui_game ui_activeIndustry ui_selectedWorker select_industry].
  repeat split.
  pose proof (Z.mod_pos_bound (ui_activeIndustry ui + delta) count ltac:(lia)) as Hmod.
  destruct (index_range (Industries (ui_game ui))
              ((ui_activeIndustry ui + delta) mod count) ltac:(subst count; lia))
    as [ind' Hind'].
  exists ind'. cbn. split; [done|].
  pose proof (sound_industry_workers _ _ _ Hsound Hind'). lia.
Qed.

(** X20: On a game with sound definitions and a valid selection,
    shiftIndustry(1) moves the active industry to the next one and from the
    last to the first, shiftIndustry(-1) to the previous one and from the
    first to the last (Go's truncated % never yields a negative index here
    because the count is added first); a step right followed by a step left,
    or left then right, returns to the industry it started from; each step
    resets the selected worker to 0. *)
Theorem shiftIndustry_cycles ui :
  sound_definitions (ui_game ui) -> selection_valid ui ->
  let count := Z.of_nat (length (Industries (ui_game ui))) in
  let right := shiftIndustry 1 ui in
  let left := shiftIndustry (-1) ui in
  ui_activeIndustry right
    = (if ui_activeIndustry ui =? count - 1 then 0 else ui_activeIndustry ui + 1)
  /\ ui_activeIndustry left
    = (if ui_activeIndustry ui =? 0 then count - 1 else ui_activeIndustry ui - 1)
  /\ ui_activeIndustry (shiftIndustry (-1) right) = ui_activeIndustry ui
  /\ ui_activeIndustry (shiftIndustry 1 left) = ui_activeIndustry ui
  /\ ui_selectedWorker right = 0 /\ ui_selectedWorker left = 0.
Proof.
  intros Hsound Hsel count right left.
  destruct (shiftIndustry_selects 1 ui ltac:(lia) Hsound Hsel) as (Hg1 & Ha1 & Hs1 & Hv1).
  destruct (shiftIndustry_selects (-1) ui ltac:(lia) Hsound Hsel) as (Hg2 & Ha2 & Hs2 & Hv2).
  fold count in Ha1, Ha2. fold right in Hg1, Ha1, Hs1, Hv1. fold left in Hg2, Ha2, Hs2, Hv2.
  assert (Hrange : 0 <= ui_activeIndustry ui < count).
  { destruct Hsel as (ind & [Ha Hind]%index_Some & _).
    apply lookup_lt_Some in Hind. subst count. lia. }
  assert (Hright : ui_activeIndustry right
                   = if ui_activeIndustry ui =? count - 1 then 0 else ui_activeIndustry ui + 1).
  { rewrite Ha1. destruct (Z.eqb_spec (ui_activeIndustry ui) (count - 1)) as [->|].
    - replace (count - 1 + 1) with count by lia. apply Z.mod_same. lia.
    - rewrite Z.mod_small; lia. }
  assert (Hleft : ui_activeIndustry left
                  = if ui_activeIndustry ui =? 0 then count - 1 else ui_activeIndustry ui - 1).
  { rewrite Ha2. destruct (Z.eqb_spec (ui_activeIndustry ui) 0) as [->|].
    - rewrite <- (Z.mod_add _ 1 count) by lia. rewrite Z.mod_small; lia.
    - rewrite Z.mod_small; lia. }
  split; [done|]. split; [done|].
  assert (Hsound1 : sound_definitions (ui_game right)) by by rewrite Hg1.
  assert (Hsound2 : sound_definitions (ui_game left)) by by rewrite Hg2.
  destruct (shiftIndustry_selects (-1) right ltac:(lia) Hsound1 Hv1) as (_ & Hb1 & _).
  destruct (shiftIndustry_selects 1 left ltac:(lia) Hsound2 Hv2) as (_ & Hb2 & _).
  rewrite Hg1 in Hb1. rewrite Hg2 in Hb2. fold count in Hb1, Hb2.
  repeat split; try done.
  - rewrite Hb1, Hright. destruct (Z.eqb_spec (ui_activeIndustry ui) (count - 1)) as [Heq|].
    + rewrite <- (Z.mod_add _ 1 count) by lia. rewrite Z.mod_small; lia.
    + rewrite Z.mod_small; lia.
  - rewrite Hb2, Hleft. destruct (Z.eqb_spec (ui_activeIndustry ui) 0) as [Heq|].
    + replace (count - 1 + 1) with count by lia. rewrite Z.mod_same; lia.
    + rewrite Z.mod_small; lia.
Qed.


Lemma shiftIndustry_cycles_witness :
  ui_activeIndustry (shiftIndustry (-1) (shiftIndustry 1 (NewUI chain_game))) = 0.
Proof.
  refine (proj1 (proj2 (proj2 (shiftIndustry_cycles (NewUI chain_game) _ _)))).
  - apply configured_sound, reachable_configured, chain_game_reachable.
  - eexists. split; [reflexivity|]. cbn. lia.
Defined.

(** *** The front end: the global run key *)

Lemma lowestAvailable_spec workers :
  forall k,
    match lowestAvailable workers k with
    | Some j =>
        exists w, (k <= j)%nat /\ workers !! (j - k)%nat = Some w
          /\ ~ unavailable w
          /\ forall i w', (i < j - k)%nat -> workers !! i = Some w' -> unavailable w'
    | None => Forall unavailable workers
    end.
Proof.
  induction workers as [|w workers IH]; intros k; cbn [lowestAvailable]; [constructor|].
  assert (Hstep :
    unavailable w ->
    match lowestAvailable workers (S k) with
    | Some j =>
        exists w0, (k <= j)%nat /\ (w :: workers) !! (j - k)%nat = Some w0
          /\ ~ unavailable w0
          /\ forall i w', (i < j - k)%nat -> (w :: workers) !! i = Some w' -> unavailable w'
    | None => Forall unavailable (w :: workers)
    end).
  { intros Hw. specialize (IH (S k)).
    destruct (lowestAvailable workers (S k)) as [j|]; [|by constructor].
    destruct IH as (w0 & Hkj & Hj & Hav & Hbefore).
    exists w0. split; [lia|]. replace (j - k)%nat with (S (j - S k)) by lia.
    split; [done|]. split; [done|].
    intros [|i] w' Hi; cbn; [by intros [= <-]|]. apply Hbefore. lia. }
  destruct (ws_Auto w) eqn:Hauto; [apply Hstep; by left|].
  destruct (ws_Running w) eqn:Hrun; [apply Hstep; by right; left|].
  cbn [orb]. destruct (Z.eqb_spec (ws_Owned w) 0) as [Ho|Ho]; [apply Hstep; by right; right|].
  exists w. split; [lia|]. rewrite Nat.sub_diag. split; [done|]. split.
  - intros [?|[?|?]]; congruence.
  - intros i w' Hi. lia.
Qed.



Lemma BuyWorker_dev_ledger g i j g' st :
  DevMode g = true -> BuyWorker g i j = Some (g', st) -> Resources g' = Resources g.
Proof.
  intros Hdev. unfold BuyWorker. destruct (worker_at g i j) as [w|]; [|done].
  cbn [mbind option_bind]. rewrite Hdev.
  destruct (buyCount _ _) as [n|]; [|by intros [= <- _]].
  by destruct (n <=? 0); intros [= <- _].
Qed.

Lemma UpgradeWorker_dev_ledger g i j g' st :
  DevMode g = true -> UpgradeWorker g i j = Some (g', st) -> Resources g' = Resources g.
Proof.
  intros Hdev. unfold UpgradeWorker. destruct (worker_at g i j) as [w|]; [|done].
  cbn [mbind option_bind]. rewrite Hdev. cbn [negb andb]. by intros [= <- _].
Qed.

Lemma operations_total g i j now :
  is_Some (worker_at g i j) ->
  is_Some (BuyWorker g i j) /\ is_Some (UpgradeWorker g i j) /\ is_Some (StartRun g i j now).
Proof.
  intros [w Hw]. unfold BuyWorker, UpgradeWorker, StartRun. rewrite Hw.
  cbn [mbind option_bind]. repeat split.
  - destruct (buyCount _ _) as [n|]; [|done]. by destruct (n <=? 0).
  - by destruct (negb (DevMode g) && _).
  - destruct (ws_Owned w =? 0); [done|]. by destruct (ws_Running w).
Qed.

(** *** The front end: what a key does to the game *)

Lemma key_effect_shape w g g1 : key_effect w g g1 -> game_shape g1 = game_shape g.
Proof.
  intros [|i j st g' Hop|i j st g' Hop|i j st g' Hop| |s err g' _ _ Hop].
  - done.
  - apply (BuyWorker_touches _ _ _ _ _ Hop).
  - apply (UpgradeWorker_touches _ _ _ _ _ Hop).
  - apply (StartRun_touches _ _ _ _ _ _ Hop).
  - done.
  - pose proof (applySnapshot_shape g s) as Hs. by rewrite Hop in Hs.
Qed.

Lemma key_effect_reachable w g g1 : reachable g -> key_effect w g g1 -> reachable g1.
Proof.
  intros Hg [|i j st g' Hop|i j st g' Hop|i j st g' Hop| |s err g' _ _ Hop].
  - done.
  - by eapply reach_buy.
  - by eapply reach_upgrade.
  - by eapply reach_start.
  - by apply reach_toggle.
  - by eapply reach_load.
Qed.

Lemma on_selection_effect w ui op ui' m :
  on_selection ui op = Some (ui', m) ->
  (forall g i j g' st, op g i j = Some (g', st) -> key_effect w g g') ->
  key_effect w (ui_game ui) (ui_game ui').
Proof.
  unfold on_selection. destruct (_ || _); [done|].
  destruct (op _ _ _) as [[g st]|] eqn:Hop; [|done]. cbn. intros [= <- _] Hall.
  by eapply Hall.
Qed.

Lemma report_game w reads r ui' :
  report w reads r = Some ui' -> exists ui1 m, r = Some (ui1, m) /\ ui_game ui' = ui_game ui1.
Proof.
  unfold report. destruct r as [[ui1 m]|]; [|done]. cbn. intros [= <-]. by eexists _, _.
Qed.

Lemma shiftIndustry_game delta ui : ui_game (shiftIndustry delta ui) = ui_game ui.
Proof. unfold shiftIndustry. by destruct (_ =? 0). Qed.

Lemma shiftWorker_game delta ui ui' :
  shiftWorker delta ui = Some ui' -> ui_game ui' = ui_game ui.
Proof.
  unfold shiftWorker. destruct (index _ _) as [ind|]; [|done]. cbn.
  by destruct (_ =? 0)%nat; intros [= <-].
Qed.

Lemma runLowestAvailable_effect w ui ui' m :
  runLowestAvailable (w_clock w 0) ui = Some (ui', m) ->
  key_effect w (ui_game ui) (ui_game ui').
Proof.
  unfold runLowestAvailable. destruct (index _ _) as [ind|]; [|done]. cbn.
  destruct (lowestAvailable _ _) as [j|]; [|intros [= <- _]; constructor].
  destruct (StartRun _ _ _ _) as [[g st]|] eqn:Hop; [|done]. cbn. intros [= <- _].
  by eapply effect_start.
Qed.

Lemma loadGame_effect w ui ui' m :
  guardDevMode "load" (loadGame (w_file w)) ui = (ui', m) ->
  key_effect w (ui_game ui) (ui_game ui').
Proof.
  unfold guardDevMode. destruct (DevMode (ui_game ui)) eqn:Hdev.
  { intros [= <- _]. constructor. }
  unfold loadGame, LoadFromFile. destruct (w_file w) as [| |s] eqn:Hfile.
  - intros [= <- _]. constructor.
  - intros [= <- _]. constructor.
  - destruct (applySnapshot (ui_game ui) s) as [g' [err|]] eqn:Hop; cbn;
      intros [= <- _]; by eapply effect_load.
Qed.

Lemma handleRune_effect w r ui ui' :
  handleRune w r ui = Some ui' -> key_effect w (ui_game ui) (ui_game ui').
Proof.
  unfold handleRune.
  destruct (r =? rune "a").
  { intros [= <-]. rewrite shiftIndustry_game. constructor. }
  destruct (r =? rune "d").
  { intros [= <-]. rewrite shiftIndustry_game. constructor. }
  destruct (r =? rune "w").
  { intros Hui. rewrite (shiftWorker_game _ _ _ Hui). constructor. }
  destruct (r =? rune "s").
  { intros Hui. rewrite (shiftWorker_game _ _ _ Hui). constructor. }
  destruct (r =? rune "b").
  { intros (ui1 & m & Hop & ->)%report_game.
    eapply on_selection_effect; [exact Hop|]. intros. by eapply effect_buy. }
  destruct ((r =? rune "r") || (r =? rune " ")).
  { intros (ui1 & m & Hop & ->)%report_game.
    eapply on_selection_effect; [exact Hop|].
    intros g i j g' st Hst. cbn beta in Hst. by eapply effect_start. }
  destruct (r =? rune "u").
  { intros (ui1 & m & Hop & ->)%report_game.
    eapply on_selection_effect; [exact Hop|]. intros. by eapply effect_upgrade. }
  destruct (r =? rune "m").
  { intros (ui1 & m & [= <- _] & ->)%report_game. constructor. }
  destruct (r =? rune "q").
  { intros (ui1 & m & Hop & ->)%report_game. by eapply runLowestAvailable_effect. }
  destruct (r =? rune "t").
  { intros (ui1 & m & [= Hop] & ->)%report_game.
    unfold guardDevMode, UI_saveGame in Hop.
    destruct (DevMode (ui_game ui)); [|destruct (SaveToFile _ _ _)];
      injection Hop as <- _; constructor. }
  destruct (r =? rune "y").
  { intros (ui1 & m & [= Hop] & ->)%report_game. by eapply loadGame_effect. }
  intros [= <-]. constructor.
Qed.

Lemma handleKey_effect w event ui ui' quit :
  handleKey w event ui = Some (ui', quit) -> key_effect w (ui_game ui) (ui_game ui').
Proof.
  unfold handleKey. destruct (ev_Key event).
  - intros [= <- _]. constructor.
  - intros [= <- _]. constructor.
  - intros [= <- _]. rewrite shiftIndustry_game. constructor.
  - intros [= <- _]. rewrite shiftIndustry_game. constructor.
  - destruct (shiftWorker (-1) ui) as [ui1|] eqn:Hs; [|done]. cbn. intros [= <- _].
    rewrite (shiftWorker_game _ _ _ Hs). constructor.
  - destruct (shiftWorker 1 ui) as [ui1|] eqn:Hs; [|done]. cbn. intros [= <- _].
    rewrite (shiftWorker_game _ _ _ Hs). constructor.
  - destruct (handleRune w (ev_Rune event) ui) as [ui1|] eqn:Hr; [|done]. cbn.
    intros [= <- _]. by eapply handleRune_effect.
Qed.


(** *** The front end: a run never indexes out of range *)

Lemma clamp_range value min max : min <= max -> min <= clamp value min max <= max.
Proof.
  intros Hle. unfold clamp.
  destruct (Z.ltb_spec value min); [lia|]. destruct (Z.gtb_spec value max); lia.
Qed.

Lemma clamp_inside value min max : min <= value <= max -> clamp value min max = value.
Proof.
  intros Hin. unfold clamp.
  destruct (Z.ltb_spec value min); [lia|]. destruct (Z.gtb_spec value max); lia.
Qed.

Lemma selection_valid_status ui m now :
  selection_valid ui -> selection_valid (setStatus m now ui).
Proof. done. Qed.

Lemma shiftWorker_selects delta ui :
  sound_definitions (ui_game ui) -> selection_valid ui ->
  exists ui', shiftWorker delta ui = Some ui' /\ selection_valid ui'.
Proof.
  intros Hsound (ind & Hind & Hsel). unfold shiftWorker. rewrite Hind. cbn [mbind option_bind].
  pose proof (sound_industry_workers _ _ _ Hsound Hind) as Hlen.
  destruct (Nat.eqb_spec (length (is_Workers ind)) 0); [lia|].
  eexists. split; [done|]. exists ind. split; [done|]. cbn.
  pose proof (clamp_range (wrap (ui_selectedWorker ui + delta)) 0
                (Z.of_nat (length (is_Workers ind)) - 1) ltac:(lia)). lia.
Qed.

Lemma on_selection_selects w ui op :
  selection_valid ui ->
  (forall g i j, is_Some (worker_at g i j) -> is_Some (op g i j)) ->
  (forall g i j g' st, op g i j = Some (g', st) -> key_effect w g g') ->
  exists ui' m, on_selection ui op = Some (ui', m) /\ selection_valid ui'.
Proof.
  intros Hsel Htotal Heffect.
  destruct (selection_worker ui Hsel) as (Ha & Hs & Hw).
  unfold on_selection.
  destruct (Z.ltb_spec (ui_activeIndustry ui) 0); [lia|].
  destruct (Z.ltb_spec (ui_selectedWorker ui) 0); [lia|]. cbn [orb].
  destruct (Htotal _ _ _ Hw) as [[g' st] Hop]. rewrite Hop. cbn.
  eexists _, _. split; [done|]. apply selection_valid_shape; [|done].
  eapply key_effect_shape, Heffect, Hop.
Qed.

Lemma runLowestAvailable_selects now ui :
  selection_valid ui ->
  exists ui' m, runLowestAvailable now ui = Some (ui', m) /\ selection_valid ui'.
Proof.
  intros Hsel. pose proof Hsel as (ind & Hind & _).
  unfold runLowestAvailable. rewrite Hind. cbn [mbind option_bind].
  pose proof (lowestAvailable_spec (is_Workers ind) 0) as Hspec.
  destruct (lowestAvailable (is_Workers ind) 0) as [j|]; [|by eexists _, _].
  destruct Hspec as (w0 & _ & Hj & _). rewrite Nat.sub_0_r in Hj.
  apply index_Some in Hind as [Ha Hind].
  assert (Hw : is_Some (worker_at (ui_game ui) (Z.to_nat (ui_activeIndustry ui)) j)).
  { unfold worker_at. rewrite Hind. cbn. by eexists. }
  destruct (proj2 (proj2 (operations_total _ _ _ now Hw))) as [[g' st] Hop].
  rewrite Hop. cbn. eexists _, _. split; [done|]. apply selection_valid_shape; [|done].
  apply (StartRun_touches _ _ _ _ _ _ Hop).
Qed.

Lemma loadGame_selects file ui :
  sound_definitions (ui_game ui) -> selection_valid ui ->
  selection_valid (fst (loadGame file ui)).
Proof.
  intros Hsound Hsel. unfold loadGame, LoadFromFile.
  destruct file as [| |s]; cbn [fst]; try by apply selection_valid_shape.
  pose proof (applySnapshot_shape (ui_game ui) s) as Hshape.
  destruct (applySnapshot (ui_game ui) s) as [g' [err|]]; cbn [fst fmap option_fmap option_map] in *.
  { by apply selection_valid_shape. }
  destruct Hsel as (ind & Hind & Hsel).
  destruct (same_shape_index _ _ _ _ Hshape Hind) as (ind' & Hind' & Hlen).
  pose proof (sound_industry_workers _ _ _ Hsound Hind) as Hne.
  pose proof Hind' as [Ha Hlook]%index_Some. apply lookup_lt_Some in Hlook.
  exists ind'. cbn. rewrite clamp_inside by lia. split; [done|lia].
Qed.

Lemma handleRune_selects w r ui :
  sound_definitions (ui_game ui) -> selection_valid ui ->
  exists ui', handleRune w r ui = Some ui' /\ selection_valid ui'.
Proof.
  intros Hsound Hsel. unfold handleRune.
  destruct (r =? rune "a").
  { eexists. split; [done|]. by apply shiftIndustry_selects. }
  destruct (r =? rune "d").
  { eexists. split; [done|]. by apply shiftIndustry_selects. }
  destruct (r =? rune "w"); [by apply shiftWorker_selects|].
  destruct (r =? rune "s"); [by apply shiftWorker_selects|].
  destruct (r =? rune "b").
  { destruct (on_selection_selects w ui BuyWorker Hsel) as (ui' & m & -> & Hv).
    - intros g i j Hw. apply (operations_total g i j 0 Hw).
    - intros. by eapply effect_buy.
    - by eexists. }
  destruct ((r =? rune "r") || (r =? rune " ")).
  { destruct (on_selection_selects w ui (fun g i j => StartRun g i j (w_clock w 0)) Hsel)
      as (ui' & m & -> & Hv).
    - intros g i j Hw. apply (operations_total g i j _ Hw).
    - intros g i j g' st Hst. by eapply effect_start.
    - by eexists. }
  destruct (r =? rune "u").
  { destruct (on_selection_selects w ui UpgradeWorker Hsel) as (ui' & m & -> & Hv).
    - intros g i j Hw. apply (operations_total g i j 0 Hw).
    - intros. by eapply effect_upgrade.
    - by eexists. }
  destruct (r =? rune "m").
  { eexists. split; [done|]. by apply selection_valid_status, selection_valid_shape. }
  destruct (r =? rune "q").
  { destruct (runLowestAvailable_selects (w_clock w 0) ui Hsel) as (ui' & m & -> & Hv).
    by eexists. }
  destruct (r =? rune "t").
  { unfold guardDevMode, UI_saveGame.
    destruct (DevMode (ui_game ui)); [|destruct (SaveToFile _ _ _)]; by eexists. }
  destruct (r =? rune "y").
  { unfold guardDevMode. destruct (DevMode (ui_game ui)); [by eexists|].
    pose proof (loadGame_selects (w_file w) ui Hsound Hsel) as Hv.
    destruct (loadGame (w_file w) ui) as [ui' m]. by eexists. }
  by eexists.
Qed.

Lemma handleKey_selects w event ui :
  sound_definitions (ui_game ui) -> selection_valid ui ->
  exists ui' quit, handleKey w event ui = Some (ui', quit) /\ selection_valid ui'.
Proof.
  intros Hsound Hsel. unfold handleKey. destruct (ev_Key event).
  - by eexists _, _.
  - by eexists _, _.
  - eexists _, _. split; [done|]. by apply shiftIndustry_selects.
  - eexists _, _. split; [done|]. by apply shiftIndustry_selects.
  - destruct (shiftWorker_selects (-1) ui Hsound Hsel) as (ui' & -> & Hv). by eexists _, _.
  - destruct (shiftWorker_selects 1 ui Hsound Hsel) as (ui' & -> & Hv). by eexists _, _.
  - destruct (handleRune_selects w (ev_Rune event) ui Hsound Hsel) as (ui' & -> & Hv).
    by eexists _, _.
Qed.

Lemma ui_reachable_invariant ui :
  ui_reachable ui -> reachable (ui_game ui) /\ selection_valid ui.
Proof.
  induction 1 as [clock cfg cfg' g Hv Hb|now ui _ [IHg IHs]|w event ui ui' _ [IHg IHs] Hkey].
  - assert (Hg : reachable g) by by eapply reach_build.
    split; [done|].
    pose proof (configured_sound _ (reachable_configured _ Hg)) as Hsound.
    pose proof Hsound as ((Hlo & _) & _).
    destruct (index_range (Industries g) 0 ltac:(lia)) as [ind Hind].
    exists ind. split; [done|]. cbn.
    pose proof (sound_industry_workers _ _ _ Hsound Hind). lia.
  - split; [by apply reach_update|].
    apply selection_valid_shape; [|done]. apply Update_shape.
  - split; [eapply key_effect_reachable, handleKey_effect; eassumption|].
    pose proof (configured_sound _ (reachable_configured _ IHg)) as Hsound.
    destruct (handleKey_selects w event ui Hsound IHs) as (ui1 & quit & Hk & Hv).
    rewrite Hkey in Hk. by injection Hk as -> _.
Qed.

(** X22: In every state the front end reaches (NewUI on a game built from an
    accepted configuration, then any sequence of timer ticks and key
    presses, whatever the clock and the save file hold), the active industry
    and the selected worker index an existing worker of the game, the game
    is a state the engine reaches, and handleKey on any key event returns
    without an index-out-of-range panic, leaving the selection valid again. *)
Theorem front_end_never_panics ui :
  ui_reachable ui ->
  reachable (ui_game ui)
  /\ selection_valid ui
  /\ forall w event, exists ui' quit,
       handleKey w event ui = Some (ui', quit)
       /\ selection_valid ui' /\ reachable (ui_game ui').
Proof.
  intros Hui. destruct (ui_reachable_invariant ui Hui) as [Hg Hsel].
  split; [done|]. split; [done|]. intros w event.
  pose proof (configured_sound _ (reachable_configured _ Hg)) as Hsound.
  destruct (handleKey_selects w event ui Hsound Hsel) as (ui' & quit & Hk & Hv).
  exists ui', quit. split; [done|]. split; [done|].
  eapply key_effect_reachable, handleKey_effect; eassumption.
Qed.

Lemma front_end_never_panics_witness :
  exists ui' quit,
    handleKey (world 5 Unreadable) (press "b") (NewUI chain_start) = Some (ui', quit)
    /\ selection_valid ui' /\ reachable (ui_game ui').
Proof.
  apply (front_end_never_panics (NewUI chain_start)).
  apply (ui_start (fun _ => 0) chain_config (priced chain_config)); reflexivity.
Defined.

Lemma key_effect_dev w g g1 :
  key_effect w g g1 ->
  (DevMode g = true -> DevMode g1 = true /\ Resources g1 = Resources g)
  /\ (DevMode g = false -> DevMode g1 = true ->
      exists s, w_file w = Parsed s /\ sg_DevMode s = true
                /\ applySnapshot g s = (g1, None)).
Proof.
  intros [|i j st g' Hop|i j st g' Hop|i j st g' Hop| |s err g' Hdev Hfile Hop].
  - split; [done|]. congruence.
  - destruct (BuyWorker_touches _ _ _ _ _ Hop) as (_ & _ & _ & Hd & _). split.
    + intros Hdev. split; [congruence|]. by eapply BuyWorker_dev_ledger.
    + congruence.
  - destruct (UpgradeWorker_touches _ _ _ _ _ Hop) as (_ & _ & _ & Hd & _). split.
    + intros Hdev. split; [congruence|]. by eapply UpgradeWorker_dev_ledger.
    + congruence.
  - destruct (StartRun_touches _ _ _ _ _ _ Hop) as ((_ & _ & _ & Hd & _) & Hres). split.
    + intros Hdev. split; congruence.
    + congruence.
  - split; [intros Hdev; by split|]. cbn. congruence.
  - split; [congruence|]. intros _ Hdev'. exists s. split; [done|].
    assert (Hok : err = None /\ DevMode g' = sg_DevMode s).
    { unfold applySnapshot in Hop.
      destruct (sg_Resources s); [|injection Hop as <- _; congruence].
      destruct (negb _); [injection Hop as <- _; congruence|].
      destruct (negb _); [injection Hop as <- _; congruence|].
      destruct (applyIndustries _ _) as [inds [e|]]; injection Hop as <- <-.
      - cbn in Hdev'. congruence.
      - done. }
    destruct Hok as [-> Hs]. split; [congruence|done].
Qed.

(** X23: No key press leaves developer mode and none changes the ledger
    while in it: if DevMode is on before handleKey it is on afterwards and
    the ledger is the same (purchases and upgrades are free, save and load
    are refused). A timer tick never changes the flag. The only way
    handleKey turns developer mode on is the load key with a save file that
    parses to a snapshot with devMode = true and applies without error. *)
Theorem developer_mode_latch w event ui ui' quit :
  handleKey w event ui = Some (ui', quit) ->
  (DevMode (ui_game ui) = true ->
   DevMode (ui_game ui') = true /\ Resources (ui_game ui') = Resources (ui_game ui))
  /\ (DevMode (ui_game ui) = false -> DevMode (ui_game ui') = true ->
      exists s, w_file w = Parsed s /\ sg_DevMode s = true
                /\ applySnapshot (ui_game ui) s = (ui_game ui', None))
  /\ (forall now, DevMode (ui_game (tick now ui)) = DevMode (ui_game ui)).
Proof.
  intros Hkey. pose proof (handleKey_effect _ _ _ _ _ Hkey) as Heffect.
  destruct (key_effect_dev _ _ _ Heffect) as [Hon Hoff].
  split; [done|]. split; [done|]. intros now. apply Update_shape.
Qed.


Lemma developer_mode_latch_witness :
  DevMode (ui_game (after_key (handleKey (world 5 (Parsed dev_save)) (press "b")
                                 (NewUI dev_game)) (NewUI dev_game))) = true
  /\ Resources (ui_game (after_key (handleKey (world 5 (Parsed dev_save)) (press "b")
                                      (NewUI dev_game)) (NewUI dev_game)))
     = Resources dev_game.
Proof.
  apply (proj1 (developer_mode_latch (world 5 (Parsed dev_save)) (press "b")
                  (NewUI dev_game) _ false eq_refl)).
  reflexivity.
Defined.

